(** * Icon pipeline: asset store, synchronizer, token registry, build

    A shallow embedding of the JavaScript sources

    - [brand-manager.js]  (class [BrandManager], the asset store),
    - [figma-api.js]      (class [FigmaApiService], the remote adapter),
    - [sync-figma-icons.js] (class [FigmaIconSync], the synchronizer),
    - [token-manager.js]  (class [TokenManager], the token registry),
    - [config-multi-brand.js] (class [MultiBrandBuilder]),

    followed by the properties established about them.

    Modelling conventions.

    - JavaScript strings are [string]s of 8-bit characters; [toLowerCase]
      acts on the ASCII letters and every character outside [a-z0-9] is
      treated alike by the sanitizers.
    - A thrown exception is the [Err] branch of [result]; functions that
      touch the file system return the new file system next to the result,
      because a call that throws may already have created a directory.
    - The assets directory is a finite map from brand directory names to
      directories; a directory maps file names to entries.  File-system
      calls fail only for the reasons the model can express (a missing
      directory, unlinking a sub-directory); permissions, disk space and
      path separators inside a [format] argument are not modelled.
    - [readdirSync] enumerates a directory in the order of [map_to_list];
      [localeCompare] is the lexicographic order on character codes, which
      is what it is on sanitized names.
    - A plain object used as a dictionary is the list of its own
      properties in the order in which they are enumerated ([jsobj]): the
      array indices first, in ascending order, then the other keys in the
      order of their creation.  The reads [o[k]] of the synchronizer, whose
      keys come from the remote service, also find the properties inherited
      from [Object.prototype] ([js_get]); what a built-in value reached in
      this way answers to [k in v] is a parameter, [builtins].  The keys of
      the token registry contain a hyphen, which no inherited property
      does.  An assignment [o["__proto__"] = v] is the one operation that is
      not modelled as it is: it creates no property, and the statements
      about [syncResults[brand]] leave this brand name out.
    - A call of an [async] function runs up to its first [await] and leaves
      a task; the event loop resumes the tasks one turn at a time, and the
      builds of the brands, which [build] starts together, take their turns
      in an order that is a parameter ([turns]).  A function that is
      awaited with nothing else running is run to completion. *)

From Stdlib Require Import String Ascii ZArith Lia DecimalString.
From stdpp Require Import gmap strings list.

Open Scope string_scope.

(** ** Errors and results *)

(** The exception classes of the sources.  The [From] constructors carry
    [details.originalError].  [AxiosError] is what the HTTP client itself
    throws: its own code, if it has one, and the status of the response,
    if there was one.  [err_code] is the [code] property callers inspect;
    [ReferenceError], [TypeError] and errors of external tools have
    none. *)
Inductive error :=
| BrandManagerError (code : string)
| BrandManagerErrorFrom (code : string) (originalError : error)
| FigmaApiError (code : string)
| FigmaSyncError (code : string)
| FigmaSyncErrorFrom (code : string) (originalError : error)
| TokenManagerError (code : string)
| ReferenceError (identifier : string)
| TypeError (message : string)
| SystemError (code : string)
| AxiosError (code : option string) (status : option nat)
| ToolError (message : string).

Definition err_code (e : error) : option string :=
  match e with
  | BrandManagerError c => Some c
  | BrandManagerErrorFrom c _ => Some c
  | FigmaApiError c => Some c
  | FigmaSyncError c => Some c
  | FigmaSyncErrorFrom c _ => Some c
  | TokenManagerError c => Some c
  | SystemError c => Some c
  | AxiosError c _ => c
  | ReferenceError _ => None
  | TypeError _ => None
  | ToolError _ => None
  end.

(** [error.code === c] *)
Definition has_code (e : error) (c : string) : bool :=
  match err_code e with
  | Some c' => String.eqb c' c
  | None => false
  end.

Inductive result (A : Type) :=
| Ok (value : A)
| Err (thrown : error).
Arguments Ok {A} value.
Arguments Err {A} thrown.

Definition bind_result {A B} (r : result A) (k : A -> result B) : result B :=
  match r with
  | Ok a => k a
  | Err e => Err e
  end.

Notation "'let?' x ':=' r 'in' k" := (bind_result r (fun x => k))
  (at level 10, x name, r at level 100, k at level 200).

(** ** Objects used as dictionaries

    A plain object is the list of its own properties in the order in which
    [Object.keys], [Object.entries] and [for ... in] enumerate them: the
    keys that are array indices first, in ascending numeric order, then the
    other keys in the order of their creation. *)

Definition jsobj (A : Type) := list (string * A).

(** The own property [k]. *)
Fixpoint obj_get {A} (o : jsobj A) (k : string) : option A :=
  match o with
  | [] => None
  | (k', v) :: o' => if String.eqb k' k then Some v else obj_get o' k
  end.

Definition is_digit (c : ascii) : bool :=
  let n := nat_of_ascii c in (48 <=? n)%nat && (n <=? 57)%nat.

(** The number a string of decimal digits denotes. *)
Fixpoint digits_value (s : string) (acc : N) : option N :=
  match s with
  | EmptyString => Some acc
  | String c r =>
      if is_digit c
      then digits_value r (acc * 10 + (N.of_nat (nat_of_ascii c) - 48))%N
      else None
  end.

(** The array index a key is, if any: the canonical decimal form of an
    integer from 0 to 2^32 - 2. *)
Definition array_index (k : string) : option N :=
  match k with
  | EmptyString => None
  | String c r =>
      if Ascii.eqb c "0" && negb (String.eqb r EmptyString) then None
      else
        match digits_value k 0 with
        | Some n => if (n <=? 4294967294)%N then Some n else None
        | None => None
        end
  end.

(** A new property whose key is the array index [n]: it goes after the
    array indices below [n]. *)
Fixpoint obj_add_index {A} (o : jsobj A) (n : N) (k : string) (v : A)
  : jsobj A :=
  match o with
  | [] => [(k, v)]
  | (k', v') :: o' =>
      match array_index k' with
      | Some m =>
          if (m <? n)%N then (k', v') :: obj_add_index o' n k v
          else (k, v) :: o
      | None => (k, v) :: o
      end
  end.

Fixpoint obj_replace {A} (o : jsobj A) (k : string) (v : A) : jsobj A :=
  match o with
  | [] => []
  | (k', v') :: o' =>
      if String.eqb k' k then (k, v) :: o' else (k', v') :: obj_replace o' k v
  end.

(** [o[k] = v], for every key but [__proto__]: an existing property keeps
    its position, a new one is created, last unless its key is an array
    index. *)
Definition obj_set {A} (o : jsobj A) (k : string) (v : A) : jsobj A :=
  match obj_get o k with
  | Some _ => obj_replace o k v
  | None =>
      match array_index k with
      | Some n => obj_add_index o n k v
      | None => (o ++ [(k, v)])%list
      end
  end.

(** [Object.keys(o)] *)
Definition obj_keys {A} (o : jsobj A) : list string := map fst o.

(** The properties a plain object inherits from [Object.prototype]. *)
Definition object_prototype : list string :=
  [ "constructor"; "hasOwnProperty"; "isPrototypeOf"; "propertyIsEnumerable";
    "toLocaleString"; "toString"; "valueOf"; "__defineGetter__";
    "__defineSetter__"; "__lookupGetter__"; "__lookupSetter__"; "__proto__" ].

(** What [o[k]] evaluates to on a plain object: the value of the own
    property, the built-in value of a property inherited from
    [Object.prototype], or [undefined]. *)
Inductive property (A : Type) :=
| Own (value : A)
| Inherited (name : string)
| Undefined.
Arguments Own {A} value.
Arguments Inherited {A} name.
Arguments Undefined {A}.

Definition js_get {A} (o : jsobj A) (k : string) : property A :=
  match obj_get o k with
  | Some v => Own v
  | None =>
      if bool_decide (k ∈ object_prototype) then Inherited k else Undefined
  end.

(** ** Character classes and the regular-expression passes *)

Definition is_lower (c : ascii) : bool :=
  let n := nat_of_ascii c in (97 <=? n)%nat && (n <=? 122)%nat.

Definition is_upper (c : ascii) : bool :=
  let n := nat_of_ascii c in (65 <=? n)%nat && (n <=? 90)%nat.

(** The class [[a-z0-9]]. *)
Definition is_alnum (c : ascii) : bool := is_lower c || is_digit c.

Definition hyphen : ascii := "-"%char.

Definition is_hyphen (c : ascii) : bool := Ascii.eqb c hyphen.

Definition lower_char (c : ascii) : ascii :=
  if is_upper c then ascii_of_nat (nat_of_ascii c + 32) else c.

Fixpoint map_string (f : ascii -> ascii) (s : string) : string :=
  match s with
  | EmptyString => EmptyString
  | String c r => String (f c) (map_string f r)
  end.

(** [s.toLowerCase()] *)
Definition toLowerCase (s : string) : string := map_string lower_char s.

(** [s.replace(/[^a-z0-9]/g, '-')] *)
Definition replace_non_alnum (s : string) : string :=
  map_string (fun c => if is_alnum c then c else hyphen) s.

(** [s.replace(/-+/g, '-')]: of a run of hyphens only the last is kept. *)
Fixpoint collapse_hyphens (s : string) : string :=
  match s with
  | EmptyString => EmptyString
  | String c r =>
      match r with
      | String c' _ =>
          if is_hyphen c && is_hyphen c' then collapse_hyphens r
          else String c (collapse_hyphens r)
      | EmptyString => String c EmptyString
      end
  end.

(** The alternative [^-] of [/^-|-$/g]. *)
Definition strip_leading_hyphen (s : string) : string :=
  match s with
  | String c r => if is_hyphen c then r else s
  | EmptyString => EmptyString
  end.

(** The alternative [-$] of [/^-|-$/g]. *)
Fixpoint strip_trailing_hyphen (s : string) : string :=
  match s with
  | EmptyString => EmptyString
  | String c EmptyString => if is_hyphen c then EmptyString else s
  | String c r => String c (strip_trailing_hyphen r)
  end.

(** [s.replace(/^-|-$/g, '')] *)
Definition strip_edge_hyphens (s : string) : string :=
  strip_trailing_hyphen (strip_leading_hyphen s).

(** The chain of calls shared by every sanitizer of the repository:
    [name.toLowerCase().replace(/[^a-z0-9]/g, '-').replace(/-+/g, '-')
         .replace(/^-|-$/g, '')] *)
Definition normalize (name : string) : string :=
  strip_edge_hyphens (collapse_hyphens (replace_non_alnum (toLowerCase name))).

(** The character map of the first two passes together. *)
Definition clean_char (c : ascii) : ascii :=
  if is_alnum (lower_char c) then lower_char c else hyphen.

(** A hyphen in front of [s] when one is pending. *)
Definition pending_hyphen (pending : bool) (s : string) : string :=
  if pending then String hyphen s else s.

(** The characters of a sanitized name. *)
Definition name_char (c : ascii) : bool := is_alnum c || is_hyphen c.

(** The normalization as the specification words it, as a single scan:
    letters are lowered, characters of [[a-z0-9]] are kept, and a non-empty
    run of other characters becomes one hyphen when it stands between two
    kept characters and nothing when it stands at either end.
    [started] records that a character has been kept, [pending] that a run
    of other characters has been seen since. *)
Fixpoint normalize_scan (started pending : bool) (s : string) : string :=
  match s with
  | EmptyString => EmptyString
  | String c r =>
      let c' := lower_char c in
      if is_alnum c' then
        if started && pending
        then String hyphen (String c' (normalize_scan true false r))
        else String c' (normalize_scan true false r)
      else normalize_scan started true r
  end.

Definition normalize_spec (name : string) : string :=
  normalize_scan false false name.

(** Predicates on sanitized names. *)
Fixpoint string_forallb (p : ascii -> bool) (s : string) : bool :=
  match s with
  | EmptyString => true
  | String c r => p c && string_forallb p r
  end.

Fixpoint no_double_hyphen (s : string) : bool :=
  match s with
  | String c ((String c' _) as r) =>
      negb (is_hyphen c && is_hyphen c') && no_double_hyphen r
  | _ => true
  end.

Definition starts_with_hyphen (s : string) : bool :=
  match s with
  | String c _ => is_hyphen c
  | EmptyString => false
  end.

Fixpoint ends_with_hyphen (s : string) : bool :=
  match s with
  | EmptyString => false
  | String c EmptyString => is_hyphen c
  | String _ r => ends_with_hyphen r
  end.

(** A name in normal form: only [[a-z0-9-]], hyphens isolated, none at
    either end. *)
Definition is_normal (s : string) : bool :=
  string_forallb name_char s
  && no_double_hyphen s
  && negb (starts_with_hyphen s)
  && negb (ends_with_hyphen s).

(** [s.includes(sub)] *)
Fixpoint includes (s sub : string) : bool :=
  String.prefix sub s ||
  match s with
  | EmptyString => false
  | String _ r => includes r sub
  end.

(** ** State and exceptions

    A computation over a state [S] that returns a value or throws, and in
    both cases leaves a state behind. *)
Definition M (S A : Type) : Type := S -> result A * S.

Definition ret {S A} (a : A) : M S A := fun s => (Ok a, s).

Definition throw {S A} (e : error) : M S A := fun s => (Err e, s).

Definition bind {S A B} (m : M S A) (k : A -> M S B) : M S B :=
  fun s =>
    match m s with
    | (Ok a, s') => k a s'
    | (Err e, s') => (Err e, s')
    end.

(** [try { m } catch (error) { h error }] *)
Definition try_catch {S A} (m : M S A) (h : error -> M S A) : M S A :=
  fun s =>
    match m s with
    | (Ok a, s') => (Ok a, s')
    | (Err e, s') => h e s'
    end.

Definition lift {S A} (r : result A) : M S A := fun s => (r, s).

Definition get {S} : M S S := fun s => (Ok s, s).

Definition modify {S} (f : S -> S) : M S unit := fun s => (Ok tt, f s).

Notation "'do' x <- m ; k" := (bind m (fun x => k))
  (at level 10, x name, m at level 100, k at level 200).
Notation "m ;; k" := (bind m (fun _ => k))
  (at level 100, k at level 200, right associativity).

(** ** Asynchronous functions

    A call of an [async] function runs the function up to its first
    [await]; what is left of it is a task, which the event loop resumes
    later, one turn at a time.  Between two turns of a task other tasks
    may have run and changed the state.  A pending task is what a turn
    makes of the state ([effect]) and what is left of the task after the
    turn ([resume]). *)
Inductive task (S A : Type) :=
| Settled (r : result A)
| Pending (resume : S -> task S A) (effect : S -> S).
Arguments Settled {S A} r.
Arguments Pending {S A} resume effect.

Definition async (S A : Type) : Type := S -> task S A * S.

(** A task that goes on as [m] in its next turn. *)
Definition pending {S A} (m : async S A) : task S A :=
  Pending (fun s => (m s).1) (fun s => (m s).2).

(** Code without an [await]. *)
Definition sync {S A} (m : M S A) : async S A :=
  fun s => match m s with (r, s') => (Settled r, s') end.

(** The rest of an [async] function after a task. *)
Fixpoint then_task {S A B} (t : task S A) (k : A -> async S B) : async S B :=
  fun s =>
    match t with
    | Settled (Ok a) => k a s
    | Settled (Err e) => (Settled (Err e), s)
    | Pending resume effect =>
        (pending (fun s1 => then_task (resume s1) k (effect s1)), s)
    end.

Definition abind {S A B} (m : async S A) (k : A -> async S B) : async S B :=
  fun s => match m s with (t, s') => then_task t k s' end.

(** The [catch] block of a [try] around a task. *)
Fixpoint catch_task {S A} (t : task S A) (h : error -> async S A)
  : async S A :=
  fun s =>
    match t with
    | Settled (Ok a) => (Settled (Ok a), s)
    | Settled (Err e) => h e s
    | Pending resume effect =>
        (pending (fun s1 => catch_task (resume s1) h (effect s1)), s)
    end.

(** [try { m } catch (error) { h error }] in an [async] function. *)
Definition atry {S A} (m : async S A) (h : error -> async S A) : async S A :=
  fun s => match m s with (t, s') => catch_task t h s' end.

(** [await m]: the call [m] is started, and the caller goes on in a later
    turn, when the task of [m] has settled. *)
Definition await {S A} (m : async S A) : async S A :=
  fun s => match m s with (t, s') => (pending (fun s1 => (t, s1)), s') end.

(** An operation of an external library: it reads the state in a later
    turn and settles, with what [observe] made of that state, in a turn
    after that one. *)
Definition external {S A} (observe : S -> result A) : async S A :=
  fun s =>
    (pending (fun s1 =>
       (pending (fun s2 => (Settled (observe s1), s2)), s1)), s).

(** A task resumed until it settles, with nothing else in between. *)
Fixpoint settle {S A} (t : task S A) : M S A :=
  fun s =>
    match t with
    | Settled r => (r, s)
    | Pending resume effect => settle (resume s) (effect s)
    end.

(** An [async] function called and awaited with nothing else running. *)
Definition run_alone {S A} (m : async S A) : M S A :=
  fun s => match m s with (t, s') => settle t s' end.

Notation "'do!' x <- m ; k" := (abind m (fun x => k))
  (at level 10, x name, m at level 100, k at level 200).
Notation "m ;;! k" := (abind m (fun _ => k))
  (at level 100, k at level 200, right associativity).

(** ** The file system under the assets directory *)

Inductive entry :=
| File (content : string)
| Subdir.

Abbreviation directory := (gmap string entry).
Abbreviation store := (gmap string directory).

(** ** [path.extname] and [path.basename] on a single path component *)
Module Path.

(** The part of [s] from its last dot on, when it has one. *)
Fixpoint last_dot_suffix (s : string) : option string :=
  match s with
  | EmptyString => None
  | String c r =>
      match last_dot_suffix r with
      | Some e => Some e
      | None => if Ascii.eqb c "."%char then Some s else None
      end
  end.

(** [path.extname(item)]: empty when the only dot is the first character
    and for [..]. *)
Definition extname (item : string) : string :=
  match item with
  | EmptyString => EmptyString
  | String _ r =>
      match last_dot_suffix r with
      | Some e => if String.eqb item ".." then EmptyString else e
      | None => EmptyString
      end
  end.

Definition ends_with (s suffix : string) : bool :=
  String.eqb
    (String.substring (String.length s - String.length suffix)
       (String.length suffix) s)
    suffix
  && (String.length suffix <=? String.length s)%nat.

(** [path.basename(item, ext)] *)
Definition basename (item ext : string) : string :=
  if String.eqb ext EmptyString then item
  else if String.eqb ext item then EmptyString
  else if ends_with item ext
       then String.substring 0 (String.length item - String.length ext) item
       else item.

(** [s.slice(1)] *)
Definition slice1 (s : string) : string :=
  match s with
  | EmptyString => EmptyString
  | String _ r => r
  end.

End Path.

(** ** The asset store: class [BrandManager] *)
Module BrandManager.

(** An element of the array [getIconsForBrand] returns ([modified] is not
    modelled; [path] is relative to the assets directory). *)
Record icon := mkIcon {
  name : string;
  filename : string;
  path : string;
  format : string;
  size : nat
}.

(** An element of the array [getAllBrands] returns. *)
Record brand := mkBrand {
  brand_name : string;
  brand_path : string;
  iconCount : nat
}.

(** What [addIconToBrand] returns. *)
Record added_icon := mkAdded {
  added_brand : string;
  added_name : string;
  added_filename : string;
  added_path : string;
  added_format : string
}.

(** What [removeIconFromBrand] returns. *)
Record removed_icon := mkRemoved {
  removed_brand : string;
  removed_name : string;
  removed_path : string;
  removed_format : string
}.

Definition supportedFormats : list string := [".svg"; ".png"; ".jpg"; ".jpeg"].

(** [path.join(dir, file)], relative to the assets directory. *)
Definition join (dir file : string) : string := dir +:+ "/" +:+ file.

Definition sanitizeBrandName (name : string) : result string :=
  if String.eqb name EmptyString
  then Err (BrandManagerError "INVALID_BRAND_NAME")
  else Ok (normalize name).

Definition sanitizeIconName (name : string) : result string :=
  if String.eqb name EmptyString
  then Err (BrandManagerError "INVALID_ICON_NAME")
  else Ok (normalize name).

(** [getBrandDirectory]: the directory is named by its path relative to
    the assets directory, so the empty string names the assets directory
    itself. *)
Definition getBrandDirectory (brandName : string) : result string :=
  let? sanitizedBrand := sanitizeBrandName brandName in
  Ok sanitizedBrand.

(** [fs.existsSync(brandDir)] *)
Definition existsDir (brandDir : string) (fs : store) : bool :=
  String.eqb brandDir EmptyString || bool_decide (is_Some (fs !! brandDir)).

(** [fs.existsSync(path.join(brandDir, file))] *)
Definition existsIn (brandDir file : string) (fs : store) : bool :=
  match fs !! brandDir with
  | Some d => bool_decide (is_Some (d !! file))
  | None => false
  end.

(** [fs.writeFileSync(path.join(brandDir, file), content)] *)
Definition writeFileSync (brandDir file content : string) : M store unit :=
  fun fs =>
    match fs !! brandDir with
    | Some d =>
        match d !! file with
        | Some Subdir => (Err (SystemError "EISDIR"), fs)
        | _ => (Ok tt, <[brandDir := <[file := File content]> d]> fs)
        end
    | None => (Err (SystemError "ENOENT"), fs)
    end.

(** [fs.unlinkSync(path.join(brandDir, file))] *)
Definition unlinkSync (brandDir file : string) : M store unit :=
  fun fs =>
    match fs !! brandDir with
    | Some d =>
        match d !! file with
        | Some (File _) => (Ok tt, <[brandDir := delete file d]> fs)
        | Some Subdir => (Err (SystemError "EISDIR"), fs)
        | None => (Err (SystemError "ENOENT"), fs)
        end
    | None => (Err (SystemError "ENOENT"), fs)
    end.

(** [fs.mkdirSync(brandDir, { recursive: true })] *)
Definition mkdirSync (brandDir : string) : M store unit :=
  fun fs =>
    match fs !! brandDir with
    | Some _ => (Ok tt, fs)
    | None => (Ok tt, <[brandDir := ∅]> fs)
    end.

(** The body of the loop of [getIconsForBrand] for one directory item. *)
Definition icon_of_item (brandDir : string) (item : string * entry)
  : option icon :=
  match item.2 with
  | File content =>
      let ext := toLowerCase (Path.extname item.1) in
      if bool_decide (ext ∈ supportedFormats) then
        Some {| name := Path.basename item.1 ext;
                filename := item.1;
                path := join brandDir item.1;
                format := Path.slice1 ext;
                size := String.length content |}
      else None
  | Subdir => None
  end.

(** [a.name.localeCompare(b.name) <= 0] *)
Definition name_leb (a b : icon) : bool := String.leb (name a) (name b).

Fixpoint insert_sorted (x : icon) (l : list icon) : list icon :=
  match l with
  | [] => [x]
  | y :: l' => if name_leb x y then x :: l else y :: insert_sorted x l'
  end.

(** [icons.sort((a, b) => a.name.localeCompare(b.name))], a stable sort. *)
Definition sort_icons (icons : list icon) : list icon :=
  foldr insert_sorted [] icons.

(** [getIconsForBrand]; reading the directory does not fail in the model,
    so the [catch] block that wraps such failures as [READ_ICONS_ERROR] has
    no counterpart. *)
Definition getIconsForBrand (brandName : string) (fs : store)
  : result (list icon) :=
  let? sanitizedBrand := sanitizeBrandName brandName in
  let? brandDir := getBrandDirectory sanitizedBrand in
  match fs !! brandDir with
  | None => Err (BrandManagerError "BRAND_NOT_FOUND")
  | Some d => Ok (sort_icons (omap (icon_of_item brandDir) (map_to_list d)))
  end.

Definition getIconCount (brandName : string) (fs : store) : nat :=
  match getIconsForBrand brandName fs with
  | Ok icons => length icons
  | Err _ => 0
  end.

Definition getAllBrands (fs : store) : list brand :=
  map (fun item : string * directory =>
         {| brand_name := item.1;
            brand_path := item.1;
            iconCount := getIconCount item.1 fs |})
      (map_to_list fs).

(** The contents of a brand directory, empty when it does not exist, and
    the store once the directory has been made. *)
Definition brand_dir (b : string) (fs : store) : directory :=
  default ∅ (fs !! b).

Definition with_brand (b : string) (fs : store) : store :=
  match fs !! b with
  | Some _ => fs
  | None => <[b := ∅]> fs
  end.

Definition createBrand (brandName : string) : M store string :=
  do sanitizedBrand <- lift (sanitizeBrandName brandName);
  do brandDir <- lift (getBrandDirectory sanitizedBrand);
  do fs <- get;
  if existsDir brandDir fs then throw (BrandManagerError "BRAND_EXISTS")
  else
    try_catch
      (mkdirSync brandDir ;;
       ret sanitizedBrand)
      (fun error => throw (BrandManagerErrorFrom "CREATE_BRAND_ERROR" error)).

Definition addIconToBrand (brandName iconName content format : string)
  : M store added_icon :=
  do sanitizedBrand <- lift (sanitizeBrandName brandName);
  do sanitizedIcon <- lift (sanitizeIconName iconName);
  do brandDir <- lift (getBrandDirectory sanitizedBrand);
  do fs <- get;
  (if existsDir brandDir fs then ret tt
   else createBrand sanitizedBrand ;; ret tt) ;;
  let filename := sanitizedIcon +:+ "." +:+ format in
  do fs' <- get;
  if existsIn brandDir filename fs'
  then throw (BrandManagerError "ICON_EXISTS")
  else
    try_catch
      ((if String.eqb format "svg" && negb (includes content "<svg")
        then throw (BrandManagerError "INVALID_SVG_CONTENT")
        else ret tt) ;;
       writeFileSync brandDir filename content ;;
       ret {| added_brand := sanitizedBrand;
              added_name := sanitizedIcon;
              added_filename := filename;
              added_path := join brandDir filename;
              added_format := format |})
      (fun error => throw (BrandManagerErrorFrom "ADD_ICON_ERROR" error)).

(** The search loop of [removeIconFromBrand]: the first extension of
    [exts] under which the icon exists. *)
Fixpoint find_format (brandDir sanitizedIcon : string) (exts : list string)
    (fs : store) : option string :=
  match exts with
  | [] => None
  | ext :: exts' =>
      if existsIn brandDir (sanitizedIcon +:+ ext) fs then Some ext
      else find_format brandDir sanitizedIcon exts' fs
  end.

Definition removeIconFromBrand (brandName iconName : string)
  : M store removed_icon :=
  do sanitizedBrand <- lift (sanitizeBrandName brandName);
  do sanitizedIcon <- lift (sanitizeIconName iconName);
  do brandDir <- lift (getBrandDirectory sanitizedBrand);
  do fs <- get;
  if negb (existsDir brandDir fs)
  then throw (BrandManagerError "BRAND_NOT_FOUND")
  else
    match find_format brandDir sanitizedIcon supportedFormats fs with
    | None => throw (BrandManagerError "ICON_NOT_FOUND")
    | Some ext =>
        try_catch
          (unlinkSync brandDir (sanitizedIcon +:+ ext) ;;
           ret {| removed_brand := sanitizedBrand;
                  removed_name := sanitizedIcon;
                  removed_path := join brandDir (sanitizedIcon +:+ ext);
                  removed_format := Path.slice1 ext |})
          (fun error => throw (BrandManagerErrorFrom "REMOVE_ICON_ERROR" error))
    end.

(** What [removeBrand] returns. *)
Record brand_removal := mkBrandRemoval {
  gone_name : string;
  gone_path : string;
  gone_iconCount : nat
}.

(** [fs.rmSync(brandDir, { recursive: true })] *)
Definition rmSync (brandDir : string) : M store unit :=
  fun fs =>
    match fs !! brandDir with
    | Some _ => (Ok tt, delete brandDir fs)
    | None => (Err (SystemError "ENOENT"), fs)
    end.

Definition removeBrand (brandName : string) : M store brand_removal :=
  do sanitizedBrand <- lift (sanitizeBrandName brandName);
  do brandDir <- lift (getBrandDirectory sanitizedBrand);
  do fs <- get;
  if negb (existsDir brandDir fs)
  then throw (BrandManagerError "BRAND_NOT_FOUND")
  else
    try_catch
      (do icons <- lift (getIconsForBrand sanitizedBrand fs);
       rmSync brandDir ;;
       ret {| gone_name := sanitizedBrand; gone_path := brandDir;
              gone_iconCount := length icons |})
      (fun error => throw (BrandManagerErrorFrom "REMOVE_BRAND_ERROR" error)).

(** The loop of [getAllBrandIcons] and of [generateBrandSummary]: the
    listing of every brand [getAllBrands] returns, keyed by its name. *)
Fixpoint list_brands (brands : list brand) (fs : store)
    (listed : jsobj (list icon)) : result (jsobj (list icon)) :=
  match brands with
  | [] => Ok listed
  | b :: brands' =>
      let? icons := getIconsForBrand (brand_name b) fs in
      list_brands brands' fs (obj_set listed (brand_name b) icons)
  end.

Definition getAllBrandIcons (fs : store) : result (jsobj (list icon)) :=
  match list_brands (getAllBrands fs) fs [] with
  | Ok listed => Ok listed
  | Err error => Err (BrandManagerErrorFrom "GET_ALL_ICONS_ERROR" error)
  end.

(** What [generateBrandSummary] returns; an icon of [brands[name].icons]
    is its name, format and size. *)
Record brand_summary := mkSummary {
  summary_totalBrands : nat;
  summary_totalIcons : nat;
  summary_brands : jsobj (nat * list (string * string * nat))
}.

Fixpoint summarize (brands : list brand) (fs : store) (summary : brand_summary)
  : result brand_summary :=
  match brands with
  | [] => Ok summary
  | b :: brands' =>
      let? icons := getIconsForBrand (brand_name b) fs in
      summarize brands' fs
        {| summary_totalBrands := summary_totalBrands summary;
           summary_totalIcons := summary_totalIcons summary + length icons;
           summary_brands :=
             obj_set (summary_brands summary) (brand_name b)
               (length icons,
                map (fun i => (name i, format i, size i)) icons) |}
  end.

Definition generateBrandSummary (fs : store) : result brand_summary :=
  let brands := getAllBrands fs in
  match summarize brands fs
          {| summary_totalBrands := length brands; summary_totalIcons := 0;
             summary_brands := [] |} with
  | Ok summary => Ok summary
  | Err error => Err (BrandManagerErrorFrom "GENERATE_SUMMARY_ERROR" error)
  end.

(** The number of icons a directory lists. *)
Definition listed (b : string) (dir : directory) : nat :=
  length (omap (icon_of_item b) (map_to_list dir)).

End BrandManager.

(** ** The remote adapter: class [FigmaApiService] *)
Module FigmaApiService.

(** The adapter's own sanitizers have no guard on the argument. *)
Definition sanitizeBrandName (name : string) : string := normalize name.

Definition sanitizeIconName (name : string) : string := normalize name.

(** What becomes of an HTTP request: a response, with its status and
    body, or none, with the code of the failure. *)
Inductive exchange :=
| Responded (status : nat) (data : string)
| NoResponse (code : string).

(** [`${status}`] *)
Definition decimal (n : nat) : string :=
  NilZero.string_of_uint (Nat.to_uint n).

(** [axios.get(url)], as [downloadSvg] calls it, with the default
    [validateStatus]: a status outside 2xx is thrown as the client's own
    error, whose code is [ERR_BAD_REQUEST] for 4xx and [ERR_BAD_RESPONSE]
    for 5xx. *)
Definition axios_get (x : exchange) : result string :=
  match x with
  | Responded status data =>
      if (200 <=? status)%nat && (status <? 300)%nat then Ok data
      else
        Err (AxiosError
               (if (status / 100 =? 4)%nat then Some "ERR_BAD_REQUEST"
                else if (status / 100 =? 5)%nat then Some "ERR_BAD_RESPONSE"
                else None)
               (Some status))
  | NoResponse code => Err (AxiosError (Some code) None)
  end.

(** [this.client.get(path)]: the response interceptor of [setupInterceptors]
    replaces the client's error by a [FigmaApiError], whose code is
    [HTTP_] and the status when there was a response. *)
Definition client_get (x : exchange) : result string :=
  match axios_get x with
  | Ok data => Ok data
  | Err (AxiosError _ (Some status)) =>
      Err (FigmaApiError ("HTTP_" +:+ decimal status))
  | Err _ => Err (FigmaApiError "NETWORK_ERROR")
  end.

(** [error.code === 'HTTP_401' || error.code === 'HTTP_403'] *)
Definition is_auth_error (e : error) : bool :=
  has_code e "HTTP_401" || has_code e "HTTP_403".

(** What a run of [retryRequest] did: what it returned or threw ([Ok None]
    is [undefined], returned when the loop body never runs), how many times
    it invoked [requestFn], and the arguments of its calls of [sleep], in
    order. *)
Record retry_run (A : Type) := mkRun {
  outcome : result (option A);
  calls : nat;
  sleeps : list Z
}.
Arguments mkRun {A} outcome calls sleeps.
Arguments outcome {A} r.
Arguments calls {A} r.
Arguments sleeps {A} r.

(** [this.retryDelay * Math.pow(2, i)] *)
Definition backoff (retryDelay : Z) (i : nat) : Z :=
  (retryDelay * 2 ^ Z.of_nat i)%Z.

(** The loop [for (let i = 0; i < attempts; i++)] of [retryRequest], entered
    at index [i] with [fuel = attempts - i] iterations left.  [requestFn k]
    is what the [k]-th invocation (counted from 0) of the request function
    produces. *)
Fixpoint retry_loop {A} (requestFn : nat -> result A) (retryDelay : Z)
    (attempts fuel i : nat) (slept : list Z) : retry_run A :=
  match fuel with
  | O => mkRun (Ok None) i slept
  | S fuel' =>
      match requestFn i with
      | Ok v => mkRun (Ok (Some v)) (S i) slept
      | Err error =>
          if (i =? attempts - 1)%nat then mkRun (Err error) (S i) slept
          else if is_auth_error error then mkRun (Err error) (S i) slept
          else retry_loop requestFn retryDelay attempts fuel' (S i)
                 (slept ++ [backoff retryDelay i])
      end
  end.

Definition retryRequest {A} (requestFn : nat -> result A) (retryDelay : Z)
    (attempts : nat) : retry_run A :=
  retry_loop requestFn retryDelay attempts attempts 0 [].

(** The delays slept before the attempt of index [k]. *)
Definition backoffs (retryDelay : Z) (k : nat) : list Z :=
  map (backoff retryDelay) (seq 0 k).

(** The attempts below [k] all failed with an error that is not an
    authentication error. *)
Definition retried_until {A} (requestFn : nat -> result A) (k : nat) : Prop :=
  forall j, j < k ->
    exists e, requestFn j = Err e /\ is_auth_error e = false.

End FigmaApiService.

(** ** The token registry: class [TokenManager] *)
Module TokenManager.

(** A token entry.  A property that is absent from the JSON document reads
    as [undefined], which the code below only tests for truthiness; the
    empty string stands for it. *)
Record token := mkToken {
  value : string;
  type : string;
  description : string;
  brand : string;
  name : string;
  originalName : string
}.

(** The object under the [icon] property of the tokens document. *)
Definition registry := jsobj token.

Definition createTokenKey (brand iconName : string) : result string :=
  if String.eqb brand EmptyString || String.eqb iconName EmptyString
  then Err (TokenManagerError "INVALID_TOKEN_PARAMS")
  else Ok (brand +:+ "-" +:+ iconName).

Definition createTokenValue (brand iconName extension : string) : string :=
  brand +:+ "/" +:+ iconName +:+ "." +:+ extension.

(** The messages [validateTokenStructure] collects. *)
Inductive validation_error :=
| MissingValue (key : string)
| MissingType (key : string)
| MissingBrand (key : string)
| MissingName (key : string)
| KeyMismatch (key expectedKey : string).

Definition is_key_mismatch (e : validation_error) : bool :=
  match e with
  | KeyMismatch _ _ => true
  | _ => false
  end.

Definition push_if {A} (cond : bool) (x : A) (l : list A) : list A :=
  if cond then l ++ [x] else l.

(** The callback of [Object.entries(tokens.icon).forEach] for one entry. *)
Definition validate_entry (key : string) (t : token)
    (errors : list validation_error) : result (list validation_error) :=
  let errors := push_if (String.eqb (value t) EmptyString) (MissingValue key) errors in
  let errors := push_if (String.eqb (type t) EmptyString) (MissingType key) errors in
  let errors := push_if (String.eqb (brand t) EmptyString) (MissingBrand key) errors in
  let errors := push_if (String.eqb (name t) EmptyString) (MissingName key) errors in
  let? expectedKey := createTokenKey (brand t) (name t) in
  Ok (push_if (negb (String.eqb key expectedKey))
        (KeyMismatch key expectedKey) errors).

Fixpoint validate_entries (entries : registry)
    (errors : list validation_error) : result (list validation_error) :=
  match entries with
  | [] => Ok errors
  | (key, t) :: entries' =>
      let? errors' := validate_entry key t errors in
      validate_entries entries' errors'
  end.

(** [validateTokenStructure(tokens)] for a document whose [icon] property
    is the object [icon]. *)
Definition validateTokenStructure (icon : registry)
  : result (list validation_error) :=
  validate_entries icon [].

(** The key of an entry is the canonical key of its own fields. *)
Definition consistent (entry : string * token) : Prop :=
  entry.1 = brand entry.2 +:+ "-" +:+ name entry.2.

(** An entry [validateTokenStructure] has nothing to say about. *)
Definition well_named (entry : string * token) : Prop :=
  consistent entry /\ value entry.2 <> EmptyString /\ type entry.2 <> EmptyString
  /\ brand entry.2 <> EmptyString /\ name entry.2 <> EmptyString.

Definition no_key_mismatch (errors : list validation_error) : bool :=
  forallb (fun e => negb (is_key_mismatch e)) errors.

(** *** The tokens file and its operations

    The state is the content of [tokens/icons.json]: the object under its
    [icon] property, or [None] while the file does not exist.  Writing the
    file does not fail in the model; the optional [lastModified], [size]
    and [format] properties that [syncWithFileSystem] adds to a token are
    not part of [token]. *)

(** [loadTokens().icon], an empty object when the file is missing. *)
Definition loadTokens (file : option registry) : registry := default [] file.

(** [saveTokens({ icon })] *)
Definition saveTokens (icon : registry) : M (option registry) unit :=
  fun _ => (Ok tt, Some icon).

(** [delete o[k]] *)
Fixpoint obj_delete {A} (o : jsobj A) (k : string) : jsobj A :=
  match o with
  | [] => []
  | (k', v) :: o' =>
      if String.eqb k' k then o' else (k', v) :: obj_delete o' k
  end.

(** [a || b] on strings that may be absent. *)
Definition or_else (a : option string) (b : string) : string :=
  match a with
  | Some s => if String.eqb s EmptyString then b else s
  | None => b
  end.

(** An object that gives some of the six properties of a token: the
    [updates] of [updateIconToken] and the [metadata] of [addIconToken]. *)
Record patch := mkPatch {
  patch_value : option string;
  patch_type : option string;
  patch_description : option string;
  patch_brand : option string;
  patch_name : option string;
  patch_originalName : option string
}.

Definition no_patch : patch := mkPatch None None None None None None.

(** [{ ...t, ...p }] *)
Definition spread (t : token) (p : patch) : token :=
  {| value := default (value t) (patch_value p);
     type := default (type t) (patch_type p);
     description := default (description t) (patch_description p);
     brand := default (brand t) (patch_brand p);
     name := default (name t) (patch_name p);
     originalName := default (originalName t) (patch_originalName p) |}.

(** The [options] of [addIconToken]. *)
Record add_options := mkAddOptions {
  opt_extension : option string;
  opt_description : option string;
  opt_originalName : option string;
  opt_metadata : patch
}.

Definition no_options : add_options := mkAddOptions None None None no_patch.

Definition addIconToken (brand iconName : string) (options : add_options)
  : M (option registry) (string * token) :=
  do file <- get;
  let tokens := loadTokens file in
  do tokenKey <- lift (createTokenKey brand iconName);
  if bool_decide (is_Some (obj_get tokens tokenKey))
  then throw (TokenManagerError "TOKEN_EXISTS")
  else
    let t :=
      spread
        {| value := createTokenValue brand iconName
                      (default "svg" (opt_extension options));
           type := "asset";
           description :=
             or_else (opt_description options)
               (iconName +:+ " icon for " +:+ brand);
           brand := brand;
           name := iconName;
           originalName := or_else (opt_originalName options) iconName |}
        (opt_metadata options) in
    saveTokens (obj_set tokens tokenKey t) ;;
    ret (tokenKey, t).

Definition updateIconToken (brand iconName : string) (updates : patch)
  : M (option registry) (string * token) :=
  do file <- get;
  let tokens := loadTokens file in
  do tokenKey <- lift (createTokenKey brand iconName);
  match obj_get tokens tokenKey with
  | None => throw (TokenManagerError "TOKEN_NOT_FOUND")
  | Some currentToken =>
      let merged := spread currentToken updates in
      let t :=
        {| value := value merged; type := "asset";
           description := description merged; brand := brand;
           name := iconName; originalName := originalName merged |} in
      saveTokens (obj_set tokens tokenKey t) ;;
      ret (tokenKey, t)
  end.

Definition removeIconToken (brand iconName : string)
  : M (option registry) (string * token) :=
  do file <- get;
  let tokens := loadTokens file in
  do tokenKey <- lift (createTokenKey brand iconName);
  match obj_get tokens tokenKey with
  | None => throw (TokenManagerError "TOKEN_NOT_FOUND")
  | Some removedToken =>
      saveTokens (obj_delete tokens tokenKey) ;;
      ret (tokenKey, removedToken)
  end.

(** [getIconToken]: [None] is [null]. *)
Definition getIconToken (brand iconName : string) (file : option registry)
  : result (option token) :=
  let? tokenKey := createTokenKey brand iconName in
  Ok (obj_get (loadTokens file) tokenKey).






End TokenManager.

(** ** The synchronizer: class [FigmaIconSync] *)
Module FigmaIconSync.

(** An element of the arrays [getIconsByBrand] returns ([componentId] is
    never read by the synchronizer). *)
Record remote_icon := mkRemote {
  id : string;
  name : string;
  description : string;
  originalName : string
}.

(** The three methods of the remote adapter the synchronizer calls.
    [exportNodes] returns the [images] object of the response, from node
    identifier to download URL.  [downloadSvg] is handed what
    [images[icon.id]] evaluates to: the URL, or a built-in value when the
    identifier is the name of a property of [Object.prototype]. *)
Record figma_api := mkApi {
  getIconsByBrand : string -> result (jsobj (list remote_icon));
  exportNodes : string -> list string -> string -> result (jsobj string);
  downloadSvg : property string -> string -> result string
}.

(** The constructor's options that the run reads. *)
Record options := mkOptions {
  figmaFileKey : string;
  dryRun : bool
}.

(** The value stored for an icon in [currentState[brand]]. *)
Record current_icon := mkCurrent {
  cur_filename : string;
  cur_path : string;
  cur_size : nat
}.

(** An element of [results[brand].added], [.updated] or [.removed]; the
    absent properties of the dry-run and removal entries are [None]. *)
Record change := mkChange {
  change_name : string;
  change_originalName : option string;
  change_path : option string;
  action : string
}.

(** An element of [results[brand].errors]; the message is represented by
    the error it is taken from. *)
Inductive failure :=
| NoExportUrl (icon : string)
| IconFailed (icon : string) (cause : error)
| ExportFailed (brand : string) (cause : error)
| RemoveFailed (icon : string) (cause : error)
| BrandFailed (brand : string) (cause : error).

Record brand_results := mkResults {
  added : list change;
  updated : list change;
  removed : list change;
  errors : list failure;
  skipped : list change
}.

Definition empty_results : brand_results :=
  {| added := []; updated := []; removed := []; errors := []; skipped := [] |}.

(** An element of [syncStats.errors]. *)
Record stat_error := mkStatError {
  stat_type : string;
  stat_brand : option string;
  stat_icon : option string;
  stat_cause : error
}.

Record sync_stats := mkStats {
  totalBrands : nat;
  totalIcons : nat;
  stat_added : nat;
  stat_updated : nat;
  stat_removed : nat;
  stat_errors : list stat_error
}.

Definition initial_stats : sync_stats :=
  {| totalBrands := 0; totalIcons := 0; stat_added := 0; stat_updated := 0;
     stat_removed := 0; stat_errors := [] |}.

(** Everything a run can change: the assets directory, the file
    [tokens/icons.json] ([None] while it does not exist), [this.syncStats]
    and the [results] object of [downloadAndSyncIcons]. *)
Record state := mkState {
  fs : store;
  tokensFile : option TokenManager.registry;
  syncStats : sync_stats;
  results : jsobj brand_results
}.

Definition initial_state (assets : store)
    (tokens : option TokenManager.registry) : state :=
  {| fs := assets; tokensFile := tokens; syncStats := initial_stats;
     results := [] |}.

(** A computation that leaves the assets directory and the tokens file as
    they are, whatever it returns or throws. *)
Definition preserves {A} (m : M state A) : Prop :=
  forall s, fs (m s).2 = fs s /\ tokensFile (m s).2 = tokensFile s.

(** A call into [this.brandManager]. *)
Definition liftFS {A} (m : M store A) : M state A :=
  fun s =>
    match m (fs s) with
    | (r, fs') =>
        (r, {| fs := fs'; tokensFile := tokensFile s;
               syncStats := syncStats s; results := results s |})
    end.

Definition update_stats (f : sync_stats -> sync_stats) : M state unit :=
  modify (fun s =>
    {| fs := fs s; tokensFile := tokensFile s; syncStats := f (syncStats s);
       results := results s |}).

(** A mutation of the object [results[brandName]]. *)
Definition update_results (brandName : string)
    (f : brand_results -> brand_results) : M state unit :=
  modify (fun s =>
    {| fs := fs s; tokensFile := tokensFile s; syncStats := syncStats s;
       results :=
         obj_set (results s) brandName
           (f (default empty_results (obj_get (results s) brandName))) |}).

Definition push_added (c : change) (r : brand_results) : brand_results :=
  {| added := added r ++ [c]; updated := updated r; removed := removed r;
     errors := errors r; skipped := skipped r |}.

Definition push_updated (c : change) (r : brand_results) : brand_results :=
  {| added := added r; updated := updated r ++ [c]; removed := removed r;
     errors := errors r; skipped := skipped r |}.

Definition push_removed (c : change) (r : brand_results) : brand_results :=
  {| added := added r; updated := updated r; removed := removed r ++ [c];
     errors := errors r; skipped := skipped r |}.

Definition push_failure (f : failure) (r : brand_results) : brand_results :=
  {| added := added r; updated := updated r; removed := removed r;
     errors := errors r ++ [f]; skipped := skipped r |}.

Definition count_added (st : sync_stats) : sync_stats :=
  {| totalBrands := totalBrands st; totalIcons := totalIcons st;
     stat_added := S (stat_added st); stat_updated := stat_updated st;
     stat_removed := stat_removed st; stat_errors := stat_errors st |}.

Definition count_updated (st : sync_stats) : sync_stats :=
  {| totalBrands := totalBrands st; totalIcons := totalIcons st;
     stat_added := stat_added st; stat_updated := S (stat_updated st);
     stat_removed := stat_removed st; stat_errors := stat_errors st |}.

Definition count_removed (st : sync_stats) : sync_stats :=
  {| totalBrands := totalBrands st; totalIcons := totalIcons st;
     stat_added := stat_added st; stat_updated := stat_updated st;
     stat_removed := S (stat_removed st); stat_errors := stat_errors st |}.

Definition push_stat_error (e : stat_error) (st : sync_stats) : sync_stats :=
  {| totalBrands := totalBrands st; totalIcons := totalIcons st;
     stat_added := stat_added st; stat_updated := stat_updated st;
     stat_removed := stat_removed st; stat_errors := stat_errors st ++ [e] |}.

Definition set_totals (brands icons : nat) (st : sync_stats) : sync_stats :=
  {| totalBrands := brands; totalIcons := icons;
     stat_added := stat_added st; stat_updated := stat_updated st;
     stat_removed := stat_removed st; stat_errors := stat_errors st |}.

(** [for (const x of xs) { body x }] *)
Fixpoint for_each {S A} (xs : list A) (body : A -> M S unit) : M S unit :=
  match xs with
  | [] => ret tt
  | x :: xs' => body x ;; for_each xs' body
  end.

(** The reducer of [buildCurrentState]. *)
Definition current_of_icons (icons : list BrandManager.icon)
  : jsobj current_icon :=
  foldl (fun acc icon =>
           obj_set acc (BrandManager.name icon)
             {| cur_filename := BrandManager.filename icon;
                cur_path := BrandManager.path icon;
                cur_size := BrandManager.size icon |})
        [] icons.

Definition buildCurrentState (brands : list BrandManager.brand)
    (assets : store) : jsobj (jsobj current_icon) :=
  foldl (fun state brand =>
           match BrandManager.getIconsForBrand
                   (BrandManager.brand_name brand) assets with
           | Ok icons =>
               obj_set state (BrandManager.brand_name brand)
                 (current_of_icons icons)
           | Err _ => obj_set state (BrandManager.brand_name brand) []
           end)
        [] brands.

(** [!exportUrl]: true for [undefined] and for the empty string. *)
Definition no_url (exportUrl : property string) : bool :=
  match exportUrl with
  | Own url => String.eqb url EmptyString
  | Inherited _ => false
  | Undefined => true
  end.

(** What [currentState[brandName] || {}] evaluates to: the icons of the
    local brand, an empty object, or, for a brand that has no local
    directory and the name of a property of [Object.prototype], the
    built-in value of that property. *)
Inductive icons_object :=
| PlainIcons (own : jsobj current_icon)
| BuiltinValue (property : string).

Definition current_icons (currentState : jsobj (jsobj current_icon))
    (brandName : string) : icons_object :=
  match js_get currentState brandName with
  | Own icons => PlainIcons icons
  | Inherited p => BuiltinValue p
  | Undefined => PlainIcons []
  end.

(** [Object.keys(currentIcons)]; a built-in value has no enumerable
    property of its own. *)
Definition icon_names (currentIcons : icons_object) : list string :=
  match currentIcons with
  | PlainIcons own => obj_keys own
  | BuiltinValue _ => []
  end.

Section Run.

Variable opts : options.
Variable figmaApi : figma_api.

(** The properties of the built-in values, which belong to the engine:
    [builtins p k] is what [!!v[k]] evaluates to for the value [v] of
    [Object.prototype[p]], and [None] when the access throws, which it
    does with a [TypeError] for the restricted properties of functions. *)
Variable builtins : string -> string -> option bool.

(** [!!currentIcons[iconName]] *)
Definition has_icon (currentIcons : icons_object) (iconName : string)
  : result bool :=
  match currentIcons with
  | PlainIcons own =>
      Ok match js_get own iconName with
         | Own _ | Inherited _ => true
         | Undefined => false
         end
  | BuiltinValue p =>
      match builtins p iconName with
      | Some found => Ok found
      | None => Err (TypeError "restricted function property")
      end
  end.

Definition processIcon (brandName : string) (icon : remote_icon)
    (exportUrl : property string) (currentIcons : icons_object)
  : M state unit :=
  if no_url exportUrl
  then update_results brandName (push_failure (NoExportUrl (name icon)))
  else
      try_catch
        (do svgContent <- lift (downloadSvg figmaApi exportUrl (name icon));
         do isUpdate <- lift (has_icon currentIcons (name icon));
         if dryRun opts then
           if isUpdate then
             update_results brandName
               (push_updated
                  {| change_name := name icon;
                     change_originalName := Some (originalName icon);
                     change_path := None; action := "would-update" |})
           else
             update_results brandName
               (push_added
                  {| change_name := name icon;
                     change_originalName := Some (originalName icon);
                     change_path := None; action := "would-add" |})
         else
           do result <- liftFS (BrandManager.addIconToBrand brandName
                                  (name icon) svgContent "svg");
           if isUpdate then
             update_results brandName
               (push_updated
                  {| change_name := name icon;
                     change_originalName := Some (originalName icon);
                     change_path := Some (BrandManager.added_path result);
                     action := "updated" |}) ;;
             update_stats count_updated
           else
             update_results brandName
               (push_added
                  {| change_name := name icon;
                     change_originalName := Some (originalName icon);
                     change_path := Some (BrandManager.added_path result);
                     action := "added" |}) ;;
             update_stats count_added)
        (fun error =>
           if has_code error "ICON_EXISTS" then
             try_catch
               (liftFS (BrandManager.removeIconFromBrand brandName (name icon)) ;;
                (* [svgContent] is declared with [const] inside the [try]
                   block above and is not in scope in this [catch] block:
                   evaluating the argument throws. *)
                do svgContent <- throw (ReferenceError "svgContent");
                do result <- liftFS (BrandManager.addIconToBrand brandName
                                       (name icon) svgContent "svg");
                update_results brandName
                  (push_updated
                     {| change_name := name icon;
                        change_originalName := Some (originalName icon);
                        change_path := Some (BrandManager.added_path result);
                        action := "updated" |}) ;;
                update_stats count_updated)
               (fun updateError => throw updateError)
           else throw error).

Definition handleRemovedIcons (brandName : string)
    (figmaIcons : list remote_icon) (currentIcons : icons_object)
  : M state unit :=
  let figmaIconNames := map name figmaIcons in
  let currentIconNames := icon_names currentIcons in
  for_each currentIconNames (fun currentIconName =>
    if negb (bool_decide (currentIconName ∈ figmaIconNames)) then
      if dryRun opts then
        update_results brandName
          (push_removed
             {| change_name := currentIconName; change_originalName := None;
                change_path := None; action := "would-remove" |})
      else
        try_catch
          (do result <- liftFS (BrandManager.removeIconFromBrand brandName
                                  currentIconName);
           update_results brandName
             (push_removed
                {| change_name := currentIconName;
                   change_originalName := None;
                   change_path := Some (BrandManager.removed_path result);
                   action := "removed" |}) ;;
           update_stats count_removed)
          (fun error =>
             update_results brandName
               (push_failure (RemoveFailed currentIconName error)))
    else ret tt).

(** The body of the loop of [downloadAndSyncIcons] for one brand. *)
Definition syncBrand (currentState : jsobj (jsobj current_icon))
    (entry : string * list remote_icon) : M state unit :=
  let brandName := entry.1 in
  let icons := entry.2 in
  let currentIcons := current_icons currentState brandName in
  update_results brandName (fun _ => empty_results) ;;
  try_catch
    ((if negb (dryRun opts) then
        try_catch
          (liftFS (BrandManager.createBrand brandName) ;; ret tt)
          (fun error =>
             if negb (has_code error "BRAND_EXISTS") then throw error
             else ret tt)
      else ret tt) ;;
     (if (0 <? length icons)%nat then
        let nodeIds := map id icons in
        try_catch
          (do images <- lift (exportNodes figmaApi (figmaFileKey opts)
                                nodeIds "svg");
           for_each icons (fun icon =>
             try_catch
               (processIcon brandName icon (js_get images (id icon))
                  currentIcons)
               (fun error =>
                  update_results brandName
                    (push_failure (IconFailed (name icon) error)) ;;
                  update_stats
                    (push_stat_error
                       {| stat_type := "ICON_PROCESS_ERROR";
                          stat_brand := Some brandName;
                          stat_icon := Some (name icon);
                          stat_cause := error |}))))
          (fun error =>
             update_results brandName
               (push_failure (ExportFailed brandName error)) ;;
             update_stats
               (push_stat_error
                  {| stat_type := "EXPORT_ERROR";
                     stat_brand := Some brandName; stat_icon := None;
                     stat_cause := error |}))
      else ret tt) ;;
     handleRemovedIcons brandName icons currentIcons)
    (fun error =>
       update_results brandName (push_failure (BrandFailed brandName error)) ;;
       update_stats
         (push_stat_error
            {| stat_type := "BRAND_PROCESS_ERROR";
               stat_brand := Some brandName; stat_icon := None;
               stat_cause := error |})).

Definition downloadAndSyncIcons (figmaIcons : jsobj (list remote_icon))
    (currentState : jsobj (jsobj current_icon)) : M state unit :=
  for_each figmaIcons (syncBrand currentState).

(** The token [updateTokensFile] stores for one remote icon. *)
Definition token_of (brandName : string) (icon : remote_icon)
  : TokenManager.token :=
  {| TokenManager.value := brandName +:+ "/" +:+ name icon +:+ ".svg";
     TokenManager.type := "asset";
     TokenManager.description :=
       if String.eqb (description icon) EmptyString
       then originalName icon +:+ " icon"
       else description icon;
     TokenManager.brand := brandName;
     TokenManager.name := name icon;
     TokenManager.originalName := originalName icon |}.

(** The two nested loops of [updateTokensFile]. *)
Definition build_tokens (figmaIcons : jsobj (list remote_icon))
  : TokenManager.registry :=
  foldl (fun tokens (entry : string * list remote_icon) =>
           foldl (fun tokens icon =>
                    obj_set tokens (entry.1 +:+ "-" +:+ name icon)
                      (token_of entry.1 icon))
                 tokens entry.2)
        [] figmaIcons.

Definition write_tokens (tokens : TokenManager.registry) : M state unit :=
  modify (fun s =>
    {| fs := fs s; tokensFile := Some tokens; syncStats := syncStats s;
       results := results s |}).

Definition updateTokensFile (figmaIcons : jsobj (list remote_icon))
  : M state unit :=
  if dryRun opts then ret tt
  else
    try_catch
      (write_tokens (build_tokens figmaIcons))
      (fun error => throw (FigmaSyncErrorFrom "UPDATE_TOKENS_ERROR" error)).

(** [syncIcons]; on success the caller reads [results] and [syncStats]
    from the final state. *)
Definition syncIcons : M state unit :=
  try_catch
    (do s <- get;
     let currentBrands := BrandManager.getAllBrands (fs s) in
     let currentState := buildCurrentState currentBrands (fs s) in
     do figmaIcons <- lift (getIconsByBrand figmaApi (figmaFileKey opts));
     update_stats
       (set_totals (length figmaIcons)
          (foldl (fun sum (entry : string * list remote_icon) =>
                    sum + length entry.2) 0 figmaIcons)) ;;
     downloadAndSyncIcons figmaIcons currentState ;;
     updateTokensFile figmaIcons)
    (fun error =>
       update_stats
         (push_stat_error
            {| stat_type := "SYNC_ERROR"; stat_brand := None;
               stat_icon := None; stat_cause := error |}) ;;
       throw (FigmaSyncErrorFrom "SYNC_FAILED" error)).

End Run.

(** *** Notions used to state what a run does *)

(** A computation that returns, whatever the state it starts from. *)
Definition returns {A} (m : M state A) : Prop :=
  forall s, exists a, (m s).1 = Ok a.

(** The state with another [results[brandName]]. *)
Definition set_results (s : state) (brandName : string) (r : brand_results)
  : state :=
  {| fs := fs s; tokensFile := tokensFile s; syncStats := syncStats s;
     results := obj_set (results s) brandName r |}.

Definition set_fs (s : state) (assets : store) : state :=
  {| fs := assets; tokensFile := tokensFile s; syncStats := syncStats s;
     results := results s |}.

(** The entries of a preview. *)
Definition would_add (icon : remote_icon) : change :=
  {| change_name := name icon; change_originalName := Some (originalName icon);
     change_path := None; action := "would-add" |}.

Definition would_update (icon : remote_icon) : change :=
  {| change_name := name icon; change_originalName := Some (originalName icon);
     change_path := None; action := "would-update" |}.

Definition would_remove (iconName : string) : change :=
  {| change_name := iconName; change_originalName := None;
     change_path := None; action := "would-remove" |}.

(** The plain object [currentIcons] has a property of the name of the
    icon: one of its own, for a local icon of that name, or one of those
    every object has. *)
Definition is_local (currentIcons : jsobj current_icon) (icon : remote_icon)
  : bool :=
  bool_decide
    (is_Some (obj_get currentIcons (name icon))
     \/ name icon
        ∈ [ "constructor"; "hasOwnProperty"; "isPrototypeOf";
            "propertyIsEnumerable"; "toLocaleString"; "toString"; "valueOf";
            "__defineGetter__"; "__defineSetter__"; "__lookupGetter__";
            "__lookupSetter__"; "__proto__" ]).

Definition is_remote (icons : list remote_icon) (iconName : string) : bool :=
  bool_decide (iconName ∈ map name icons).

(** A computation that writes neither the tokens file nor the total of
    brands. *)
Definition keeps_tokens_and_totals {A} (m : M state A) : Prop :=
  forall s, tokensFile (m s).2 = tokensFile s
            /\ totalBrands (syncStats (m s).2) = totalBrands (syncStats s).

(** The classification, built the way the loops build it. *)
Definition classify_icon (currentIcons : jsobj current_icon)
    (r : brand_results) (icon : remote_icon) : brand_results :=
  if is_local currentIcons icon then push_updated (would_update icon) r
  else push_added (would_add icon) r.

Definition classify_local (icons : list remote_icon) (r : brand_results)
    (iconName : string) : brand_results :=
  if negb (is_remote icons iconName) then push_removed (would_remove iconName) r
  else r.

End FigmaIconSync.

(** ** The remote adapter, continued: the methods of [FigmaApiService]
    the synchronizer calls

    An HTTP request is represented like the request function of
    [retryRequest]: by what its [k]-th attempt produces.  The
    [originalError] of the error [getIconsByBrand] wraps is not
    recorded. *)
Module FigmaAdapter.

(** [this.retryAttempts] and [this.retryDelay]. *)
Record settings := mkSettings {
  retryAttempts : nat;
  retryDelay : Z
}.

(** The class [[a-zA-Z0-9]]. *)
Definition is_key_char (c : ascii) : bool :=
  is_lower c || is_upper c || is_digit c.

(** [/^[a-zA-Z0-9]{22}$/.test(fileKey)] *)
Definition key_format (fileKey : string) : bool :=
  string_forallb is_key_char fileKey && (String.length fileKey =? 22)%nat.

Definition validateFileKey (fileKey : string) : result string :=
  if String.eqb fileKey EmptyString
  then Err (FigmaApiError "INVALID_FILE_KEY")
  else if negb (key_format fileKey)
  then Err (FigmaApiError "INVALID_FILE_KEY_FORMAT")
  else Ok fileKey.

(** A call that throws before it has made a request. *)
Definition refused {A} (e : error) : FigmaApiService.retry_run A :=
  FigmaApiService.mkRun (Err e) 0 [].

Definition validFormats : list string := ["svg"; "png"; "jpg"; "pdf"].

Section Service.

Variable cfg : settings.

(** [exportNodes(fileKey, nodeIds, format)]; [request k] is the response
    of the [k]-th [GET /images/:fileKey]. *)
Definition exportNodes {A} (request : nat -> result A)
    (fileKey : string) (nodeIds : list string) (format : string)
  : FigmaApiService.retry_run A :=
  match validateFileKey fileKey with
  | Err e => refused e
  | Ok _ =>
      if (length nodeIds =? 0)%nat
      then refused (FigmaApiError "INVALID_NODE_IDS")
      else if negb (bool_decide (format ∈ validFormats))
      then refused (FigmaApiError "INVALID_FORMAT")
      else FigmaApiService.retryRequest request (retryDelay cfg)
             (retryAttempts cfg)
  end.

(** The request function [downloadSvg] hands to [retryRequest]: the
    response is checked inside it. *)
Definition checked_download (fetch : nat -> result string) (k : nat)
  : result string :=
  let? data := fetch k in
  if negb (includes data "<svg")
  then Err (FigmaApiError "INVALID_SVG_CONTENT")
  else Ok data.

(** [downloadSvg(url, filename)]; [fetch k] is the body of the response to
    the [k]-th [axios.get(url)]. *)
Definition downloadSvg (fetch : nat -> result string) (url filename : string)
  : FigmaApiService.retry_run string :=
  if String.eqb url EmptyString || String.eqb filename EmptyString
  then refused (FigmaApiError "MISSING_DOWNLOAD_PARAMS")
  else FigmaApiService.retryRequest (checked_download fetch) (retryDelay cfg)
         (retryAttempts cfg).

End Service.

(** An element of [components.meta.components]. *)
Record component := mkComponent {
  node_id : string;
  component_name : string;
  component_description : string;
  component_key : string
}.

(** [isComponentOnPage], a placeholder in the source. *)
Definition isComponentOnPage (c : component) (pageName : string) : bool := true.

Definition icon_of_component (c : component) : FigmaIconSync.remote_icon :=
  {| FigmaIconSync.id := node_id c;
     FigmaIconSync.name := FigmaApiService.sanitizeIconName (component_name c);
     FigmaIconSync.description := component_description c;
     FigmaIconSync.originalName := component_name c |}.

(** The loop of [getIconsByBrand] over the pages of the file. *)
Definition brands_of_pages (pageNames : list string)
    (components : list component)
  : jsobj (list FigmaIconSync.remote_icon) :=
  foldl (fun brandIcons pageName =>
           obj_set brandIcons (FigmaApiService.sanitizeBrandName pageName)
             (map icon_of_component
                (List.filter (fun c => isComponentOnPage c pageName)
                   components)))
        [] pageNames.

(** [getIconsByBrand], given what [getFile] returned or threw (the names of
    [file.document.children]) and what [getFileComponents] did. *)
Definition getIconsByBrand (file : result (list string))
    (components : result (list component))
  : result (jsobj (list FigmaIconSync.remote_icon)) :=
  match (let? pageNames := file in
         let? components := components in
         Ok (brands_of_pages pageNames components)) with
  | Ok brandIcons => Ok brandIcons
  | Err error => Err (FigmaApiError "GET_ICONS_BY_BRAND_ERROR")
  end.

End FigmaAdapter.

(** ** The build pipeline: class [MultiBrandBuilder] *)
Module MultiBrandBuilder.

(** The external tools and the stages that only write below the output
    directory, which is given by an absolute path and is not modelled: each
    is represented by what it returns or throws.  [webfont] is given the
    working directory it finds, because its input is the glob [*.svg]
    relative to it.  [turns] is the order in which the event loop resumes
    the brand builds that are under way, each named by its position in
    [brandsToProcess]; it is decided by the tools, which settle when they
    are done. *)
Record tools := mkTools {
  setup : result unit;
  buildStyleDictionary : string -> list BrandManager.icon -> result unit;
  generateSVGFiles : string -> list BrandManager.icon -> result unit;
  generatePNGFiles : string -> list BrandManager.icon -> result unit;
  webfont : string -> string -> result unit;
  generateWebComponents : string -> list BrandManager.icon -> result unit;
  generatePackageJson : string -> list BrandManager.icon -> result unit;
  turns : list nat
}.

(** The constructor's options. *)
Record options := mkOptions {
  assetsDir : string;
  platform : string;
  brands : list string
}.

Record build_stats := mkStats {
  totalBrands : nat;
  totalIcons : nat;
  errors : list (string * error)
}.

(** What a build can change: the working directory of the process and
    [this.buildStats].  The assets directory is only read. *)
Record state := mkState {
  cwd : string;
  buildStats : build_stats
}.

Definition set_cwd (dir : string) (s : state) : state :=
  {| cwd := dir; buildStats := buildStats s |}.

Definition add_icons (n : nat) (s : state) : state :=
  {| cwd := cwd s;
     buildStats :=
       {| totalBrands := totalBrands (buildStats s);
          totalIcons := totalIcons (buildStats s) + n;
          errors := errors (buildStats s) |} |}.

Definition set_brands (n : nat) (s : state) : state :=
  {| cwd := cwd s;
     buildStats :=
       {| totalBrands := n;
          totalIcons := totalIcons (buildStats s);
          errors := errors (buildStats s) |} |}.

Definition push_error (brand : string) (e : error) (s : state) : state :=
  {| cwd := cwd s;
     buildStats :=
       {| totalBrands := totalBrands (buildStats s);
          totalIcons := totalIcons (buildStats s);
          errors := errors (buildStats s) ++ [(brand, e)] |} |}.

(** [process.chdir(dir)], which throws when [dir] does not exist. *)
Definition chdir (dir : string) (dir_exists : bool) : M state unit :=
  if dir_exists then modify (set_cwd dir)
  else throw (SystemError "ENOENT").

Definition upper_char (c : ascii) : ascii :=
  if is_lower c then ascii_of_nat (nat_of_ascii c - 32) else c.

(** [s.charAt(0).toUpperCase() + s.slice(1)] *)
Definition capitalize (s : string) : string :=
  match s with
  | EmptyString => EmptyString
  | String c r => String (upper_char c) r
  end.

(** [path.join(assetsDir, brandDir)] for the relative [brandDir] that
    [getBrandDirectory] stands for. *)
Definition absolute (assetsDir brandDir : string) : string :=
  if String.eqb brandDir EmptyString then assetsDir
  else assetsDir +:+ "/" +:+ brandDir.

Section Build.

Variable opts : options.
Variable ext : tools.
Variable assets : store.

Definition selected (what : string) : bool :=
  String.eqb (platform opts) "all" || String.eqb (platform opts) what.

(** [generateFontFiles]: the working directory is changed before the
    font compiler is awaited and is changed back after it has returned. *)
Definition generateFontFilesAsync (brandName : string)
    (icons : list BrandManager.icon) : async state unit :=
  atry
    (do! brandDir <- sync (lift (BrandManager.getBrandDirectory brandName));
     let brandAssetsDir := absolute (assetsDir opts) brandDir in
     do! s <- sync get;
     let originalCwd := cwd s in
     sync (chdir brandAssetsDir (BrandManager.existsDir brandDir assets)) ;;!
     let fontName := capitalize brandName +:+ "IconFont" in
     do! result <- await (external (fun s => webfont ext (cwd s) fontName));
     (* Restore original working directory *)
     sync (chdir originalCwd true))
    (fun error => sync (throw error)).

(** The stage awaited with nothing else running. *)
Definition generateFontFiles (brandName : string)
    (icons : list BrandManager.icon) : M state unit :=
  run_alone (generateFontFilesAsync brandName icons).

(** [buildBrand]: every stage is awaited.  The stages that copy and write
    files have no [await] of their own; the others wait for a tool. *)
Definition buildBrandAsync (brandName : string) : async state unit :=
  atry
    (do! brandIcons <-
       sync (lift (BrandManager.getIconsForBrand brandName assets));
     if (length brandIcons =? 0)%nat then sync (ret tt)
     else
       sync (modify (add_icons (length brandIcons))) ;;!
       await (external (fun _ => buildStyleDictionary ext brandName brandIcons)) ;;!
       (if selected "svg"
        then await (sync (lift (generateSVGFiles ext brandName brandIcons)))
        else sync (ret tt)) ;;!
       (if selected "png"
        then await (external (fun _ => generatePNGFiles ext brandName brandIcons))
        else sync (ret tt)) ;;!
       (if selected "font"
        then await (generateFontFilesAsync brandName brandIcons)
        else sync (ret tt)) ;;!
       (if selected "webcomponent"
        then await (sync (lift (generateWebComponents ext brandName brandIcons)))
        else sync (ret tt)) ;;!
       await (sync (lift (generatePackageJson ext brandName brandIcons))))
    (fun error => sync (throw error)).

(** The build of one brand awaited with nothing else running. *)
Definition buildBrand (brandName : string) : M state unit :=
  run_alone (buildBrandAsync brandName).

Definition getBrandsToProcess : list string :=
  if (0 <? length (brands opts))%nat then brands opts
  else
    map BrandManager.brand_name
      (filter (fun b => 0 < BrandManager.iconCount b)
         (BrandManager.getAllBrands assets)).

(** [brandsToProcess.map(brand => this.buildBrand(brand))]: every build
    is started, in order, and runs up to its first [await]. *)
Fixpoint start_all (brandsToProcess : list string) (s : state)
  : list (string * task state unit) * state :=
  match brandsToProcess with
  | [] => ([], s)
  | brand :: rest =>
      match buildBrandAsync brand s with
      | (t, s1) =>
          match start_all rest s1 with
          | (ts, s2) => ((brand, t) :: ts, s2)
          end
      end
  end.

(** A turn of the event loop for the build at position [i]; nothing
    happens when that build has settled. *)
Fixpoint resume_nth (i : nat) (builds : list (string * task state unit))
    (s : state) : list (string * task state unit) * state :=
  match builds with
  | [] => ([], s)
  | (brand, t) :: rest =>
      match i with
      | O =>
          match t with
          | Pending resume effect => ((brand, resume s) :: rest, effect s)
          | Settled _ => (builds, s)
          end
      | S i' =>
          match resume_nth i' rest s with
          | (rest', s') => ((brand, t) :: rest', s')
          end
      end
  end.

Fixpoint event_loop (order : list nat)
    (builds : list (string * task state unit)) (s : state)
  : list (string * task state unit) * state :=
  match order with
  | [] => (builds, s)
  | i :: order' =>
      match resume_nth i builds s with
      | (builds', s') => event_loop order' builds' s'
      end
  end.

(** The builds that are still under way are resumed until each has
    settled. *)
Fixpoint settle_all (builds : list (string * task state unit)) (s : state)
  : list (string * result unit) * state :=
  match builds with
  | [] => ([], s)
  | (brand, t) :: rest =>
      match settle t s with
      | (r, s1) =>
          match settle_all rest s1 with
          | (rs, s2) => ((brand, r) :: rs, s2)
          end
      end
  end.

(** [await Promise.allSettled(buildPromises)]: the builds run together,
    their turns in the order [order], and the outcome of each is recorded
    at its position. *)
Definition allSettled (order : list nat) (brandsToProcess : list string)
  : M state (list (string * result unit)) :=
  fun s =>
    match start_all brandsToProcess s with
    | (builds, s1) =>
        match event_loop order builds s1 with
        | (builds', s2) =>
            match settle_all builds' s2 with
            | (results, s3) => (Ok results, s3)
            end
        end
    end.

(** The [results.forEach] of [build]: the number of fulfilled builds, with
    every rejection recorded in [buildStats.errors]. *)
Fixpoint check_results (results : list (string * result unit))
  : M state nat :=
  match results with
  | [] => ret 0
  | (brand, Ok _) :: rest =>
      do successCount <- check_results rest; ret (S successCount)
  | (brand, Err reason) :: rest =>
      modify (push_error brand reason) ;;
      check_results rest
  end.

Definition build : M state bool :=
  try_catch
    (lift (setup ext) ;;
     let brandsToProcess := getBrandsToProcess in
     if (length brandsToProcess =? 0)%nat then ret false
     else
       modify (set_brands (length brandsToProcess)) ;;
       do results <- allSettled (turns ext) brandsToProcess;
       do successCount <- check_results results;
       ret (successCount =? length brandsToProcess)%nat)
    (fun error => ret false).

(** What the build of a brand settles with when its font compiler finds
    the working directory [dir]: the first failure of its stages, in
    program order. *)
Definition brand_result (brandName dir : string) : result unit :=
  let? brandIcons := BrandManager.getIconsForBrand brandName assets in
  if (length brandIcons =? 0)%nat then Ok tt
  else
    let? _ := buildStyleDictionary ext brandName brandIcons in
    let? _ := if selected "svg"
              then generateSVGFiles ext brandName brandIcons else Ok tt in
    let? _ := if selected "png"
              then generatePNGFiles ext brandName brandIcons else Ok tt in
    let? _ := if selected "font"
              then
                let? brandDir := BrandManager.getBrandDirectory brandName in
                if BrandManager.existsDir brandDir assets
                then webfont ext dir (capitalize brandName +:+ "IconFont")
                else Err (SystemError "ENOENT")
              else Ok tt in
    let? _ := if selected "webcomponent"
              then generateWebComponents ext brandName brandIcons
              else Ok tt in
    generatePackageJson ext brandName brandIcons.

End Build.

(** A task that, whatever the turns it is given and whatever the state it
    finds at each, changes nothing but the working directory, and settles
    with a result that satisfies [P]. *)
Fixpoint settles_with {A} (P : result A -> Prop) (t : task state A) : Prop :=
  match t with
  | Settled r => P r
  | Pending resume effect =>
      forall s, (exists d, effect s = set_cwd d s) /\ settles_with P (resume s)
  end.

(** The same of an [async] function and its call. *)
Definition settling {A} (P : result A -> Prop) (m : async state A) : Prop :=
  forall s, (exists d, (m s).2 = set_cwd d s) /\ settles_with P (m s).1.

Definition initial_state (dir : string) : state :=
  {| cwd := dir;
     buildStats := {| totalBrands := 0; totalIcons := 0; errors := [] |} |}.

End MultiBrandBuilder.

(** ** A concrete run

    The local store holds the brand [global] with the single icon
    [hamburger]; the remote file lists the brand [global] with the icons
    [hamburger] and [ice-cream]; every export and download succeeds. *)
Module Scenario.

Definition local_store : store :=
  <["global" := <["hamburger.svg" := File "<svg>old</svg>"]> ∅]> ∅.

Definition remote_listing : jsobj (list FigmaIconSync.remote_icon) :=
  [("global",
    [ FigmaIconSync.mkRemote "1:1" "hamburger" EmptyString "Hamburger";
      FigmaIconSync.mkRemote "1:2" "ice-cream" EmptyString "Ice Cream" ])].

Definition figmaApi : FigmaIconSync.figma_api :=
  {| FigmaIconSync.getIconsByBrand := fun _ => Ok remote_listing;
     FigmaIconSync.exportNodes :=
       fun _ nodeIds _ =>
         Ok (map (fun nodeId => (nodeId, "https://cdn/" +:+ nodeId)) nodeIds);
     FigmaIconSync.downloadSvg :=
       fun exportUrl _ =>
         match exportUrl with
         | Own url => Ok ("<svg>" +:+ url +:+ "</svg>")
         | _ => Err (TypeError "url")
         end |}.

(** Built-in values without a property of their own; the run does not
    consult them, its only brand being a local one. *)
Definition builtins (p k : string) : option bool := Some false.

Definition apply_run : result unit * FigmaIconSync.state :=
  FigmaIconSync.syncIcons (FigmaIconSync.mkOptions "key" false) figmaApi
    builtins (FigmaIconSync.initial_state local_store None).

Definition preview_run : result unit * FigmaIconSync.state :=
  FigmaIconSync.syncIcons (FigmaIconSync.mkOptions "key" true) figmaApi
    builtins (FigmaIconSync.initial_state local_store None).

(** The names [getIconsForBrand] lists for a brand. *)
Definition listed_names (brandName : string) (fs : store)
  : result (list string) :=
  let? icons := BrandManager.getIconsForBrand brandName fs in
  Ok (map BrandManager.name icons).

(** A build of two brand directories, one of them empty, by tools that
    all succeed except, possibly, the font compiler. *)
Definition build_store : store :=
  <["empty" := ∅]> local_store.

Definition stage_ok (brandName : string) (icons : list BrandManager.icon)
  : result unit := Ok tt.

Definition tools_with (font : result unit) : MultiBrandBuilder.tools :=
  {| MultiBrandBuilder.setup := Ok tt;
     MultiBrandBuilder.buildStyleDictionary := stage_ok;
     MultiBrandBuilder.generateSVGFiles := stage_ok;
     MultiBrandBuilder.generatePNGFiles := stage_ok;
     MultiBrandBuilder.webfont := fun _ _ => font;
     MultiBrandBuilder.generateWebComponents := stage_ok;
     MultiBrandBuilder.generatePackageJson := stage_ok;
     MultiBrandBuilder.turns := [] |}.

(** The same tools, all succeeding, with the builds of two brands resumed
    in turn. *)
Definition tools_in_turn : MultiBrandBuilder.tools :=
  {| MultiBrandBuilder.setup := Ok tt;
     MultiBrandBuilder.buildStyleDictionary := stage_ok;
     MultiBrandBuilder.generateSVGFiles := stage_ok;
     MultiBrandBuilder.generatePNGFiles := stage_ok;
     MultiBrandBuilder.webfont := fun _ _ => Ok tt;
     MultiBrandBuilder.generateWebComponents := stage_ok;
     MultiBrandBuilder.generatePackageJson := stage_ok;
     MultiBrandBuilder.turns := concat (replicate 16 [0; 1]) |}.

(** The local store with a second brand. *)
Definition two_brands : store :=
  <["other" := <["star.svg" := File "<svg/>"]> ∅]> local_store.

Definition build_options (brands : list string) : MultiBrandBuilder.options :=
  {| MultiBrandBuilder.assetsDir := "/repo/assets";
     MultiBrandBuilder.platform := "all";
     MultiBrandBuilder.brands := brands |}.

End Scenario.

(** * Properties *)

(** ** Objects used as dictionaries *)

Lemma obj_get_app {V} (o o' : jsobj V) k :
  obj_get (o ++ o')%list k
  = match obj_get o k with Some v => Some v | None => obj_get o' k end.
Proof.
  induction o as [|[k' v'] o IH]; simpl; [reflexivity|].
  now destruct (String.eqb k' k).
Qed.

Lemma obj_get_replace {V} (o : jsobj V) k v k' :
  obj_get (obj_replace o k v) k'
  = if String.eqb k k'
    then match obj_get o k with Some _ => Some v | None => None end
    else obj_get o k'.
Proof.
  induction o as [|[k0 v0] o IH]; simpl.
  - now destruct (String.eqb k k').
  - destruct (String.eqb k0 k) eqn:Hk0; simpl.
    + apply String.eqb_eq in Hk0. subst k0.
      now destruct (String.eqb k k').
    + rewrite IH. destruct (String.eqb k k') eqn:Hk; [|reflexivity].
      apply String.eqb_eq in Hk. subst k'. now rewrite Hk0.
Qed.

Lemma obj_get_add_index {V} (o : jsobj V) n k v k' :
  obj_get o k = None ->
  obj_get (obj_add_index o n k v) k'
  = if String.eqb k k' then Some v else obj_get o k'.
Proof.
  induction o as [|[k0 v0] o IH]; simpl; intros Hfresh.
  - reflexivity.
  - destruct (String.eqb_spec k0 k) as [->|Hk0]; [discriminate|].
    destruct (array_index k0) as [m|]; [destruct (m <? n)%N|]; simpl;
      try reflexivity.
    rewrite (IH Hfresh).
    destruct (String.eqb_spec k0 k') as [<-|Hk']; [|reflexivity].
    now rewrite (proj2 (String.eqb_neq _ _) (not_eq_sym Hk0)).
Qed.

Lemma obj_get_set {V} (o : jsobj V) k v k' :
  obj_get (obj_set o k v) k' = if String.eqb k k' then Some v else obj_get o k'.
Proof.
  unfold obj_set. destruct (obj_get o k) as [old|] eqn:Hk.
  - rewrite obj_get_replace, Hk. reflexivity.
  - destruct (array_index k) as [n|].
    + now apply obj_get_add_index.
    + rewrite obj_get_app. simpl.
      destruct (String.eqb_spec k k') as [<-|Hne]; [now rewrite Hk|].
      now destruct (obj_get o k').
Qed.

Lemma obj_get_set_eq {V} (o : jsobj V) k v : obj_get (obj_set o k v) k = Some v.
Proof. now rewrite obj_get_set, String.eqb_refl. Qed.

Lemma obj_get_set_ne {V} (o : jsobj V) k k' v :
  k <> k' -> obj_get (obj_set o k v) k' = obj_get o k'.
Proof.
  intros Hne. now rewrite obj_get_set, (proj2 (String.eqb_neq _ _) Hne).
Qed.

Lemma elem_of_obj_replace {V} (o : jsobj V) k v x :
  x ∈ obj_replace o k v -> x = (k, v) \/ x ∈ o.
Proof.
  induction o as [|[k0 v0] o IH]; simpl; [auto|].
  destruct (String.eqb k0 k).
  - intros [->|Hx]%elem_of_cons; [now left | right; now right].
  - intros [->|Hx]%elem_of_cons; [right; left|].
    destruct (IH Hx); [now left | right; now right].
Qed.

Lemma elem_of_obj_add_index {V} (o : jsobj V) n k v x :
  x ∈ obj_add_index o n k v -> x = (k, v) \/ x ∈ o.
Proof.
  induction o as [|[k0 v0] o IH]; simpl.
  - intros ->%list_elem_of_singleton. now left.
  - destruct (array_index k0) as [m|]; [destruct (m <? n)%N|].
    + intros [->|Hx]%elem_of_cons; [right; left|].
      destruct (IH Hx); [now left | right; now right].
    + intros [->|Hx]%elem_of_cons; [now left | now right].
    + intros [->|Hx]%elem_of_cons; [now left | now right].
Qed.

(** What [o[k] = v] leaves in the object is [v] and what was there. *)
Lemma elem_of_obj_set {V} (o : jsobj V) k v x :
  x ∈ obj_set o k v -> x = (k, v) \/ x ∈ o.
Proof.
  unfold obj_set. destruct (obj_get o k); [apply elem_of_obj_replace|].
  destruct (array_index k); [apply elem_of_obj_add_index|].
  rewrite elem_of_app, list_elem_of_singleton. tauto.
Qed.

Lemma obj_set_Forall {V} (P : string * V -> Prop) o k v :
  P (k, v) -> Forall P o -> Forall P (obj_set o k v).
Proof.
  intros Hkv Ho. rewrite Forall_forall in *. intros x Hx.
  destruct (elem_of_obj_set _ _ _ _ Hx) as [->|Hin]; auto.
Qed.

Lemma obj_replace_replace {V} (o : jsobj V) k v v' :
  obj_replace (obj_replace o k v) k v' = obj_replace o k v'.
Proof.
  induction o as [|[k0 v0] o IH]; simpl; [reflexivity|].
  destruct (String.eqb_spec k0 k) as [->|Hk]; simpl.
  - now rewrite String.eqb_refl.
  - now rewrite (proj2 (String.eqb_neq _ _) Hk), IH.
Qed.

Lemma obj_replace_add_index {V} (o : jsobj V) n k v v' :
  obj_get o k = None ->
  obj_replace (obj_add_index o n k v) k v' = obj_add_index o n k v'.
Proof.
  induction o as [|[k0 v0] o IH]; simpl; intros Hfresh.
  - now rewrite String.eqb_refl.
  - destruct (String.eqb_spec k0 k) as [->|Hk0]; [discriminate|].
    destruct (array_index k0) as [m|]; [destruct (m <? n)%N|]; simpl;
      rewrite ?String.eqb_refl; try reflexivity.
    now rewrite (proj2 (String.eqb_neq _ _) Hk0), (IH Hfresh).
Qed.

Lemma obj_set_set {V} (o : jsobj V) k v v' :
  obj_set (obj_set o k v) k v' = obj_set o k v'.
Proof.
  unfold obj_set at 1. rewrite obj_get_set_eq.
  unfold obj_set. destruct (obj_get o k) as [old|] eqn:Hk.
  - apply obj_replace_replace.
  - destruct (array_index k) as [n|].
    + now apply obj_replace_add_index.
    + induction o as [|[k0 v0] o IH]; simpl.
      * now rewrite String.eqb_refl.
      * simpl in Hk. destruct (String.eqb k0 k); [discriminate|].
        now rewrite (IH Hk).
Qed.

Lemma obj_keys_replace {V} (o : jsobj V) k v :
  is_Some (obj_get o k) -> obj_keys (obj_replace o k v) = obj_keys o.
Proof.
  unfold obj_keys. induction o as [|[k0 v0] o IH]; simpl; [reflexivity|].
  destruct (String.eqb_spec k0 k) as [->|Hk]; simpl; [reflexivity|].
  intros H. now rewrite IH.
Qed.

Lemma obj_get_None {V} (o : jsobj V) k :
  obj_get o k = None <-> k ∉ obj_keys o.
Proof.
  unfold obj_keys. induction o as [|[k0 v0] o IH]; simpl.
  - split; [intros _ []%elem_of_nil | reflexivity].
  - rewrite not_elem_of_cons. destruct (String.eqb_spec k0 k) as [->|Hk].
    + split; [discriminate | intros [[] _]; reflexivity].
    + rewrite IH. split; [intros H; split; [congruence | exact H] | tauto].
Qed.

Lemma obj_keys_add_index_NoDup {V} (o : jsobj V) n k v :
  k ∉ obj_keys o -> NoDup (obj_keys o) ->
  NoDup (obj_keys (obj_add_index o n k v)).
Proof.
  unfold obj_keys. induction o as [|[k0 v0] o IH]; simpl; intros Hk Hnd.
  - apply NoDup_singleton.
  - apply not_elem_of_cons in Hk as [Hne Hk].
    apply NoDup_cons in Hnd as [Hk0 Hnd].
    destruct (array_index k0) as [m|]; [destruct (m <? n)%N|]; simpl.
    + apply NoDup_cons. split; [|now apply IH].
      intros Hin. apply list_elem_of_fmap in Hin as (x & -> & Hx).
      destruct (elem_of_obj_add_index _ _ _ _ _ Hx) as [->|Hx'].
      * now apply Hne.
      * apply Hk0. apply list_elem_of_fmap. eauto.
    + apply NoDup_cons. split.
      * rewrite not_elem_of_cons. split; assumption.
      * apply NoDup_cons. split; assumption.
    + apply NoDup_cons. split.
      * rewrite not_elem_of_cons. split; assumption.
      * apply NoDup_cons. split; assumption.
Qed.

Lemma obj_keys_set_NoDup {V} (o : jsobj V) k v :
  NoDup (obj_keys o) -> NoDup (obj_keys (obj_set o k v)).
Proof.
  intros Hnd. unfold obj_set. destruct (obj_get o k) as [old|] eqn:Hk.
  - rewrite obj_keys_replace by eauto. exact Hnd.
  - apply obj_get_None in Hk. destruct (array_index k) as [n|].
    + now apply obj_keys_add_index_NoDup.
    + unfold obj_keys in *. rewrite fmap_app. simpl.
      apply NoDup_app. split; [exact Hnd|]. split; [|apply NoDup_singleton].
      intros x Hx ->%list_elem_of_singleton. now apply Hk.
Qed.

Lemma obj_set_keeps {V} (o : jsobj V) k v k' :
  is_Some (obj_get o k') -> is_Some (obj_get (obj_set o k v) k').
Proof.
  intros H. destruct (String.eqb_spec k k') as [<-|Hne].
  - rewrite obj_get_set_eq. eauto.
  - now rewrite obj_get_set_ne.
Qed.

Lemma obj_get_elem_of {V} (o : jsobj V) k v : obj_get o k = Some v -> (k, v) ∈ o.
Proof.
  induction o as [|[k' v'] o IH]; simpl; [discriminate|].
  destruct (String.eqb_spec k' k) as [->|Hne].
  - intros [= ->]. left.
  - intros H. right. now apply IH.
Qed.

(** Array indices are enumerated first, in ascending order, whatever the
    order of their creation. *)
Lemma obj_set_indices_first :
  obj_keys (obj_set (obj_set (obj_set (obj_set [] "b" 1) "10" 2) "9" 3) "a" 4)
  = ["9"; "10"; "b"; "a"].
Proof. vm_compute. reflexivity. Qed.

(** ** Name normalization *)
Ltac by_cases_on c :=
  destruct c as [[] [] [] [] [] [] [] []]; try reflexivity; try discriminate.

Section Normalization.

Lemma alnum_not_hyphen c : is_alnum c = true -> is_hyphen c = false.
Proof. by_cases_on c. Qed.

Lemma alnum_lower_char c : is_alnum c = true -> lower_char c = c.
Proof. by_cases_on c. Qed.

Lemma hyphen_lower_char c : is_hyphen c = true -> lower_char c = c.
Proof. by_cases_on c. Qed.

Lemma is_hyphen_eq c : is_hyphen c = true -> c = hyphen.
Proof. by_cases_on c. Qed.

Lemma collapse_cons_keep c r :
  is_hyphen c = false ->
  collapse_hyphens (String c r) = String c (collapse_hyphens r).
Proof. intros Hc. destruct r as [|c' r]; simpl; [reflexivity|]. now rewrite Hc. Qed.

Lemma collapse_hyphen_hyphen r :
  collapse_hyphens (String hyphen (String hyphen r))
  = collapse_hyphens (String hyphen r).
Proof. reflexivity. Qed.

Lemma strip_trailing_cons_keep c r :
  is_hyphen c = false ->
  strip_trailing_hyphen (String c r) = String c (strip_trailing_hyphen r).
Proof. intros Hc. destruct r; simpl; [now rewrite Hc | reflexivity]. Qed.

Lemma collapse_starts s :
  starts_with_hyphen (collapse_hyphens s) = starts_with_hyphen s.
Proof.
  induction s as [|c r IH]; [reflexivity|].
  destruct r as [|c' r']; [reflexivity|].
  change (collapse_hyphens (String c (String c' r')))
    with (if is_hyphen c && is_hyphen c' then collapse_hyphens (String c' r')
          else String c (collapse_hyphens (String c' r'))).
  destruct (is_hyphen c) eqn:Hc, (is_hyphen c') eqn:Hc'; simpl andb; cbv iota.
  - rewrite IH. simpl. now rewrite Hc, Hc'.
  - simpl. now rewrite Hc.
  - simpl. now rewrite Hc.
  - simpl. now rewrite Hc.
Qed.

Lemma first_two_passes s :
  replace_non_alnum (toLowerCase s) = map_string clean_char s.
Proof.
  unfold replace_non_alnum, toLowerCase.
  induction s as [|c r IH]; simpl; [reflexivity|]. now rewrite IH.
Qed.

Lemma scan_started s : forall pending,
  normalize_scan true pending s
  = strip_trailing_hyphen
      (collapse_hyphens (pending_hyphen pending (map_string clean_char s))).
Proof.
  induction s as [|c r IH]; intros pending.
  - destruct pending; reflexivity.
  - cbn [normalize_scan map_string]. unfold clean_char at 1.
    destruct (is_alnum (lower_char c)) eqn:Hc.
    + pose proof (alnum_not_hyphen _ Hc) as Hh.
      rewrite (IH false). unfold pending_hyphen at 1.
      destruct pending; simpl andb; cbv iota; unfold pending_hyphen.
      * change (collapse_hyphens (String hyphen (String (lower_char c) ?x)))
          with (if is_hyphen hyphen && is_hyphen (lower_char c)
                then collapse_hyphens (String (lower_char c) x)
                else String hyphen (collapse_hyphens (String (lower_char c) x))).
        rewrite Hh. simpl andb. cbv iota.
        rewrite (collapse_cons_keep _ _ Hh).
        change (strip_trailing_hyphen (String hyphen (String ?a ?x)))
          with (String hyphen (strip_trailing_hyphen (String a x))).
        now rewrite (strip_trailing_cons_keep _ _ Hh).
      * rewrite (collapse_cons_keep _ _ Hh).
        now rewrite (strip_trailing_cons_keep _ _ Hh).
    + rewrite (IH true). unfold pending_hyphen.
      destruct pending; reflexivity.
Qed.

Lemma strip_leading_collapse_hyphen s :
  strip_leading_hyphen (collapse_hyphens (String hyphen s))
  = strip_leading_hyphen (collapse_hyphens s).
Proof.
  destruct s as [|c r]; [reflexivity|].
  change (collapse_hyphens (String hyphen (String c r)))
    with (if is_hyphen hyphen && is_hyphen c then collapse_hyphens (String c r)
          else String hyphen (collapse_hyphens (String c r))).
  destruct (is_hyphen c) eqn:Hc; simpl andb; cbv iota; [reflexivity|].
  change (strip_leading_hyphen (String hyphen ?x)) with x.
  rewrite (collapse_cons_keep _ _ Hc). simpl. now rewrite Hc.
Qed.

Lemma scan_fresh s : forall pending,
  normalize_scan false pending s
  = strip_edge_hyphens (collapse_hyphens (map_string clean_char s)).
Proof.
  unfold strip_edge_hyphens.
  induction s as [|c r IH]; intros pending; [reflexivity|].
  cbn [normalize_scan map_string]. unfold clean_char at 1.
  destruct (is_alnum (lower_char c)) eqn:Hc.
  - pose proof (alnum_not_hyphen _ Hc) as Hh. simpl andb. cbv iota.
    rewrite scan_started. unfold pending_hyphen.
    rewrite (collapse_cons_keep _ _ Hh).
    simpl strip_leading_hyphen. rewrite Hh.
    now rewrite (strip_trailing_cons_keep _ _ Hh).
  - rewrite (IH true). now rewrite strip_leading_collapse_hyphen.
Qed.

(** The chain of replacements computes the scan of the specification. *)
Lemma normalize_is_spec x : normalize x = normalize_spec x.
Proof.
  unfold normalize, normalize_spec. rewrite first_two_passes.
  symmetry. apply scan_fresh.
Qed.

Lemma scan_shape s : forall started pending,
  let o := normalize_scan started pending s in
  string_forallb name_char o = true
  /\ no_double_hyphen o = true
  /\ ends_with_hyphen o = false
  /\ (starts_with_hyphen o = true -> started = true).
Proof.
  induction s as [|c r IH]; intros started pending; cbn zeta.
  - simpl. repeat split; intros; discriminate.
  - cbn [normalize_scan].
    destruct (is_alnum (lower_char c)) eqn:Hc.
    + pose proof (alnum_not_hyphen _ Hc) as Hh.
      destruct (IH true false) as (Hall & Hnd & Hend & _). cbn zeta in *.
      set (o := normalize_scan true false r) in *.
      assert (Hkeep :
        string_forallb name_char (String (lower_char c) o) = true
        /\ no_double_hyphen (String (lower_char c) o) = true
        /\ ends_with_hyphen (String (lower_char c) o) = false).
      { repeat split.
        - simpl. unfold name_char at 1. now rewrite Hc, Hall.
        - destruct o; simpl in *; [reflexivity|]. now rewrite Hh.
        - destruct o; simpl in *; [exact Hh | exact Hend]. }
      destruct Hkeep as (K1 & K2 & K3).
      destruct (started && pending) eqn:Hsp.
      * repeat split.
        -- change (string_forallb name_char (String hyphen ?x))
             with (name_char hyphen && string_forallb name_char x).
           now rewrite K1.
        -- change (no_double_hyphen (String hyphen (String (lower_char c) o)))
             with (negb (is_hyphen hyphen && is_hyphen (lower_char c))
                   && no_double_hyphen (String (lower_char c) o)).
           now rewrite Hh, K2.
        -- exact K3.
        -- intros _. now destruct started.
      * repeat split; try assumption.
        simpl. rewrite Hh. discriminate.
    + destruct (IH started true) as (Hall & Hnd & Hend & Hst). auto.
Qed.

(** The result of the normalization is in normal form. *)
Lemma normalize_is_normal x : is_normal (normalize x) = true.
Proof.
  rewrite normalize_is_spec. unfold normalize_spec, is_normal.
  destruct (scan_shape x false false) as (Hall & Hnd & Hend & Hst).
  cbn zeta in *.
  rewrite Hall, Hnd, Hend.
  destruct (starts_with_hyphen (normalize_scan false false x)); [|reflexivity].
  now specialize (Hst eq_refl).
Qed.

Lemma name_char_clean c : name_char c = true -> clean_char c = c.
Proof. by_cases_on c. Qed.

Lemma map_clean_normal s :
  string_forallb name_char s = true -> map_string clean_char s = s.
Proof.
  induction s as [|c r IH]; simpl; [reflexivity|].
  intros [Hc Hr]%andb_prop. now rewrite (name_char_clean _ Hc), IH.
Qed.

Lemma collapse_normal s : no_double_hyphen s = true -> collapse_hyphens s = s.
Proof.
  induction s as [|c r IH]; [reflexivity|].
  destruct r as [|c' r']; [reflexivity|].
  change (no_double_hyphen (String c (String c' r')))
    with (negb (is_hyphen c && is_hyphen c') && no_double_hyphen (String c' r')).
  intros [Hcc Hr]%andb_prop.
  change (collapse_hyphens (String c (String c' r')))
    with (if is_hyphen c && is_hyphen c' then collapse_hyphens (String c' r')
          else String c (collapse_hyphens (String c' r'))).
  destruct (is_hyphen c && is_hyphen c'); [discriminate|].
  now rewrite (IH Hr).
Qed.

Lemma strip_leading_normal s :
  starts_with_hyphen s = false -> strip_leading_hyphen s = s.
Proof. destruct s; simpl; [reflexivity|]. now intros ->. Qed.

Lemma strip_trailing_normal s :
  ends_with_hyphen s = false -> strip_trailing_hyphen s = s.
Proof.
  induction s as [|c r IH]; [reflexivity|].
  destruct r as [|c' r']; simpl.
  - now intros ->.
  - intros H. f_equal. now apply IH.
Qed.

(** A name in normal form is left unchanged. *)
Lemma normalize_normal s : is_normal s = true -> normalize s = s.
Proof.
  unfold is_normal.
  intros [[[Hall Hnd]%andb_prop Hst]%andb_prop Hend]%andb_prop.
  apply negb_true_iff in Hst, Hend.
  unfold normalize, strip_edge_hyphens.
  rewrite first_two_passes, (map_clean_normal _ Hall), (collapse_normal _ Hnd),
    (strip_leading_normal _ Hst).
  now apply strip_trailing_normal.
Qed.

Lemma normalize_idempotent x : normalize (normalize x) = normalize x.
Proof. apply normalize_normal, normalize_is_normal. Qed.

End Normalization.

(** *** The claim about the sanitizers *)

(** C7, as stated, fails: the sanitizers of [BrandManager] accept ["-"]
    and return the empty string, which they reject when applied again. *)
Lemma sanitize_twice_rejects_empty :
  "-" <> EmptyString
  /\ BrandManager.sanitizeIconName "-" = Ok EmptyString
  /\ (let? n := BrandManager.sanitizeIconName "-" in
      BrandManager.sanitizeIconName n)
     = Err (BrandManagerError "INVALID_ICON_NAME")
  /\ (let? n := BrandManager.sanitizeIconName "-" in
      BrandManager.sanitizeIconName n)
     <> BrandManager.sanitizeIconName "-".
Proof. repeat split; discriminate. Qed.

(** C7 (amended).  Both sanitizers of [BrandManager] accept every
    non-empty string [x] and return the same name [n]: the scan of the
    specification applied to [x], which is in normal form (only
    [[a-z0-9-]], no two hyphens in a row, no hyphen first or last).
    Sanitizing [n] again returns [n] whenever [n] is not empty; when [n]
    is empty the second application is rejected by the guard. *)
Theorem sanitize_normal_form_and_idempotence x :
  x <> EmptyString ->
  exists n,
    BrandManager.sanitizeBrandName x = Ok n
    /\ BrandManager.sanitizeIconName x = Ok n
    /\ n = normalize_spec x
    /\ is_normal n = true
    /\ (n <> EmptyString ->
        BrandManager.sanitizeBrandName n = Ok n
        /\ BrandManager.sanitizeIconName n = Ok n)
    /\ (n = EmptyString ->
        BrandManager.sanitizeBrandName n
        = Err (BrandManagerError "INVALID_BRAND_NAME")
        /\ BrandManager.sanitizeIconName n
           = Err (BrandManagerError "INVALID_ICON_NAME")).
Proof.
  intros Hx. exists (normalize x).
  unfold BrandManager.sanitizeBrandName, BrandManager.sanitizeIconName.
  destruct (String.eqb_spec x EmptyString); [contradiction|].
  repeat split.
  - apply normalize_is_spec.
  - apply normalize_is_normal.
  - destruct (String.eqb_spec (normalize x) EmptyString); [contradiction|].
    now rewrite normalize_idempotent.
  - destruct (String.eqb_spec (normalize x) EmptyString); [contradiction|].
    now rewrite normalize_idempotent.
  - now rewrite H.
  - now rewrite H.
Qed.

Lemma sanitize_normal_form_and_idempotence_witness :
  exists n,
    BrandManager.sanitizeBrandName "  Ice__Cream 2!" = Ok n
    /\ BrandManager.sanitizeIconName "  Ice__Cream 2!" = Ok n
    /\ n = normalize_spec "  Ice__Cream 2!"
    /\ is_normal n = true
    /\ (n <> EmptyString ->
        BrandManager.sanitizeBrandName n = Ok n
        /\ BrandManager.sanitizeIconName n = Ok n)
    /\ (n = EmptyString ->
        BrandManager.sanitizeBrandName n
        = Err (BrandManagerError "INVALID_BRAND_NAME")
        /\ BrandManager.sanitizeIconName n
           = Err (BrandManagerError "INVALID_ICON_NAME")).
Proof.
  apply (sanitize_normal_form_and_idempotence "  Ice__Cream 2!").
  discriminate.
Defined.

(** The adapter's sanitizers, which have no guard, are idempotent
    everywhere. *)
Lemma adapter_sanitize_idempotent x :
  FigmaApiService.sanitizeIconName (FigmaApiService.sanitizeIconName x)
  = FigmaApiService.sanitizeIconName x
  /\ FigmaApiService.sanitizeBrandName (FigmaApiService.sanitizeBrandName x)
     = FigmaApiService.sanitizeBrandName x.
Proof. split; apply normalize_idempotent. Qed.

(** ** The asset store *)
Section AssetStore.

Import BrandManager.

Lemma sanitizeBrandName_Ok B b :
  sanitizeBrandName B = Ok b -> B <> EmptyString /\ b = normalize B.
Proof.
  unfold sanitizeBrandName. destruct (String.eqb_spec B EmptyString); [discriminate|].
  intros [= <-]. auto.
Qed.

Lemma sanitizeIconName_Ok I n :
  sanitizeIconName I = Ok n -> I <> EmptyString /\ n = normalize I.
Proof.
  unfold sanitizeIconName. destruct (String.eqb_spec I EmptyString); [discriminate|].
  intros [= <-]. auto.
Qed.

Lemma sanitizeBrandName_again B b :
  sanitizeBrandName B = Ok b -> b <> EmptyString -> sanitizeBrandName b = Ok b.
Proof.
  intros [_ ->]%sanitizeBrandName_Ok Hb. unfold sanitizeBrandName.
  destruct (String.eqb_spec (normalize B) EmptyString); [contradiction|].
  now rewrite normalize_idempotent.
Qed.

Lemma sanitizeIconName_again I n :
  sanitizeIconName I = Ok n -> n <> EmptyString -> sanitizeIconName n = Ok n.
Proof.
  intros [_ ->]%sanitizeIconName_Ok Hn. unfold sanitizeIconName.
  destruct (String.eqb_spec (normalize I) EmptyString); [contradiction|].
  now rewrite normalize_idempotent.
Qed.

Lemma getBrandDirectory_sanitized B b :
  sanitizeBrandName B = Ok b -> b <> EmptyString -> getBrandDirectory b = Ok b.
Proof.
  intros HB Hb. unfold getBrandDirectory.
  now rewrite (sanitizeBrandName_again _ _ HB Hb).
Qed.

Lemma getBrandDirectory_empty : 
  getBrandDirectory EmptyString = Err (BrandManagerError "INVALID_BRAND_NAME").
Proof. reflexivity. Qed.

Lemma existsDir_lookup b (fs : store) :
  b <> EmptyString -> existsDir b fs = bool_decide (is_Some (fs !! b)).
Proof.
  intros Hb. unfold existsDir. now destruct (String.eqb_spec b EmptyString).
Qed.

Lemma with_brand_lookup b fs : with_brand b fs !! b = Some (brand_dir b fs).
Proof.
  unfold with_brand, brand_dir.
  destruct (fs !! b) eqn:E; simpl; [exact E | apply lookup_insert_eq].
Qed.

Lemma brand_dir_lookup b fs dir : fs !! b = Some dir -> brand_dir b fs = dir.
Proof. intros H. unfold brand_dir. now rewrite H. Qed.

Lemma with_brand_present b fs dir : fs !! b = Some dir -> with_brand b fs = fs.
Proof. intros H. unfold with_brand. now rewrite H. Qed.

(** [addIconToBrand] on names that pass the sanitizers, as one case
    distinction. *)
Lemma addIconToBrand_sanitized B I C fmt fs b n :
  sanitizeBrandName B = Ok b -> sanitizeIconName I = Ok n -> b <> EmptyString ->
  addIconToBrand B I C fmt fs =
    let file := n +:+ "." +:+ fmt in
    if bool_decide (is_Some (brand_dir b fs !! file))
    then (Err (BrandManagerError "ICON_EXISTS"), with_brand b fs)
    else if String.eqb fmt "svg" && negb (includes C "<svg")
    then (Err (BrandManagerErrorFrom "ADD_ICON_ERROR"
                 (BrandManagerError "INVALID_SVG_CONTENT")), with_brand b fs)
    else (Ok {| added_brand := b; added_name := n; added_filename := file;
                added_path := join b file; added_format := fmt |},
          <[b := <[file := File C]> (brand_dir b fs)]> fs).
Proof.
  intros HB HI Hb. cbn zeta.
  unfold addIconToBrand, bind, lift, get.
  rewrite HB, HI, (getBrandDirectory_sanitized _ _ HB Hb).
  rewrite (existsDir_lookup _ _ Hb).
  assert (Hpre :
    (if bool_decide (is_Some (fs !! b)) then ret tt
     else bind (createBrand b) (fun _ => ret tt)) fs
    = (Ok tt, with_brand b fs)).
  { unfold with_brand. destruct (fs !! b) eqn:E.
    - rewrite bool_decide_eq_true_2 by eauto. reflexivity.
    - rewrite bool_decide_eq_false_2 by (intros [? ?]; discriminate).
      unfold createBrand, bind, lift, get.
      rewrite (sanitizeBrandName_again _ _ HB Hb),
        (getBrandDirectory_sanitized _ _ HB Hb), (existsDir_lookup _ _ Hb), E.
      rewrite bool_decide_eq_false_2 by (intros [? ?]; discriminate).
      unfold try_catch, bind, mkdirSync, ret. now rewrite E. }
  unfold bind in Hpre. rewrite Hpre.
  unfold existsIn. rewrite with_brand_lookup.
  destruct (bool_decide (is_Some (brand_dir b fs !! (n +:+ "." +:+ fmt)))) eqn:Hex;
    [reflexivity|].
  apply bool_decide_eq_false_1 in Hex.
  unfold try_catch.
  destruct (String.eqb fmt "svg" && negb (includes C "<svg")); [reflexivity|].
  unfold ret at 1. unfold writeFileSync. rewrite with_brand_lookup.
  destruct (brand_dir b fs !! (n +:+ "." +:+ fmt)) eqn:E;
    [exfalso; apply Hex; eauto|].
  unfold ret. f_equal. clear Hpre E Hex.
  unfold with_brand, brand_dir. destruct (fs !! b); simpl; [reflexivity|].
  apply insert_insert_eq.
Qed.

(** [addIconToBrand] on names the sanitizers or [getBrandDirectory]
    reject. *)
Lemma addIconToBrand_rejected B I C fmt fs :
  (forall b n, sanitizeBrandName B = Ok b -> sanitizeIconName I = Ok n -> b = EmptyString) ->
  exists e, addIconToBrand B I C fmt fs = (Err e, fs)
            /\ (e = BrandManagerError "INVALID_BRAND_NAME"
                \/ e = BrandManagerError "INVALID_ICON_NAME").
Proof.
  intros H. unfold addIconToBrand, bind, lift, get.
  destruct (sanitizeBrandName B) as [b|e] eqn:HB.
  - destruct (sanitizeIconName I) as [n|e] eqn:HI.
    + rewrite (H b n eq_refl eq_refl). rewrite getBrandDirectory_empty. eauto.
    + unfold sanitizeIconName in HI. destruct (String.eqb I EmptyString); [|discriminate].
      injection HI as <-. eauto.
  - unfold sanitizeBrandName in HB. destruct (String.eqb B EmptyString); [|discriminate].
    injection HB as <-. eauto.
Qed.

(** *** Listing *)

Lemma length_append s t :
  String.length (s +:+ t) = String.length s + String.length t.
Proof. induction s; simpl; [reflexivity | now rewrite IHs]. Qed.

Lemma substring_prefix s t :
  String.substring 0 (String.length s) (s +:+ t) = s.
Proof.
  induction s as [|c r IH]; simpl.
  - now destruct t.
  - now rewrite IH.
Qed.

Lemma substring_whole t : String.substring 0 (String.length t) t = t.
Proof. induction t as [|c r IH]; simpl; [reflexivity | now rewrite IH]. Qed.

Lemma substring_suffix s t :
  String.substring (String.length s) (String.length t) (s +:+ t) = t.
Proof.
  induction s as [|c r IH]; simpl; [apply substring_whole | exact IH].
Qed.

Lemma last_dot_suffix_append s e e' :
  Path.last_dot_suffix e = Some e' -> Path.last_dot_suffix (s +:+ e) = Some e'.
Proof.
  intros He. induction s as [|c r IH]; simpl; [exact He | now rewrite IH].
Qed.

Lemma supported_cases (P : string -> Prop) :
  P ".svg" -> P ".png" -> P ".jpg" -> P ".jpeg" ->
  forall e, e ∈ supportedFormats -> P e.
Proof.
  intros ? ? ? ? e He. unfold supportedFormats in He.
  repeat (apply elem_of_cons in He as [->|He]; [assumption|]).
  now apply elem_of_nil in He.
Qed.

Lemma supported_facts e :
  e ∈ supportedFormats ->
  Path.last_dot_suffix e = Some e /\ toLowerCase e = e /\ e <> EmptyString
  /\ 4 <= String.length e.
Proof.
  revert e. apply supported_cases; repeat split; try discriminate; simpl; lia.
Qed.

Lemma extname_of_icon_file n e :
  n <> EmptyString -> e ∈ supportedFormats -> Path.extname (n +:+ e) = e.
Proof.
  intros Hn He. destruct n as [|c r]; [contradiction|].
  change (String c r +:+ e) with (String c (r +:+ e)).
  unfold Path.extname.
  destruct (supported_facts _ He) as (Hdot & _ & _ & Hlen).
  rewrite (last_dot_suffix_append r _ _ Hdot).
  destruct (String.eqb_spec (String c (r +:+ e)) "..") as [E|]; [|reflexivity].
  apply (f_equal String.length) in E. simpl in E. rewrite length_append in E.
  lia.
Qed.

Lemma basename_of_icon_file n e :
  n <> EmptyString -> e <> EmptyString -> Path.basename (n +:+ e) e = n.
Proof.
  intros Hn He. unfold Path.basename.
  destruct (String.eqb_spec e EmptyString); [contradiction|].
  destruct (String.eqb_spec e (n +:+ e)) as [E|_].
  { apply (f_equal String.length) in E. rewrite length_append in E.
    destruct n; [contradiction | simpl in E; lia]. }
  unfold Path.ends_with. rewrite length_append.
  replace (String.length n + String.length e - String.length e)
    with (String.length n) by lia.
  rewrite substring_suffix, String.eqb_refl.
  rewrite (proj2 (Nat.leb_le _ _)) by lia.
  apply substring_prefix.
Qed.

(** A file [n.ext] of a supported extension is listed as the icon [n]. *)
Lemma icon_of_icon_file b n e content :
  n <> EmptyString -> e ∈ supportedFormats ->
  icon_of_item b (n +:+ e, File content)
  = Some {| name := n; filename := n +:+ e; path := join b (n +:+ e);
            format := Path.slice1 e; size := String.length content |}.
Proof.
  intros Hn He. unfold icon_of_item. cbn [fst snd].
  rewrite (extname_of_icon_file _ _ Hn He).
  destruct (supported_facts _ He) as (_ & Hlow & Hne & _).
  rewrite Hlow, bool_decide_eq_true_2 by exact He.
  now rewrite basename_of_icon_file.
Qed.

Lemma elem_of_insert_sorted x y l : x ∈ insert_sorted y l <-> x = y \/ x ∈ l.
Proof.
  induction l as [|z l IH]; simpl.
  - rewrite list_elem_of_singleton, elem_of_nil. tauto.
  - destruct (name_leb y z).
    + now rewrite elem_of_cons.
    + rewrite !elem_of_cons, IH. tauto.
Qed.

Lemma elem_of_sort_icons x l : x ∈ sort_icons l <-> x ∈ l.
Proof.
  unfold sort_icons. induction l as [|y l IH]; simpl; [reflexivity|].
  now rewrite elem_of_insert_sorted, IH, elem_of_cons.
Qed.

(** Every file [n.ext] of a supported extension in a brand directory
    appears in the listing of the brand. *)
Lemma getIconsForBrand_lists B b fs dir n e content :
  sanitizeBrandName B = Ok b -> b <> EmptyString ->
  fs !! b = Some dir -> dir !! (n +:+ e) = Some (File content) ->
  n <> EmptyString -> e ∈ supportedFormats ->
  exists icons ic,
    getIconsForBrand B fs = Ok icons /\ ic ∈ icons
    /\ name ic = n /\ format ic = Path.slice1 e /\ filename ic = n +:+ e.
Proof.
  intros HB Hb Hdir Hfile Hn He.
  unfold getIconsForBrand. rewrite HB. cbn [bind_result].
  rewrite (getBrandDirectory_sanitized _ _ HB Hb). cbn [bind_result].
  rewrite Hdir.
  exists (sort_icons (omap (icon_of_item b) (map_to_list dir))),
    {| name := n; filename := n +:+ e; path := join b (n +:+ e);
       format := Path.slice1 e; size := String.length content |}.
  split; [reflexivity|]. split; [|repeat split].
  apply elem_of_sort_icons, list_elem_of_omap.
  exists (n +:+ e, File content). split.
  - now apply elem_of_map_to_list.
  - now apply icon_of_icon_file.
Qed.

(** *** Removal *)

Lemma existsIn_lookup b file fs dir :
  fs !! b = Some dir -> existsIn b file fs = bool_decide (is_Some (dir !! file)).
Proof. intros H. unfold existsIn. now rewrite H. Qed.

(** [removeIconFromBrand] when the first extension of the search order is
    present as a regular file. *)
Lemma removeIconFromBrand_svg B I fs b n dir content :
  sanitizeBrandName B = Ok b -> sanitizeIconName I = Ok n -> b <> EmptyString ->
  fs !! b = Some dir -> dir !! (n +:+ ".svg") = Some (File content) ->
  removeIconFromBrand B I fs
  = (Ok {| removed_brand := b; removed_name := n;
           removed_path := join b (n +:+ ".svg"); removed_format := "svg" |},
     <[b := delete (n +:+ ".svg") dir]> fs).
Proof.
  intros HB HI Hb Hdir Hfile.
  unfold removeIconFromBrand, bind, lift, get.
  rewrite HB, HI, (getBrandDirectory_sanitized _ _ HB Hb).
  rewrite (existsDir_lookup _ _ Hb), Hdir.
  rewrite bool_decide_eq_true_2 by eauto. cbn [negb].
  unfold supportedFormats, find_format.
  rewrite (existsIn_lookup _ _ _ _ Hdir), Hfile.
  rewrite bool_decide_eq_true_2 by eauto.
  unfold try_catch, unlinkSync. now rewrite Hdir, Hfile.
Qed.

(** *** The claims about the asset store *)

(** C4.  After a successful [addIconToBrand(B, I, C, format)] the brand
    directory holds the file [normalize(I).format] with content [C] (and
    the listing of the brand shows an icon of that name when the name is
    not empty and the format is a supported one); a second call with the
    same brand, name and format, whatever its content, throws
    [ICON_EXISTS] and leaves the store as it is. *)
Theorem addIcon_twice_is_rejected B I C fmt fs added fs' :
  addIconToBrand B I C fmt fs = (Ok added, fs') ->
  exists b n dir,
    sanitizeBrandName B = Ok b /\ sanitizeIconName I = Ok n
    /\ added_brand added = b /\ added_name added = n
    /\ fs' !! b = Some dir
    /\ dir !! (n +:+ "." +:+ fmt) = Some (File C)
    /\ (n <> EmptyString -> "." +:+ fmt ∈ supportedFormats ->
        exists icons ic,
          getIconsForBrand B fs' = Ok icons /\ ic ∈ icons
          /\ name ic = n /\ format ic = fmt)
    /\ forall C',
         addIconToBrand B I C' fmt fs'
         = (Err (BrandManagerError "ICON_EXISTS"), fs').
Proof.
  intros Hadd.
  assert (Hno : ~ forall b n,
             sanitizeBrandName B = Ok b -> sanitizeIconName I = Ok n -> b = EmptyString).
  { intros R.
    destruct (addIconToBrand_rejected B I C fmt fs R) as (e' & He' & _).
    congruence. }
  destruct (sanitizeBrandName B) as [b|e] eqn:HB;
    [|exfalso; apply Hno; intros ? ? [=]].
  destruct (sanitizeIconName I) as [n|e] eqn:HI;
    [|exfalso; apply Hno; intros ? ? _ [=]].
  destruct (String.eqb_spec b EmptyString) as [->|Hb];
    [exfalso; apply Hno; congruence|].
  clear Hno.
  rewrite (addIconToBrand_sanitized _ _ _ _ _ _ _ HB HI Hb) in Hadd.
  cbn zeta in Hadd.
  destruct (bool_decide _) in Hadd; [discriminate|].
  destruct (_ && _) in Hadd; [discriminate|].
  injection Hadd as <- <-.
  set (file := n +:+ "." +:+ fmt).
  set (dir := <[file := File C]> (brand_dir b fs)).
  assert (Hdir : (<[b := dir]> fs : store) !! b = Some dir)
    by apply lookup_insert_eq.
  assert (Hfile : dir !! file = Some (File C)) by apply lookup_insert_eq.
  exists b, n, dir. repeat split; try assumption.
  - intros Hn He.
    destruct (getIconsForBrand_lists B b _ dir n ("." +:+ fmt) C HB Hb Hdir Hfile Hn He)
      as (icons & ic & H1 & H2 & H3 & H4 & _).
    exists icons, ic. auto.
  - intros C'.
    rewrite (addIconToBrand_sanitized _ _ _ _ _ _ _ HB HI Hb). cbn zeta.
    rewrite (brand_dir_lookup _ _ _ Hdir), (with_brand_present _ _ _ Hdir).
    fold file. now rewrite bool_decide_eq_true_2 by eauto.
Qed.

Lemma addIcon_twice_is_rejected_witness :
  exists b n dir,
    sanitizeBrandName "Global" = Ok b /\ sanitizeIconName "Ice Cream" = Ok n
    /\ added_brand (mkAdded "global" "ice-cream" "ice-cream.svg"
                      "global/ice-cream.svg" "svg") = b
    /\ added_name (mkAdded "global" "ice-cream" "ice-cream.svg"
                     "global/ice-cream.svg" "svg") = n
    /\ (<["global" := <["ice-cream.svg" := File "<svg/>"]> ∅]> ∅ : store) !! b
       = Some dir
    /\ dir !! (n +:+ "." +:+ "svg") = Some (File "<svg/>")
    /\ (n <> EmptyString -> "." +:+ "svg" ∈ supportedFormats ->
        exists icons ic,
          getIconsForBrand "Global"
            (<["global" := <["ice-cream.svg" := File "<svg/>"]> ∅]> ∅)
          = Ok icons /\ ic ∈ icons
          /\ name ic = n /\ format ic = "svg")
    /\ forall C',
         addIconToBrand "Global" "Ice Cream" C' "svg"
           (<["global" := <["ice-cream.svg" := File "<svg/>"]> ∅]> ∅)
         = (Err (BrandManagerError "ICON_EXISTS"),
            <["global" := <["ice-cream.svg" := File "<svg/>"]> ∅]> ∅).
Proof.
  apply (addIcon_twice_is_rejected "Global" "Ice Cream" "<svg/>" "svg" ∅).
  vm_compute. reflexivity.
Defined.

Lemma brand_dir_with_brand b b' fs :
  brand_dir b' (with_brand b fs) = brand_dir b' fs.
Proof.
  unfold with_brand, brand_dir. destruct (fs !! b) eqn:E; [reflexivity|].
  destruct (decide (b = b')) as [<-|Hne].
  - now rewrite lookup_insert_eq, E.
  - now rewrite lookup_insert_ne.
Qed.

(** Content without [<svg] offered as [svg] is always refused, no file is
    written (at most the empty brand directory is made), and the code of
    the error that reaches the caller is never [INVALID_SVG_CONTENT]. *)
Lemma addIcon_without_svg_tag B I C fs :
  includes C "<svg" = false ->
  exists e fs',
    addIconToBrand B I C "svg" fs = (Err e, fs')
    /\ has_code e "INVALID_SVG_CONTENT" = false
    /\ forall b, brand_dir b fs' = brand_dir b fs.
Proof.
  intros HC.
  assert (Hrej :
    (forall b n,
       sanitizeBrandName B = Ok b -> sanitizeIconName I = Ok n -> b = EmptyString) ->
    exists e fs',
      addIconToBrand B I C "svg" fs = (Err e, fs')
      /\ has_code e "INVALID_SVG_CONTENT" = false
      /\ forall b, brand_dir b fs' = brand_dir b fs).
  { intros R.
    destruct (addIconToBrand_rejected B I C "svg" fs R) as (e' & -> & [->| ->]);
      eexists _, _; repeat split. }
  destruct (sanitizeBrandName B) as [b|e] eqn:HB;
    [|apply Hrej; intros ? ? [=]].
  destruct (sanitizeIconName I) as [n|e] eqn:HI;
    [|apply Hrej; intros ? ? _ [=]].
  destruct (String.eqb_spec b EmptyString) as [->|Hb];
    [apply Hrej; congruence|].
  clear Hrej.
  rewrite (addIconToBrand_sanitized _ _ _ _ _ _ _ HB HI Hb). cbn zeta.
  rewrite HC. cbn [String.eqb negb andb].
  change ("svg" =? "svg")%string with true. cbn [andb].
  destruct (bool_decide _); eexists _, _; (split; [reflexivity|]);
    (split; [reflexivity|]); intros b'; apply brand_dir_with_brand.
Qed.

(** C6.  On an empty store, [addIconToBrand('global', 'logo', C, 'svg')]
    with content [C] that has no [<svg] writes no file, but the error the
    caller receives carries the code [ADD_ICON_ERROR]: the error with code
    [INVALID_SVG_CONTENT] is thrown inside the [try] block of the function
    and replaced by its [catch] block. *)
Theorem addIcon_invalid_content_code :
  addIconToBrand "global" "logo" "not a vector" "svg" ∅
  = (Err (BrandManagerErrorFrom "ADD_ICON_ERROR"
            (BrandManagerError "INVALID_SVG_CONTENT")),
     <["global" := ∅]> ∅)
  /\ includes "not a vector" "<svg" = false
  /\ err_code (BrandManagerErrorFrom "ADD_ICON_ERROR"
                 (BrandManagerError "INVALID_SVG_CONTENT"))
     = Some "ADD_ICON_ERROR".
Proof. split; [vm_compute; reflexivity | split; reflexivity]. Qed.

(** C10.  When a brand directory holds [n.png] and no [n.svg] for the
    normalized name [n] of [I], adding [I] as [svg] with content that has
    an [<svg] tag succeeds; the listing of the brand then has two icons
    named [n], one of format [svg] and one of format [png]; and
    [removeIconFromBrand(B, I)] removes the [svg] file, the first of the
    search order, which leaves the store exactly as it was before the
    addition, with [n.png] untouched. *)
Theorem duplicates_are_per_format B I C fs b n dir png :
  sanitizeBrandName B = Ok b -> sanitizeIconName I = Ok n ->
  b <> EmptyString -> n <> EmptyString ->
  fs !! b = Some dir ->
  dir !! (n +:+ ".png") = Some (File png) ->
  dir !! (n +:+ ".svg") = None ->
  includes C "<svg" = true ->
  exists added fs1,
    addIconToBrand B I C "svg" fs = (Ok added, fs1)
    /\ (exists icons i1 i2,
          getIconsForBrand B fs1 = Ok icons
          /\ i1 ∈ icons /\ i2 ∈ icons
          /\ name i1 = n /\ name i2 = n
          /\ format i1 = "svg" /\ format i2 = "png")
    /\ (exists removed,
          removeIconFromBrand B I fs1 = (Ok removed, fs)
          /\ removed_format removed = "svg"
          /\ supportedFormats = [".svg"; ".png"; ".jpg"; ".jpeg"]).
Proof.
  intros HB HI Hb Hn Hdir Hpng Hsvg HC.
  rewrite (addIconToBrand_sanitized _ _ _ _ _ _ _ HB HI Hb). cbn zeta.
  rewrite (brand_dir_lookup _ _ _ Hdir).
  change (n +:+ "." +:+ "svg") with (n +:+ ".svg").
  rewrite Hsvg, bool_decide_eq_false_2 by (intros [? ?]; discriminate).
  rewrite HC, andb_false_r.
  set (dir1 := <[n +:+ ".svg" := File C]> dir).
  assert (Hdir1 : (<[b := dir1]> fs : store) !! b = Some dir1)
    by apply lookup_insert_eq.
  assert (Hsvg1 : dir1 !! (n +:+ ".svg") = Some (File C))
    by apply lookup_insert_eq.
  assert (Hpng1 : dir1 !! (n +:+ ".png") = Some (File png)).
  { unfold dir1. rewrite lookup_insert_ne; [exact Hpng|].
    intros E. rewrite E in Hsvg. congruence. }
  eexists _, _. split; [reflexivity|]. split.
  - assert (Hs : ".svg" ∈ supportedFormats) by (unfold supportedFormats; rewrite !elem_of_cons; tauto).
    assert (Hp : ".png" ∈ supportedFormats) by (unfold supportedFormats; rewrite !elem_of_cons; tauto).
    unfold getIconsForBrand. rewrite HB. cbn [bind_result].
    rewrite (getBrandDirectory_sanitized _ _ HB Hb). cbn [bind_result].
    rewrite Hdir1.
    eexists _, _, _. split; [reflexivity|].
    split; [|split].
    + apply elem_of_sort_icons, list_elem_of_omap.
      exists (n +:+ ".svg", File C). split.
      * now apply elem_of_map_to_list.
      * now apply icon_of_icon_file.
    + apply elem_of_sort_icons, list_elem_of_omap.
      exists (n +:+ ".png", File png). split.
      * now apply elem_of_map_to_list.
      * now apply icon_of_icon_file.
    + repeat split.
  - rewrite (removeIconFromBrand_svg _ _ _ _ _ _ _ HB HI Hb Hdir1 Hsvg1).
    assert (Hback :
      (<[b := delete (n +:+ ".svg") dir1]> (<[b := dir1]> fs) : store) = fs).
    { unfold dir1. rewrite delete_insert_eq, insert_insert_eq.
      rewrite delete_id by exact Hsvg. now apply insert_id. }
    rewrite Hback. eexists. split; [reflexivity | split; reflexivity].
Qed.

Lemma duplicates_are_per_format_witness :
  exists added fs1,
    addIconToBrand "Global" "Logo" "<svg/>" "svg"
      (<["global" := <["logo.png" := File "PNG"]> ∅]> ∅) = (Ok added, fs1)
    /\ (exists icons i1 i2,
          getIconsForBrand "Global" fs1 = Ok icons
          /\ i1 ∈ icons /\ i2 ∈ icons
          /\ name i1 = "logo" /\ name i2 = "logo"
          /\ format i1 = "svg" /\ format i2 = "png")
    /\ (exists removed,
          removeIconFromBrand "Global" "Logo" fs1
          = (Ok removed, <["global" := <["logo.png" := File "PNG"]> ∅]> ∅)
          /\ removed_format removed = "svg"
          /\ supportedFormats = [".svg"; ".png"; ".jpg"; ".jpeg"]).
Proof.
  apply (duplicates_are_per_format "Global" "Logo" "<svg/>"
           (<["global" := <["logo.png" := File "PNG"]> ∅]> ∅)
           "global" "logo" (<["logo.png" := File "PNG"]> ∅) "PNG");
    try reflexivity; try discriminate.
Defined.

End AssetStore.

(** ** The retry policy *)
Section Retry.

Import FigmaApiService.

Context {A : Type}.
Variable requestFn : nat -> result A.
Variable retryDelay : Z.

Local Abbreviation backoffs := (FigmaApiService.backoffs retryDelay).
Local Abbreviation retried_until := (FigmaApiService.retried_until requestFn).

Lemma backoffs_S k :
  backoffs (S k) = (backoffs k ++ [backoff retryDelay k])%list.
Proof. unfold FigmaApiService.backoffs. now rewrite seq_S, map_app. Qed.

(** The loop, entered at index [i] after [i] failed attempts that were
    retried, stops at the first index [k] that is not retried. *)
Lemma retry_loop_stops attempts k : forall fuel i,
  i <= k -> k < i + fuel ->
  (forall j, i <= j < k ->
     exists e, requestFn j = Err e /\ is_auth_error e = false
               /\ j <> attempts - 1) ->
  retry_loop requestFn retryDelay attempts fuel i (backoffs i)
  = match requestFn k with
    | Ok v => mkRun (Ok (Some v)) (S k) (backoffs k)
    | Err e =>
        if (k =? attempts - 1)%nat || is_auth_error e
        then mkRun (Err e) (S k) (backoffs k)
        else retry_loop requestFn retryDelay attempts (i + fuel - S k) (S k)
               (backoffs (S k))
    end.
Proof.
  induction fuel as [|fuel IH]; intros i Hik Hk Hbefore; [lia|].
  destruct (decide (i = k)) as [->|Hne].
  - cbn [retry_loop]. destruct (requestFn k) as [v|e]; [reflexivity|].
    destruct (k =? attempts - 1)%nat; [reflexivity|].
    destruct (is_auth_error e); [reflexivity|]. cbn [orb].
    rewrite backoffs_S. f_equal. lia.
  - cbn [retry_loop].
    destruct (Hbefore i) as (e & -> & Hauth & Hlast); [lia|].
    rewrite (proj2 (Nat.eqb_neq _ _) Hlast), Hauth, <- backoffs_S.
    rewrite (IH (S i)); [|lia|lia|intros j Hj; apply Hbefore; lia].
    replace (S i + fuel - S k) with (i + S fuel - S k) by lia. reflexivity.
Qed.

(** What [retryRequest] does up to the first attempt that is not retried. *)
Lemma retryRequest_run attempts k :
  k < attempts -> retried_until k ->
  retryRequest requestFn retryDelay attempts
  = match requestFn k with
    | Ok v => mkRun (Ok (Some v)) (S k) (backoffs k)
    | Err e =>
        if (k =? attempts - 1)%nat || is_auth_error e
        then mkRun (Err e) (S k) (backoffs k)
        else retry_loop requestFn retryDelay attempts (attempts - S k) (S k)
               (backoffs (S k))
    end.
Proof.
  intros Hk Hret. unfold retryRequest.
  change (@nil Z) with (backoffs 0).
  rewrite (retry_loop_stops attempts k attempts 0); [reflexivity|lia|lia|].
  intros j Hj. destruct (Hret j) as (e & He & Hauth); [lia|].
  exists e. repeat split; [assumption|assumption|lia].
Qed.

Lemma is_auth_error_codes e :
  is_auth_error e = true
  <-> err_code e = Some "HTTP_401" \/ err_code e = Some "HTTP_403".
Proof.
  unfold is_auth_error, has_code. rewrite orb_true_iff.
  destruct (err_code e) as [c|].
  - rewrite !String.eqb_eq.
    split; intros [H|H];
      [left; now rewrite H | right; now rewrite H
      | left; now injection H | right; now injection H].
  - split; intros [H|H]; discriminate.
Qed.

Lemma not_auth_error_codes e :
  is_auth_error e = false
  <-> err_code e <> Some "HTTP_401" /\ err_code e <> Some "HTTP_403".
Proof.
  rewrite <- not_true_iff_false, is_auth_error_codes. tauto.
Qed.

(** X21. The schedule of [retryRequest], for a positive number of attempts.
    The attempts before the one of index [k] are retried when each of them
    throws an error whose code is neither [HTTP_401] nor [HTTP_403]; the
    sleeps they are followed by last [retryDelay], [2 * retryDelay],
    [4 * retryDelay], ...: [retryDelay * 2^i] after the attempt of index
    [i].  An error with code [HTTP_401] or [HTTP_403] at attempt [k] is
    thrown at once, after [k + 1] invocations and [k] sleeps; when all the
    attempts are retried or fail last, [attempts] invocations and
    [attempts - 1] sleeps are made and the error of the last attempt is
    thrown; and the value of the first attempt that succeeds is
    returned. *)
Theorem retryRequest_schedule (attempts : nat) :
  0 < attempts ->
  (forall k e,
     k < attempts ->
     (forall j, j < k ->
        exists e', requestFn j = Err e'
          /\ err_code e' <> Some "HTTP_401" /\ err_code e' <> Some "HTTP_403") ->
     requestFn k = Err e ->
     err_code e = Some "HTTP_401" \/ err_code e = Some "HTTP_403" ->
     retryRequest requestFn retryDelay attempts
     = mkRun (Err e) (S k)
         (map (fun i => (retryDelay * 2 ^ Z.of_nat i)%Z) (seq 0 k)))
  /\ ((forall j, j < attempts - 1 ->
         exists e', requestFn j = Err e'
           /\ err_code e' <> Some "HTTP_401" /\ err_code e' <> Some "HTTP_403") ->
      forall e,
        requestFn (attempts - 1) = Err e ->
        retryRequest requestFn retryDelay attempts
        = mkRun (Err e) attempts
            (map (fun i => (retryDelay * 2 ^ Z.of_nat i)%Z)
               (seq 0 (attempts - 1))))
  /\ (forall k v,
        k < attempts ->
        (forall j, j < k ->
           exists e', requestFn j = Err e'
             /\ err_code e' <> Some "HTTP_401"
             /\ err_code e' <> Some "HTTP_403") ->
        requestFn k = Ok v ->
        retryRequest requestFn retryDelay attempts
        = mkRun (Ok (Some v)) (S k)
            (map (fun i => (retryDelay * 2 ^ Z.of_nat i)%Z) (seq 0 k))).
Proof.
  intros Hpos.
  assert (Hret : forall k,
    (forall j, j < k ->
       exists e', requestFn j = Err e'
         /\ err_code e' <> Some "HTTP_401" /\ err_code e' <> Some "HTTP_403") ->
    retried_until k).
  { intros k H j Hj. destruct (H j Hj) as (e' & He' & Hcodes).
    exists e'. split; [exact He' | now apply not_auth_error_codes]. }
  change (fun i => (retryDelay * 2 ^ Z.of_nat i)%Z) with (backoff retryDelay).
  repeat split.
  - intros k e Hk Hbefore He Hauth.
    rewrite (retryRequest_run attempts k Hk (Hret _ Hbefore)), He.
    apply is_auth_error_codes in Hauth. rewrite Hauth.
    now rewrite orb_true_r.
  - intros Hbefore e He.
    rewrite (retryRequest_run attempts (attempts - 1)); [|lia|now apply Hret].
    rewrite He, Nat.eqb_refl. cbn [orb].
    replace (S (attempts - 1)) with attempts by lia. reflexivity.
  - intros k v Hk Hbefore Hv.
    now rewrite (retryRequest_run attempts k Hk (Hret _ Hbefore)), Hv.
Qed.

End Retry.

Lemma retryRequest_schedule_witness :
  (* an authorization error at the second attempt *)
  FigmaApiService.retryRequest
    (fun k => if (k <? 1)%nat then Err (FigmaApiError "HTTP_500")
              else Err (FigmaApiError "HTTP_403") : result nat)
    1000 3
  = FigmaApiService.mkRun (Err (FigmaApiError "HTTP_403")) 2 [1000%Z]
  (* three failures that are retried *)
  /\ FigmaApiService.retryRequest
       (fun k => Err (FigmaApiError "NETWORK_ERROR") : result nat) 1000 3
     = FigmaApiService.mkRun (Err (FigmaApiError "NETWORK_ERROR")) 3
         [1000%Z; 2000%Z]
  (* a success at the fourth attempt of five *)
  /\ FigmaApiService.retryRequest
       (fun k => if (k <? 3)%nat then Err (FigmaApiError "HTTP_500")
                 else Ok 7 : result nat)
       1000 5
     = FigmaApiService.mkRun (Ok (Some 7)) 4 [1000%Z; 2000%Z; 4000%Z].
Proof.
  split; [|split].
  - refine (proj1 (retryRequest_schedule
              (fun k => if (k <? 1)%nat then Err (FigmaApiError "HTTP_500")
                        else Err (FigmaApiError "HTTP_403") : result nat)
              1000 3 _) 1 (FigmaApiError "HTTP_403") _ _ _ _);
      [lia | lia | | reflexivity | right; reflexivity].
    intros j Hj. exists (FigmaApiError "HTTP_500").
    destruct j; [repeat split; discriminate | lia].
  - refine (proj1 (proj2 (retryRequest_schedule
              (fun k => Err (FigmaApiError "NETWORK_ERROR") : result nat)
              1000 3 _)) _ (FigmaApiError "NETWORK_ERROR") _);
      [lia | | reflexivity].
    intros j Hj. exists (FigmaApiError "NETWORK_ERROR").
    repeat split; discriminate.
  - refine (proj2 (proj2 (retryRequest_schedule
              (fun k => if (k <? 3)%nat then Err (FigmaApiError "HTTP_500")
                        else Ok 7 : result nat)
              1000 5 _)) 3 7 _ _ _); [lia | lia | | reflexivity].
    intros j Hj. exists (FigmaApiError "HTTP_500").
    destruct j as [|[|[|j]]];
      [repeat split; discriminate .. | lia].
Defined.

(** C8.  Not every request wrapped by [retryRequest] is given up on an
    authentication error.  [retryRequest] recognizes such an error by the
    code [HTTP_401] or [HTTP_403], which the response interceptor of
    [this.client] puts on the errors of the requests made through that
    client: a [403] answer to such a request is thrown after one
    invocation, without a sleep.  [downloadSvg] wraps a request made with
    [axios.get] itself, which no interceptor is installed on: the error of
    a [401] or [403] answer to a download carries the client's code, the
    answer is taken for a transient failure, and with the default settings
    ([retryAttempts] 3, [retryDelay] 1000) the download is requested three
    times, with sleeps of 1000 and 2000 ms, before the error is thrown. *)
Theorem download_auth_error_is_retried :
  FigmaAdapter.downloadSvg (FigmaAdapter.mkSettings 3 1000)
    (fun _ => FigmaApiService.axios_get
                (FigmaApiService.Responded 403 "Forbidden"))
    "https://cdn/icon" "hamburger"
  = FigmaApiService.mkRun
      (Err (AxiosError (Some "ERR_BAD_REQUEST") (Some 403))) 3
      [1000%Z; 2000%Z]
  /\ FigmaAdapter.downloadSvg (FigmaAdapter.mkSettings 3 1000)
       (fun _ => FigmaApiService.axios_get
                   (FigmaApiService.Responded 401 "Unauthorized"))
       "https://cdn/icon" "hamburger"
     = FigmaApiService.mkRun
         (Err (AxiosError (Some "ERR_BAD_REQUEST") (Some 401))) 3
         [1000%Z; 2000%Z]
  /\ FigmaApiService.retryRequest
       (fun _ => FigmaApiService.client_get
                   (FigmaApiService.Responded 403 "Forbidden"))
       1000 3
     = FigmaApiService.mkRun (Err (FigmaApiError "HTTP_403")) 1 []
  /\ FigmaApiService.retryRequest
       (fun _ => FigmaApiService.client_get
                   (FigmaApiService.Responded 401 "Unauthorized"))
       1000 3
     = FigmaApiService.mkRun (Err (FigmaApiError "HTTP_401")) 1 [].
Proof. repeat split; vm_compute; reflexivity. Qed.

(** ** The token registry *)
Section Registry.

Import TokenManager.

Lemma build_tokens_Forall (P : string * token -> Prop) figmaIcons :
  (forall brandName icons icon,
     (brandName, icons) ∈ figmaIcons -> icon ∈ icons ->
     P (brandName +:+ "-" +:+ FigmaIconSync.name icon,
        FigmaIconSync.token_of brandName icon)) ->
  Forall P (FigmaIconSync.build_tokens figmaIcons).
Proof.
  unfold FigmaIconSync.build_tokens.
  assert (Hgen : forall acc, Forall P acc ->
    (forall brandName icons icon,
       (brandName, icons) ∈ figmaIcons -> icon ∈ icons ->
       P (brandName +:+ "-" +:+ FigmaIconSync.name icon,
          FigmaIconSync.token_of brandName icon)) ->
    Forall P
      (foldl (fun tokens (entry : string * list FigmaIconSync.remote_icon) =>
                foldl (fun tokens icon =>
                         obj_set tokens
                           (entry.1 +:+ "-" +:+ FigmaIconSync.name icon)
                           (FigmaIconSync.token_of entry.1 icon))
                      tokens entry.2)
             acc figmaIcons)).
  { induction figmaIcons as [|[brandName icons] rest IH]; intros acc Hacc H;
      [exact Hacc|].
    cbn [foldl fst snd]. apply IH.
    - assert (Hin : forall icon, icon ∈ icons ->
                P (brandName +:+ "-" +:+ FigmaIconSync.name icon,
                   FigmaIconSync.token_of brandName icon))
        by (intros icon Hi; apply (H brandName icons); [left | exact Hi]).
      clear H IH. revert acc Hacc.
      induction icons as [|icon icons IHi]; intros acc Hacc; [exact Hacc|].
      cbn [foldl]. apply IHi.
      + intros i Hi. apply Hin. now right.
      + apply obj_set_Forall; [apply Hin; left | exact Hacc].
    - intros b l i Hb Hi. apply (H b l); [now right | exact Hi]. }
  intros H. apply Hgen; [constructor | exact H].
Qed.

Lemma no_key_mismatch_push cond e errors :
  is_key_mismatch e = false ->
  no_key_mismatch (push_if cond e errors) = no_key_mismatch errors.
Proof.
  intros He. unfold push_if, no_key_mismatch. destruct cond; [|reflexivity].
  rewrite forallb_app. simpl. rewrite He. simpl. now rewrite !andb_true_r.
Qed.

Lemma validate_entries_consistent entries : forall errors errors',
  Forall consistent entries ->
  validate_entries entries errors = Ok errors' ->
  no_key_mismatch errors' = no_key_mismatch errors.
Proof.
  induction entries as [|[key t] entries IH]; intros errors errors' Hall Hv.
  - injection Hv as <-. reflexivity.
  - inversion Hall as [|? ? Hkey Hrest]; subst. unfold consistent in Hkey.
    cbn [fst snd] in Hkey. cbn [validate_entries] in Hv.
    unfold validate_entry, createTokenKey in Hv.
    destruct (String.eqb (brand t) EmptyString || String.eqb (name t) EmptyString);
      [discriminate|].
    cbn [bind_result] in Hv. rewrite <- Hkey, String.eqb_refl in Hv.
    cbn [negb push_if] in Hv.
    rewrite (IH _ _ Hrest Hv).
    now rewrite !no_key_mismatch_push.
Qed.

Lemma validate_entries_well_named entries : forall errors,
  Forall well_named entries -> validate_entries entries errors = Ok errors.
Proof.
  induction entries as [|[key t] entries IH]; intros errors Hall;
    [reflexivity|].
  inversion Hall as [|? ? (Hkey & Hv & Ht & Hb & Hn) Hrest]; subst.
  unfold consistent in Hkey. cbn [fst snd] in *. cbn [validate_entries].
  unfold validate_entry, createTokenKey.
  rewrite (proj2 (String.eqb_neq _ _) Hv), (proj2 (String.eqb_neq _ _) Ht),
    (proj2 (String.eqb_neq _ _) Hb), (proj2 (String.eqb_neq _ _) Hn).
  cbn [orb push_if bind_result]. rewrite <- Hkey, String.eqb_refl.
  cbn [negb push_if]. now apply IH.
Qed.

Lemma append_not_empty s t : t <> EmptyString -> s +:+ t <> EmptyString.
Proof. intros Ht. destruct s; simpl; [exact Ht | discriminate]. Qed.

(** C9.  Outside preview mode [updateTokensFile] replaces the tokens file
    by the registry built from the remote icon set; every entry of that
    registry is stored under the key [brand-name] made from its own
    [brand] and [name] fields, which is the key [createTokenKey] derives
    from them; [validateTokenStructure] run on it reports no key-mismatch
    error, and reports no error at all when no brand name and no icon name
    of the remote set is empty. *)
Theorem rebuilt_registry_keys_match opts figmaIcons s :
  FigmaIconSync.dryRun opts = false ->
  exists s',
    FigmaIconSync.updateTokensFile opts figmaIcons s = (Ok tt, s')
    /\ FigmaIconSync.tokensFile s'
       = Some (FigmaIconSync.build_tokens figmaIcons)
    /\ FigmaIconSync.fs s' = FigmaIconSync.fs s
    /\ (forall key t,
          (key, t) ∈ FigmaIconSync.build_tokens figmaIcons ->
          key = brand t +:+ "-" +:+ name t
          /\ (brand t <> EmptyString -> name t <> EmptyString ->
              createTokenKey (brand t) (name t) = Ok key))
    /\ (forall errors,
          validateTokenStructure (FigmaIconSync.build_tokens figmaIcons)
          = Ok errors ->
          no_key_mismatch errors = true)
    /\ ((forall brandName icons icon,
           (brandName, icons) ∈ figmaIcons -> icon ∈ icons ->
           brandName <> EmptyString /\ FigmaIconSync.name icon <> EmptyString) ->
        validateTokenStructure (FigmaIconSync.build_tokens figmaIcons)
        = Ok []).
Proof.
  intros Hdry.
  assert (Hcons : Forall consistent (FigmaIconSync.build_tokens figmaIcons))
    by (apply build_tokens_Forall; intros; reflexivity).
  unfold FigmaIconSync.updateTokensFile. rewrite Hdry.
  eexists. split; [reflexivity|]. repeat split.
  - rewrite Forall_forall in Hcons. apply (Hcons _ H).
  - intros Hb Hn. rewrite Forall_forall in Hcons.
    pose proof (Hcons _ H) as Hkey. unfold consistent in Hkey.
    cbn [fst snd] in Hkey. unfold createTokenKey.
    rewrite (proj2 (String.eqb_neq _ _) Hb), (proj2 (String.eqb_neq _ _) Hn).
    cbn [orb]. now rewrite Hkey.
  - intros errors Hv.
    now rewrite (validate_entries_consistent _ _ _ Hcons Hv).
  - intros Hnames. apply validate_entries_well_named.
    apply build_tokens_Forall. intros brandName icons icon Hb Hi.
    destruct (Hnames _ _ _ Hb Hi) as [Hbn Hin].
    repeat split; cbn [fst snd FigmaIconSync.token_of value type brand name];
      try assumption; try discriminate.
    apply append_not_empty. discriminate.
Qed.

End Registry.

Lemma rebuilt_registry_keys_match_witness :
  exists s',
    FigmaIconSync.updateTokensFile (FigmaIconSync.mkOptions "key" false)
      Scenario.remote_listing
      (FigmaIconSync.initial_state Scenario.local_store None)
    = (Ok tt, s')
    /\ FigmaIconSync.tokensFile s'
       = Some (FigmaIconSync.build_tokens Scenario.remote_listing)
    /\ FigmaIconSync.fs s'
       = FigmaIconSync.fs
           (FigmaIconSync.initial_state Scenario.local_store None)
    /\ (forall key t,
          (key, t) ∈ FigmaIconSync.build_tokens Scenario.remote_listing ->
          key = TokenManager.brand t +:+ "-" +:+ TokenManager.name t
          /\ (TokenManager.brand t <> EmptyString -> TokenManager.name t <> EmptyString ->
              TokenManager.createTokenKey (TokenManager.brand t)
                (TokenManager.name t) = Ok key))
    /\ (forall errors,
          TokenManager.validateTokenStructure
            (FigmaIconSync.build_tokens Scenario.remote_listing)
          = Ok errors ->
          TokenManager.no_key_mismatch errors = true)
    /\ ((forall brandName icons icon,
           (brandName, icons) ∈ Scenario.remote_listing -> icon ∈ icons ->
           brandName <> EmptyString /\ FigmaIconSync.name icon <> EmptyString) ->
        TokenManager.validateTokenStructure
          (FigmaIconSync.build_tokens Scenario.remote_listing)
        = Ok []).
Proof.
  apply (rebuilt_registry_keys_match (FigmaIconSync.mkOptions "key" false)
           Scenario.remote_listing
           (FigmaIconSync.initial_state Scenario.local_store None)).
  reflexivity.
Defined.

(** The registry of the scenario, read back. *)
Lemma scenario_registry :
  FigmaIconSync.build_tokens Scenario.remote_listing
  = [("global-hamburger",
      TokenManager.mkToken "global/hamburger.svg" "asset" "Hamburger icon"
        "global" "hamburger" "Hamburger");
     ("global-ice-cream",
      TokenManager.mkToken "global/ice-cream.svg" "asset" "Ice Cream icon"
        "global" "ice-cream" "Ice Cream")]
  /\ TokenManager.validateTokenStructure
       (FigmaIconSync.build_tokens Scenario.remote_listing) = Ok [].
Proof. split; reflexivity. Qed.

(** ** The synchronizer *)
Section Preview.

Import FigmaIconSync.

Lemma preserves_ret {A} (a : A) : preserves (ret a).
Proof. intros s. split; reflexivity. Qed.

Lemma preserves_throw {A} e : preserves (@throw state A e).
Proof. intros s. split; reflexivity. Qed.

Lemma preserves_lift {A} (r : result A) : preserves (lift r).
Proof. intros s. split; reflexivity. Qed.

Lemma preserves_get : preserves (@get state).
Proof. intros s. split; reflexivity. Qed.

Lemma preserves_update_results b f : preserves (update_results b f).
Proof. intros s. split; reflexivity. Qed.

Lemma preserves_update_stats f : preserves (update_stats f).
Proof. intros s. split; reflexivity. Qed.

Lemma preserves_bind {A B} (m : M state A) (k : A -> M state B) :
  preserves m -> (forall a, preserves (k a)) -> preserves (bind m k).
Proof.
  intros Hm Hk s. unfold bind. specialize (Hm s).
  destruct (m s) as [[a|e] s1]; cbn [snd] in *; [|exact Hm].
  destruct (Hk a s1) as [H1 H2]. destruct Hm as [H3 H4].
  split; congruence.
Qed.

Lemma preserves_try_catch {A} (m : M state A) (h : error -> M state A) :
  preserves m -> (forall e, preserves (h e)) -> preserves (try_catch m h).
Proof.
  intros Hm Hh s. unfold try_catch. specialize (Hm s).
  destruct (m s) as [[a|e] s1]; cbn [snd] in *; [exact Hm|].
  destruct (Hh e s1) as [H1 H2]. destruct Hm as [H3 H4].
  split; congruence.
Qed.

Lemma preserves_if {A} (c : bool) (m1 m2 : M state A) :
  preserves m1 -> preserves m2 -> preserves (if c then m1 else m2).
Proof. now destruct c. Qed.

Lemma preserves_for_each {X} (xs : list X) (body : X -> M state unit) :
  (forall x, preserves (body x)) -> preserves (for_each xs body).
Proof.
  intros Hbody. induction xs as [|x xs IH]; cbn [for_each].
  - apply preserves_ret.
  - apply preserves_bind; [apply Hbody | intros _; exact IH].
Qed.

Ltac preserve_step :=
  first
    [ apply preserves_ret | apply preserves_throw | apply preserves_lift
    | apply preserves_get | apply preserves_update_results
    | apply preserves_update_stats
    | apply preserves_for_each; intros ?
    | apply preserves_bind; [|intros ?]
    | apply preserves_try_catch; [|intros ?]
    | apply preserves_if ].

Ltac preserve := cbn zeta; repeat preserve_step.

Variable opts : options.
Variable figmaApi : figma_api.
Variable builtins : string -> string -> option bool.

Hypothesis preview : dryRun opts = true.

(** The adapter never throws an error that carries the asset store's code
    [ICON_EXISTS]: [downloadSvg] throws [FigmaApiError]s with the codes
    [MISSING_DOWNLOAD_PARAMS] and [INVALID_SVG_CONTENT] and the errors of
    the HTTP client. *)
Hypothesis download_codes : forall url iconName e,
  downloadSvg figmaApi url iconName = Err e -> has_code e "ICON_EXISTS" = false.

Lemma has_icon_code currentIcons iconName e :
  has_icon builtins currentIcons iconName = Err e ->
  has_code e "ICON_EXISTS" = false.
Proof.
  destruct currentIcons as [own|p]; cbn [has_icon]; [discriminate|].
  destruct (builtins p iconName); [discriminate|]. now intros [= <-].
Qed.

Lemma processIcon_preview brandName icon exportUrl currentIcons :
  preserves
    (processIcon opts figmaApi builtins brandName icon exportUrl currentIcons).
Proof.
  unfold processIcon. destruct (no_url exportUrl); [preserve|].
  intros s. unfold try_catch, bind, lift. rewrite preview.
  destruct (downloadSvg figmaApi exportUrl (name icon)) as [svgContent|e] eqn:E.
  - destruct (has_icon builtins currentIcons (name icon)) as [[|]|e] eqn:H;
      try (split; reflexivity).
    rewrite (has_icon_code _ _ _ H). split; reflexivity.
  - rewrite (download_codes _ _ _ E). split; reflexivity.
Qed.

Lemma handleRemovedIcons_preview brandName figmaIcons currentIcons :
  preserves (handleRemovedIcons opts brandName figmaIcons currentIcons).
Proof. unfold handleRemovedIcons. rewrite preview. preserve. Qed.

Lemma syncBrand_preview currentState entry :
  preserves (syncBrand opts figmaApi builtins currentState entry).
Proof.
  unfold syncBrand. rewrite preview. cbn [negb]. cbn zeta.
  repeat first [ apply processIcon_preview | apply handleRemovedIcons_preview
               | preserve_step ].
Qed.

Lemma updateTokensFile_preview figmaIcons :
  preserves (updateTokensFile opts figmaIcons).
Proof. unfold updateTokensFile. rewrite preview. preserve. Qed.

Lemma syncIcons_preview : preserves (syncIcons opts figmaApi builtins).
Proof.
  unfold syncIcons, downloadAndSyncIcons. cbn zeta.
  repeat first [ apply syncBrand_preview | apply updateTokensFile_preview
               | preserve_step ].
Qed.

End Preview.

(** C3.  In preview mode a run of [syncIcons] leaves the assets directory
    (brand directories and their files) and the tokens file exactly as
    they were, whatever the local state and whatever the remote adapter
    answers, whether the run returns or throws -- given that the adapter
    does not throw errors with the asset store's code [ICON_EXISTS]. *)
Theorem preview_never_mutates opts figmaApi builtins s :
  FigmaIconSync.dryRun opts = true ->
  (forall url iconName e,
     FigmaIconSync.downloadSvg figmaApi url iconName = Err e ->
     has_code e "ICON_EXISTS" = false) ->
  FigmaIconSync.fs (FigmaIconSync.syncIcons opts figmaApi builtins s).2
  = FigmaIconSync.fs s
  /\ FigmaIconSync.tokensFile
       (FigmaIconSync.syncIcons opts figmaApi builtins s).2
     = FigmaIconSync.tokensFile s.
Proof. intros Hdry Hcodes. now apply syncIcons_preview. Qed.

Lemma preview_never_mutates_witness :
  FigmaIconSync.fs Scenario.preview_run.2 = Scenario.local_store
  /\ FigmaIconSync.tokensFile Scenario.preview_run.2 = None.
Proof.
  apply (preview_never_mutates (FigmaIconSync.mkOptions "key" true)
           Scenario.figmaApi Scenario.builtins
           (FigmaIconSync.initial_state Scenario.local_store None)).
  - reflexivity.
  - intros [url| |] iconName e H; first [discriminate | now injection H as <-].
Defined.

(** The preview run of the scenario classifies [hamburger] as an update
    and [ice-cream] as an addition, with nothing removed. *)
Lemma scenario_preview_classification :
  Scenario.preview_run.1 = Ok tt
  /\ FigmaIconSync.results Scenario.preview_run.2
     = [("global",
         {| FigmaIconSync.added :=
              [FigmaIconSync.mkChange "ice-cream" (Some "Ice Cream") None
                 "would-add"];
            FigmaIconSync.updated :=
              [FigmaIconSync.mkChange "hamburger" (Some "Hamburger") None
                 "would-update"];
            FigmaIconSync.removed := [];
            FigmaIconSync.errors := [];
            FigmaIconSync.skipped := [] |})].
Proof. split; vm_compute; reflexivity. Qed.

(** C1.  The run of the scenario that applies the changes: adding
    [hamburger] throws [ICON_EXISTS], the [catch] block of [processIcon]
    removes the existing file and then fails on [svgContent], which is
    declared inside the [try] block.  The icon is recorded as an error,
    not as an update, and its file is gone: the brand lists [ice-cream]
    only. *)
Theorem scenario_apply_loses_hamburger :
  Scenario.apply_run.1 = Ok tt
  /\ FigmaIconSync.results Scenario.apply_run.2
     = [("global",
         {| FigmaIconSync.added :=
              [FigmaIconSync.mkChange "ice-cream" (Some "Ice Cream")
                 (Some "global/ice-cream.svg") "added"];
            FigmaIconSync.updated := [];
            FigmaIconSync.removed := [];
            FigmaIconSync.errors :=
              [FigmaIconSync.IconFailed "hamburger"
                 (ReferenceError "svgContent")];
            FigmaIconSync.skipped := [] |})]
  /\ FigmaIconSync.stat_updated (FigmaIconSync.syncStats Scenario.apply_run.2)
     = 0
  /\ Scenario.listed_names "global" Scenario.local_store = Ok ["hamburger"]
  /\ Scenario.listed_names "global" (FigmaIconSync.fs Scenario.apply_run.2)
     = Ok ["ice-cream"].
Proof. repeat split; vm_compute; reflexivity. Qed.

(** The fallback of [processIcon] never re-adds: whenever
    [addIconToBrand] throws [ICON_EXISTS] and the removal succeeds, the
    call throws the [ReferenceError]. *)
Lemma processIcon_fallback_throws opts figmaApi builtins brandName icon
    exportUrl currentIcons svgContent isUpdate s fs1 removed fs2 :
  FigmaIconSync.dryRun opts = false ->
  FigmaIconSync.no_url exportUrl = false ->
  FigmaIconSync.downloadSvg figmaApi exportUrl (FigmaIconSync.name icon)
  = Ok svgContent ->
  FigmaIconSync.has_icon builtins currentIcons (FigmaIconSync.name icon)
  = Ok isUpdate ->
  BrandManager.addIconToBrand brandName (FigmaIconSync.name icon) svgContent
    "svg" (FigmaIconSync.fs s)
  = (Err (BrandManagerError "ICON_EXISTS"), fs1) ->
  BrandManager.removeIconFromBrand brandName (FigmaIconSync.name icon) fs1
  = (Ok removed, fs2) ->
  exists s',
    FigmaIconSync.processIcon opts figmaApi builtins brandName icon exportUrl
      currentIcons s
    = (Err (ReferenceError "svgContent"), s')
    /\ FigmaIconSync.fs s' = fs2
    /\ FigmaIconSync.results s' = FigmaIconSync.results s.
Proof.
  intros Hdry Hurl Hdl Hhas Hadd Hrm.
  unfold FigmaIconSync.processIcon. rewrite Hurl.
  unfold try_catch, bind, lift, FigmaIconSync.liftFS.
  rewrite Hdl, Hhas, Hdry, Hadd.
  cbn [has_code err_code]. rewrite String.eqb_refl.
  cbn [FigmaIconSync.fs]. rewrite Hrm. cbn [throw].
  eexists. split; [reflexivity|]. split; reflexivity.
Qed.

(** ** The build pipeline *)
Section BuildPipeline.

Import MultiBrandBuilder.

Variable opts : options.
Variable ext : tools.
Variable assets : store.

Lemma set_cwd_back s dir : set_cwd (cwd s) (set_cwd dir s) = s.
Proof. now destruct s. Qed.

(** The font stage, awaited alone, for a brand whose directory exists: the
    working directory is restored when the font compiler returns and is
    left in the brand directory when it throws. *)
Lemma generateFontFiles_cwd brandName icons s b :
  BrandManager.getBrandDirectory brandName = Ok b ->
  BrandManager.existsDir b assets = true ->
  generateFontFiles opts ext assets brandName icons s
  = match webfont ext (absolute (assetsDir opts) b)
            (capitalize brandName +:+ "IconFont") with
    | Ok _ => (Ok tt, s)
    | Err e => (Err e, set_cwd (absolute (assetsDir opts) b) s)
    end.
Proof.
  intros Hb Hex.
  unfold generateFontFiles, run_alone, generateFontFilesAsync, atry, abind,
    sync, lift, get, chdir, await, external, pending, modify.
  rewrite Hb. cbn [then_task catch_task settle fst snd]. rewrite Hex.
  cbn [then_task catch_task settle fst snd cwd set_cwd pending].
  destruct (webfont ext _ _) as [[]|e];
    cbn [then_task catch_task settle fst snd cwd set_cwd throw pending];
    [|reflexivity].
  now rewrite set_cwd_back.
Qed.

(** When the brand directory is missing, [process.chdir] throws before the
    working directory has changed. *)
Lemma generateFontFiles_missing_dir brandName icons s b :
  BrandManager.getBrandDirectory brandName = Ok b ->
  BrandManager.existsDir b assets = false ->
  generateFontFiles opts ext assets brandName icons s
  = (Err (SystemError "ENOENT"), s).
Proof.
  intros Hb Hex.
  unfold generateFontFiles, run_alone, generateFontFilesAsync, atry, abind,
    sync, lift, get, chdir, throw.
  rewrite Hb. cbn [then_task catch_task settle fst snd]. now rewrite Hex.
Qed.

(** A brand whose listing is empty: [buildBrand] returns without running
    a stage and without throwing. *)
Lemma buildBrand_empty brandName s :
  BrandManager.getIconsForBrand brandName assets = Ok [] ->
  buildBrand opts ext assets brandName s = (Ok tt, s).
Proof.
  intros H. unfold buildBrand, run_alone, buildBrandAsync, atry, abind, sync, lift.
  now rewrite H.
Qed.

End BuildPipeline.

(** C2.  The font stage of the brand [global] with a font compiler that
    throws: the stage throws the compiler's error and the working
    directory stays in the brand's assets directory instead of returning to
    [/repo], where it was before the stage; [process.chdir(originalCwd)]
    is only reached when the compiler returns. *)
Theorem font_stage_failure_keeps_cwd :
  MultiBrandBuilder.generateFontFiles (Scenario.build_options [])
    (Scenario.tools_with (Err (ToolError "webfont failed")))
    Scenario.build_store "global" []
    (MultiBrandBuilder.initial_state "/repo")
  = (Err (ToolError "webfont failed"),
     MultiBrandBuilder.set_cwd "/repo/assets/global"
       (MultiBrandBuilder.initial_state "/repo"))
  /\ MultiBrandBuilder.cwd (MultiBrandBuilder.initial_state "/repo") = "/repo"
  /\ MultiBrandBuilder.generateFontFiles (Scenario.build_options [])
       (Scenario.tools_with (Ok tt))
       Scenario.build_store "global" []
       (MultiBrandBuilder.initial_state "/repo")
     = (Ok tt, MultiBrandBuilder.initial_state "/repo").
Proof. repeat split; vm_compute; reflexivity. Qed.

(** C5.  A build of the single brand [empty], whose directory holds no
    icon: [buildBrand] returns normally, so the build counts the brand as
    built, records no error against it and returns [true]. *)
Theorem empty_brand_counts_as_built :
  BrandManager.getIconsForBrand "empty" Scenario.build_store = Ok []
  /\ MultiBrandBuilder.build (Scenario.build_options ["empty"])
       (Scenario.tools_with (Ok tt)) Scenario.build_store
       (MultiBrandBuilder.initial_state "/repo")
     = (Ok true,
        {| MultiBrandBuilder.cwd := "/repo";
           MultiBrandBuilder.buildStats :=
             {| MultiBrandBuilder.totalBrands := 1;
                MultiBrandBuilder.totalIcons := 0;
                MultiBrandBuilder.errors := [] |} |}).
Proof. split; vm_compute; reflexivity. Qed.

(** A brand whose directory does not exist does fail the build, with
    [BRAND_NOT_FOUND] recorded against it. *)
Lemma missing_brand_fails_build :
  MultiBrandBuilder.build (Scenario.build_options ["missing"])
    (Scenario.tools_with (Ok tt)) Scenario.build_store
    (MultiBrandBuilder.initial_state "/repo")
  = (Ok false,
     {| MultiBrandBuilder.cwd := "/repo";
        MultiBrandBuilder.buildStats :=
          {| MultiBrandBuilder.totalBrands := 1;
             MultiBrandBuilder.totalIcons := 0;
             MultiBrandBuilder.errors :=
               [("missing", BrandManagerError "BRAND_NOT_FOUND")] |} |}).
Proof. vm_compute. reflexivity. Qed.

(** * Further properties *)

(** ** The asset store, continued *)
Section AssetStoreMore.

Import BrandManager.

(** *** The listing *)

Lemma getIconsForBrand_inv B fs icons :
  getIconsForBrand B fs = Ok icons ->
  exists b dir,
    sanitizeBrandName B = Ok b /\ b <> EmptyString /\ fs !! b = Some dir
    /\ icons = sort_icons (omap (icon_of_item b) (map_to_list dir)).
Proof.
  unfold getIconsForBrand. intros H.
  destruct (sanitizeBrandName B) as [b|e] eqn:HB; [|discriminate].
  cbn [bind_result] in H.
  destruct (String.eqb_spec b EmptyString) as [->|Hb]; [discriminate|].
  rewrite (getBrandDirectory_sanitized _ _ HB Hb) in H. cbn [bind_result] in H.
  destruct (fs !! b) as [dir|] eqn:Hdir; [|discriminate].
  injection H as <-. eauto 10.
Qed.

Lemma last_dot_suffix_length r e :
  Path.last_dot_suffix r = Some e -> String.length e <= String.length r.
Proof.
  revert e. induction r as [|c r IH]; intros e; simpl; [discriminate|].
  destruct (Path.last_dot_suffix r) as [e'|].
  - intros [= <-]. specialize (IH _ eq_refl). lia.
  - destruct (Ascii.eqb c "."); [|discriminate]. intros [= <-]. simpl. lia.
Qed.

Lemma extname_length item :
  Path.extname item = EmptyString
  \/ String.length (Path.extname item) < String.length item.
Proof.
  unfold Path.extname. destruct item as [|c r]; [now left|].
  destruct (Path.last_dot_suffix r) as [e|] eqn:E; [|now left].
  destruct (String.eqb _ _); [now left|]. right.
  apply last_dot_suffix_length in E. simpl. lia.
Qed.

Lemma toLowerCase_length s : String.length (toLowerCase s) = String.length s.
Proof.
  unfold toLowerCase. induction s; simpl; [reflexivity | now rewrite IHs].
Qed.

Lemma substring_not_empty n s :
  0 < n -> s <> EmptyString -> String.substring 0 n s <> EmptyString.
Proof. destruct s, n; simpl; try lia; try congruence; discriminate. Qed.

Lemma basename_not_empty item ext :
  String.length ext < String.length item ->
  Path.basename item ext <> EmptyString.
Proof.
  intros Hlen. unfold Path.basename.
  assert (Hitem : item <> EmptyString) by (destruct item; [simpl in Hlen; lia | discriminate]).
  destruct (String.eqb ext EmptyString); [exact Hitem|].
  destruct (String.eqb_spec ext item) as [->|_]; [lia|].
  destruct (Path.ends_with item ext); [|exact Hitem].
  apply substring_not_empty; [lia | exact Hitem].
Qed.

Lemma last_dot_suffix_split r e :
  Path.last_dot_suffix r = Some e -> exists p, r = p +:+ e.
Proof.
  revert e. induction r as [|c r IH]; intros e; simpl; [discriminate|].
  destruct (Path.last_dot_suffix r) as [e'|].
  - intros [= <-]. destruct (IH _ eq_refl) as [p ->]. now exists (String c p).
  - destruct (Ascii.eqb c "."); [|discriminate]. intros [= <-].
    now exists EmptyString.
Qed.

(** A file name with an extension is a non-empty stem followed by the
    extension. *)
Lemma extname_split item :
  Path.extname item <> EmptyString ->
  exists stem, item = stem +:+ Path.extname item /\ stem <> EmptyString.
Proof.
  unfold Path.extname. destruct item as [|c r]; [congruence|].
  destruct (Path.last_dot_suffix r) as [e|] eqn:He; [|congruence].
  destruct (String.eqb (String c r) ".."); [congruence|]. intros _.
  destruct (last_dot_suffix_split _ _ He) as [p ->].
  exists (String c p). split; [reflexivity | discriminate].
Qed.

Lemma append_longer stem ext e' :
  stem <> EmptyString -> String.length e' = String.length ext ->
  e' <> stem +:+ ext.
Proof.
  intros Hstem Hlen ->. rewrite length_append in Hlen.
  destruct stem; [congruence | cbn in Hlen; lia].
Qed.

(** [path.basename] removes an extension that is there as it is given,
    letter case included. *)
Lemma basename_split stem ext e' :
  stem <> EmptyString -> ext <> EmptyString ->
  String.length e' = String.length ext ->
  Path.basename (stem +:+ ext) e'
  = if String.eqb ext e' then stem else stem +:+ ext.
Proof.
  intros Hstem Hext Hlen. unfold Path.basename.
  assert (He' : e' <> EmptyString).
  { intros ->. destruct ext; [congruence | discriminate]. }
  rewrite (proj2 (String.eqb_neq _ _) He').
  rewrite (proj2 (String.eqb_neq _ _) (append_longer _ _ _ Hstem Hlen)).
  unfold Path.ends_with. rewrite length_append, Hlen.
  replace (String.length stem + String.length ext - String.length ext)
    with (String.length stem) by lia.
  rewrite substring_suffix, substring_prefix.
  replace (String.length ext <=? String.length stem + String.length ext)%nat
    with true by (symmetry; apply Nat.leb_le; lia).
  rewrite andb_true_r. reflexivity.
Qed.

Lemma icon_of_item_Some b item ic :
  icon_of_item b item = Some ic ->
  exists content stem ext,
    item.2 = File content /\ filename ic = item.1
    /\ path ic = join b item.1 /\ size ic = String.length content
    /\ ("." +:+ format ic) ∈ supportedFormats
    /\ name ic <> EmptyString
    /\ item.1 = stem +:+ ext /\ stem <> EmptyString
    /\ toLowerCase ext = "." +:+ format ic
    /\ name ic = (if String.eqb ext ("." +:+ format ic)
                  then stem else item.1).
Proof.
  unfold icon_of_item. destruct item as [file [content|]]; cbn [fst snd];
    [|discriminate].
  destruct (bool_decide _) eqn:Hext; [|discriminate].
  apply bool_decide_eq_true_1 in Hext. intros [= <-].
  cbn [filename path size format name].
  assert (Hne : Path.extname file <> EmptyString).
  { intros E. rewrite E in Hext. revert Hext. unfold supportedFormats.
    rewrite !elem_of_cons, elem_of_nil. cbn. intuition discriminate. }
  destruct (extname_split file Hne) as (stem & Hfile & Hstem).
  assert (Hdot : toLowerCase (Path.extname file)
                 = "." +:+ Path.slice1 (toLowerCase (Path.extname file))).
  { revert Hext. generalize (toLowerCase (Path.extname file)).
    apply supported_cases; reflexivity. }
  exists content, stem, (Path.extname file).
  rewrite <- Hdot. repeat split; try assumption.
  - apply basename_not_empty. rewrite toLowerCase_length.
    destruct (extname_length file) as [E|]; [congruence | assumption].
  - rewrite Hfile at 1.
    rewrite basename_split;
      [| assumption | assumption | apply toLowerCase_length].
    now rewrite <- Hfile.
Qed.

(** X1. Every icon of a listing is a regular file of the brand directory.
    Its file name is a non-empty stem followed by an extension that is, up
    to letter case, [.svg], [.png], [.jpg] or [.jpeg]; its format is that
    extension in lower case without the dot; its name is the stem when the
    extension is written in lower case, and the whole file name otherwise
    ([a.SVG] is listed with name [a.SVG] and format [svg]).  So
    sub-directories, files with another extension and files whose name is
    only an extension, such as [.svg], are never listed. *)
Theorem getIconsForBrand_sound B fs icons ic :
  getIconsForBrand B fs = Ok icons -> ic ∈ icons ->
  exists b dir content stem ext,
    sanitizeBrandName B = Ok b /\ fs !! b = Some dir
    /\ dir !! filename ic = Some (File content)
    /\ path ic = join b (filename ic)
    /\ size ic = String.length content
    /\ ("." +:+ format ic) ∈ supportedFormats
    /\ name ic <> EmptyString
    /\ filename ic = stem +:+ ext /\ stem <> EmptyString
    /\ toLowerCase ext = "." +:+ format ic
    /\ format ic ∈ ["svg"; "png"; "jpg"; "jpeg"]
    /\ name ic = (if String.eqb ext ("." +:+ format ic)
                  then stem else filename ic).
Proof.
  intros (b & dir & HB & _ & Hdir & ->)%getIconsForBrand_inv Hin.
  apply elem_of_sort_icons, list_elem_of_omap in Hin as (item & Hitem & Hic).
  destruct (icon_of_item_Some _ _ _ Hic)
    as (content & stem & ext & H2 & Hf & Hp & Hs & He & Hn & Hsplit & Hstem
        & Hlow & Hname).
  destruct item as [file e]. cbn [fst snd] in *. subst e.
  apply elem_of_map_to_list in Hitem.
  exists b, dir, content, stem, ext. rewrite Hf.
  repeat split; try assumption.
  revert He. generalize (format ic). intros f Hf'.
  unfold supportedFormats in Hf'. rewrite !elem_of_cons, elem_of_nil in Hf'.
  rewrite !elem_of_cons.
  destruct Hf' as [H|[H|[H|[H|[]]]]]; injection H as H; cbv in H; subst f;
    tauto.
Qed.

Lemma getIconsForBrand_sound_witness :
  let fs : store :=
    <["global" := <["sub" := Subdir]>
                    (<[".svg" := File "x"]>
                       (<["notes.txt" := File "<svg/>"]>
                          (<["b.svg" := File "<svg></svg>"]>
                             (<["a.SVG" := File "<svg/>"]> ∅))))]> ∅ in
  let upper := mkIcon "a.SVG" "a.SVG" "global/a.SVG" "svg" 6 in
  let lower := mkIcon "b" "b.svg" "global/b.svg" "svg" 11 in
  getIconsForBrand "Global" fs = Ok [upper; lower]
  /\ (exists b dir content stem ext,
         sanitizeBrandName "Global" = Ok b /\ fs !! b = Some dir
         /\ dir !! filename upper = Some (File content)
         /\ path upper = join b (filename upper)
         /\ size upper = String.length content
         /\ ("." +:+ format upper) ∈ supportedFormats
         /\ name upper <> EmptyString
         /\ filename upper = stem +:+ ext /\ stem <> EmptyString
         /\ toLowerCase ext = "." +:+ format upper
         /\ format upper ∈ ["svg"; "png"; "jpg"; "jpeg"]
         /\ name upper = (if String.eqb ext ("." +:+ format upper)
                       then stem else filename upper))
  /\ (exists b dir content stem ext,
         sanitizeBrandName "Global" = Ok b /\ fs !! b = Some dir
         /\ dir !! filename lower = Some (File content)
         /\ path lower = join b (filename lower)
         /\ size lower = String.length content
         /\ ("." +:+ format lower) ∈ supportedFormats
         /\ name lower <> EmptyString
         /\ filename lower = stem +:+ ext /\ stem <> EmptyString
         /\ toLowerCase ext = "." +:+ format lower
         /\ format lower ∈ ["svg"; "png"; "jpg"; "jpeg"]
         /\ name lower = (if String.eqb ext ("." +:+ format lower)
                       then stem else filename lower)).
Proof.
  intros fs upper lower.
  assert (H : getIconsForBrand "Global" fs = Ok [upper; lower])
    by (vm_compute; reflexivity).
  split; [exact H|]. split.
  - apply (getIconsForBrand_sound "Global" fs [upper; lower] upper H).
    apply list_elem_of_here.
  - apply (getIconsForBrand_sound "Global" fs [upper; lower] lower H).
    apply list_elem_of_further, list_elem_of_here.
Defined.

(** *** Counting *)

Lemma length_insert_sorted x l : length (insert_sorted x l) = S (length l).
Proof.
  induction l as [|y l IH]; simpl; [reflexivity|].
  destruct (name_leb x y); simpl; [reflexivity | now rewrite IH].
Qed.

Lemma length_sort_icons l : length (sort_icons l) = length l.
Proof.
  unfold sort_icons. induction l as [|x l IH]; simpl; [reflexivity|].
  now rewrite length_insert_sorted, IH.
Qed.

Lemma omap_cons {X Y} (f : X -> option Y) x l :
  omap f (x :: l) = match f x with Some y => y :: omap f l | None => omap f l end.
Proof. reflexivity. Qed.

Lemma getIconCount_listed B b fs :
  sanitizeBrandName B = Ok b -> b <> EmptyString ->
  getIconCount B fs = listed b (brand_dir b fs).
Proof.
  intros HB Hb. unfold getIconCount, getIconsForBrand, listed, brand_dir.
  rewrite HB. cbn [bind_result].
  rewrite (getBrandDirectory_sanitized _ _ HB Hb). cbn [bind_result].
  destruct (fs !! b); cbn [default].
  - apply length_sort_icons.
  - now rewrite map_to_list_empty.
Qed.

Lemma listed_insert_icon b dir n e content :
  dir !! (n +:+ e) = None -> n <> EmptyString -> e ∈ supportedFormats ->
  listed b (<[n +:+ e := File content]> dir) = S (listed b dir).
Proof.
  intros Hfree Hn He. unfold listed.
  rewrite (map_to_list_insert dir _ (File content) Hfree), omap_cons.
  now rewrite (icon_of_icon_file b n e content Hn He).
Qed.

Lemma listed_delete_icon b dir n e content :
  dir !! (n +:+ e) = Some (File content) -> n <> EmptyString ->
  e ∈ supportedFormats ->
  S (listed b (delete (n +:+ e) dir)) = listed b dir.
Proof.
  intros Hfile Hn He. unfold listed.
  rewrite <- (map_to_list_delete dir _ _ Hfile), omap_cons.
  now rewrite (icon_of_icon_file b n e content Hn He).
Qed.

(** X2. A successful [addIconToBrand] of a supported format under a name that
    does not normalize to the empty string makes the brand count exactly
    one icon more, and leaves every other brand directory as it was. *)
Theorem addIconToBrand_counts_one_more B I C fmt fs added fs' :
  addIconToBrand B I C fmt fs = (Ok added, fs') ->
  added_name added <> EmptyString ->
  ("." +:+ fmt) ∈ supportedFormats ->
  getIconCount B fs' = S (getIconCount B fs)
  /\ forall b', b' <> added_brand added -> fs' !! b' = fs !! b'.
Proof.
  intros Hadd Hn Hfmt.
  assert (Hno : ~ forall b n,
             sanitizeBrandName B = Ok b -> sanitizeIconName I = Ok n ->
             b = EmptyString).
  { intros R.
    destruct (addIconToBrand_rejected B I C fmt fs R) as (e' & He' & _).
    congruence. }
  destruct (sanitizeBrandName B) as [b|e] eqn:HB;
    [|exfalso; apply Hno; intros ? ? [=]].
  destruct (sanitizeIconName I) as [n|e] eqn:HI;
    [|exfalso; apply Hno; intros ? ? _ [=]].
  destruct (String.eqb_spec b EmptyString) as [->|Hb];
    [exfalso; apply Hno; congruence|].
  clear Hno.
  rewrite (addIconToBrand_sanitized _ _ _ _ _ _ _ HB HI Hb) in Hadd.
  cbn zeta in Hadd.
  destruct (bool_decide _) eqn:Hex in Hadd; [discriminate|].
  destruct (_ && _) in Hadd; [discriminate|].
  injection Hadd as <- <-. cbn [added_name added_brand] in *.
  apply bool_decide_eq_false_1 in Hex.
  assert (Hfree : brand_dir b fs !! (n +:+ ("." +:+ fmt)) = None).
  { destruct (brand_dir b fs !! _) eqn:E; [exfalso; apply Hex; eauto | reflexivity]. }
  split.
  - rewrite !(getIconCount_listed B b) by assumption.
    unfold brand_dir at 1. rewrite lookup_insert_eq. cbn [default].
    now apply listed_insert_icon.
  - intros b' Hb'. now rewrite lookup_insert_ne.
Qed.

Lemma addIconToBrand_counts_one_more_witness :
  getIconCount "Global"
    (<["global" := <["logo.svg" := File "<svg/>"]>
                     (<["logo.png" := File "PNG"]> ∅)]>
       (<["other" := ∅]> ∅))
  = S (getIconCount "Global"
         (<["global" := <["logo.png" := File "PNG"]> ∅]> (<["other" := ∅]> ∅)))
  /\ forall b',
       b' <> added_brand (mkAdded "global" "logo" "logo.svg"
                            "global/logo.svg" "svg") ->
       (<["global" := <["logo.svg" := File "<svg/>"]>
                        (<["logo.png" := File "PNG"]> ∅)]>
          (<["other" := ∅]> ∅) : store) !! b'
       = (<["global" := <["logo.png" := File "PNG"]> ∅]>
            (<["other" := ∅]> ∅) : store) !! b'.
Proof.
  apply (addIconToBrand_counts_one_more "Global" "Logo" "<svg/>" "svg"
           (<["global" := <["logo.png" := File "PNG"]> ∅]> (<["other" := ∅]> ∅))
           (mkAdded "global" "logo" "logo.svg" "global/logo.svg" "svg")).
  - vm_compute. reflexivity.
  - discriminate.
  - unfold supportedFormats. rewrite !elem_of_cons. tauto.
Defined.

(** *** Removal *)

Lemma find_format_Some b n exts fs ext :
  find_format b n exts fs = Some ext ->
  exists before after,
    exts = (before ++ ext :: after)%list
    /\ existsIn b (n +:+ ext) fs = true
    /\ forall e, e ∈ before -> existsIn b (n +:+ e) fs = false.
Proof.
  induction exts as [|e exts IH]; simpl; [discriminate|].
  destruct (existsIn b (n +:+ e) fs) eqn:Hex.
  - intros [= <-]. exists [], exts. repeat split; [exact Hex|].
    intros ? []%elem_of_nil.
  - intros (before & after & -> & Hhere & Hbefore)%IH.
    exists (e :: before), after. repeat split; [exact Hhere|].
    intros e' [->|He']%elem_of_cons; auto.
Qed.

(** X3. What [removeIconFromBrand] does to the store: when it returns, it has
    deleted one regular file, [n.ext] for the first extension of the
    search order under which the icon exists, and nothing else, so that
    the brand counts one icon less unless the name is empty; when it
    throws, the store is as it was. *)
Theorem removeIconFromBrand_effect B I fs :
  match removeIconFromBrand B I fs with
  | (Ok removed, fs') =>
      exists b n dir ext content before after,
        sanitizeBrandName B = Ok b /\ sanitizeIconName I = Ok n
        /\ fs !! b = Some dir
        /\ supportedFormats = (before ++ ext :: after)%list
        /\ (forall e, e ∈ before -> dir !! (n +:+ e) = None)
        /\ dir !! (n +:+ ext) = Some (File content)
        /\ fs' = <[b := delete (n +:+ ext) dir]> fs
        /\ removed_brand removed = b /\ removed_name removed = n
        /\ "." +:+ removed_format removed = ext
        /\ (n <> EmptyString -> S (getIconCount B fs') = getIconCount B fs)
  | (Err e, fs') => fs' = fs
  end.
Proof.
  unfold removeIconFromBrand, bind, lift, get.
  destruct (sanitizeBrandName B) as [b|e] eqn:HB; [|reflexivity].
  destruct (sanitizeIconName I) as [n|e] eqn:HI; [|reflexivity].
  destruct (String.eqb_spec b EmptyString) as [->|Hb]; [reflexivity|].
  rewrite (getBrandDirectory_sanitized _ _ HB Hb), (existsDir_lookup _ _ Hb).
  destruct (fs !! b) as [dir|] eqn:Hdir; cycle 1.
  { rewrite bool_decide_eq_false_2 by (intros [? ?]; discriminate). reflexivity. }
  rewrite bool_decide_eq_true_2 by eauto. cbn [negb].
  destruct (find_format b n supportedFormats fs) as [ext|] eqn:Hfind;
    [|reflexivity].
  destruct (find_format_Some _ _ _ _ _ Hfind) as (before & after & Hsplit & Hhere & Hbefore).
  rewrite (existsIn_lookup _ _ _ _ Hdir) in Hhere.
  apply bool_decide_eq_true_1 in Hhere as [x Hx].
  unfold try_catch, unlinkSync. rewrite Hdir, Hx.
  destruct x as [content|]; [|reflexivity].
  cbn [ret]. exists b, n, dir, ext, content, before, after.
  repeat split; try assumption.
  - intros e He. specialize (Hbefore e He).
    rewrite (existsIn_lookup _ _ _ _ Hdir) in Hbefore.
    apply bool_decide_eq_false_1 in Hbefore.
    destruct (dir !! (n +:+ e)) eqn:E; [exfalso; apply Hbefore; eauto | reflexivity].
  - cbn [removed_format].
    assert (He : ext ∈ supportedFormats)
      by (rewrite Hsplit, elem_of_app, elem_of_cons; auto).
    clear -He. revert ext He. apply supported_cases; reflexivity.
  - intros Hn. rewrite !(getIconCount_listed B b) by assumption.
    unfold brand_dir. rewrite lookup_insert_eq, Hdir. cbn [default].
    apply (listed_delete_icon b dir n ext content); [assumption|assumption|].
    rewrite Hsplit, elem_of_app, elem_of_cons. auto.
Qed.


(** *** Brands *)

Lemma getIconsForBrand_dir B b fs dir :
  sanitizeBrandName B = Ok b -> b <> EmptyString -> fs !! b = Some dir ->
  getIconsForBrand B fs
  = Ok (sort_icons (omap (icon_of_item b) (map_to_list dir))).
Proof.
  intros HB Hb Hdir. unfold getIconsForBrand. rewrite HB. cbn [bind_result].
  rewrite (getBrandDirectory_sanitized _ _ HB Hb). cbn [bind_result].
  now rewrite Hdir.
Qed.

Lemma getIconsForBrand_missing B b fs :
  sanitizeBrandName B = Ok b -> b <> EmptyString -> fs !! b = None ->
  getIconsForBrand B fs = Err (BrandManagerError "BRAND_NOT_FOUND").
Proof.
  intros HB Hb Hdir. unfold getIconsForBrand. rewrite HB. cbn [bind_result].
  rewrite (getBrandDirectory_sanitized _ _ HB Hb). cbn [bind_result].
  now rewrite Hdir.
Qed.

Lemma createBrand_inv B fs b fs' :
  createBrand B fs = (Ok b, fs') ->
  sanitizeBrandName B = Ok b /\ b <> EmptyString
  /\ fs !! b = None /\ fs' = <[b := ∅]> fs.
Proof.
  unfold createBrand, bind, lift, get.
  destruct (sanitizeBrandName B) as [b0|e] eqn:HB; [|discriminate].
  destruct (String.eqb_spec b0 EmptyString) as [->|Hb]; [discriminate|].
  rewrite (getBrandDirectory_sanitized _ _ HB Hb), (existsDir_lookup _ _ Hb).
  destruct (fs !! b0) eqn:Hdir.
  - rewrite bool_decide_eq_true_2 by eauto. discriminate.
  - rewrite bool_decide_eq_false_2 by (intros [? ?]; discriminate).
    unfold try_catch, bind, mkdirSync, ret. rewrite Hdir.
    intros [= <- <-]. auto.
Qed.

(** [removeBrand] on a brand whose directory exists. *)
Lemma removeBrand_present B b fs dir :
  sanitizeBrandName B = Ok b -> b <> EmptyString -> fs !! b = Some dir ->
  removeBrand B fs
  = (Ok {| gone_name := b; gone_path := b;
           gone_iconCount := listed b dir |},
     delete b fs).
Proof.
  intros HB Hb Hdir. unfold removeBrand, bind, lift, get.
  rewrite HB, (getBrandDirectory_sanitized _ _ HB Hb), (existsDir_lookup _ _ Hb).
  rewrite bool_decide_eq_true_2 by (rewrite Hdir; eauto). cbn [negb].
  unfold try_catch.
  rewrite (getIconsForBrand_dir b b fs dir
             (sanitizeBrandName_again _ _ HB Hb) Hb Hdir).
  unfold rmSync, ret. rewrite Hdir. now rewrite length_sort_icons.
Qed.

(** X4. A brand that [createBrand] has just made is empty, cannot be made
    again, and removing it puts the store back as it was. *)
Theorem createBrand_then_removeBrand B fs b fs' :
  createBrand B fs = (Ok b, fs') ->
  getIconsForBrand B fs = Err (BrandManagerError "BRAND_NOT_FOUND")
  /\ getIconsForBrand B fs' = Ok []
  /\ createBrand B fs' = (Err (BrandManagerError "BRAND_EXISTS"), fs')
  /\ removeBrand B fs'
     = (Ok {| gone_name := b; gone_path := b; gone_iconCount := 0 |}, fs).
Proof.
  intros (HB & Hb & Hfree & ->)%createBrand_inv.
  assert (Hdir : (<[b := ∅]> fs : store) !! b = Some ∅) by apply lookup_insert_eq.
  repeat split.
  - now apply (getIconsForBrand_missing B b).
  - rewrite (getIconsForBrand_dir B b _ ∅ HB Hb Hdir).
    now rewrite map_to_list_empty.
  - unfold createBrand, bind, lift, get.
    rewrite HB, (getBrandDirectory_sanitized _ _ HB Hb), (existsDir_lookup _ _ Hb).
    now rewrite bool_decide_eq_true_2 by (rewrite Hdir; eauto).
  - rewrite (removeBrand_present B b _ ∅ HB Hb Hdir).
    unfold listed. rewrite map_to_list_empty. cbn [omap list_omap length].
    f_equal. rewrite delete_insert_eq. now apply delete_id.
Qed.

Lemma createBrand_then_removeBrand_witness :
  getIconsForBrand "My Brand" (<["global" := ∅]> ∅)
  = Err (BrandManagerError "BRAND_NOT_FOUND")
  /\ getIconsForBrand "My Brand" (<["my-brand" := ∅]> (<["global" := ∅]> ∅))
     = Ok []
  /\ createBrand "My Brand" (<["my-brand" := ∅]> (<["global" := ∅]> ∅))
     = (Err (BrandManagerError "BRAND_EXISTS"),
        <["my-brand" := ∅]> (<["global" := ∅]> ∅))
  /\ removeBrand "My Brand" (<["my-brand" := ∅]> (<["global" := ∅]> ∅))
     = (Ok {| gone_name := "my-brand"; gone_path := "my-brand";
              gone_iconCount := 0 |},
        <["global" := ∅]> ∅).
Proof.
  apply (createBrand_then_removeBrand "My Brand" (<["global" := ∅]> ∅)).
  vm_compute. reflexivity.
Defined.

(** X5. What [removeBrand] does: when it returns, exactly the directory of the
    brand is gone, with everything in it, the count it reports is the
    number of icons the brand listed, and the brand can no longer be
    listed; when it throws, the store is as it was. *)
Theorem removeBrand_effect B fs :
  match removeBrand B fs with
  | (Ok gone, fs') =>
      exists b,
        sanitizeBrandName B = Ok b /\ gone_name gone = b
        /\ is_Some (fs !! b) /\ fs' = delete b fs
        /\ gone_iconCount gone = getIconCount B fs
        /\ getIconsForBrand B fs' = Err (BrandManagerError "BRAND_NOT_FOUND")
  | (Err e, fs') => fs' = fs
  end.
Proof.
  destruct (sanitizeBrandName B) as [b|e] eqn:HB; cycle 1.
  { unfold removeBrand, bind, lift. now rewrite HB. }
  destruct (String.eqb_spec b EmptyString) as [->|Hb].
  { unfold removeBrand, bind, lift. now rewrite HB. }
  destruct (fs !! b) as [dir|] eqn:Hdir.
  - rewrite (removeBrand_present B b fs dir HB Hb Hdir).
    exists b. split; [reflexivity|]. split; [reflexivity|].
    split; [eauto|]. split; [reflexivity|]. split.
    + cbn [gone_iconCount]. rewrite (getIconCount_listed B b fs HB Hb).
      unfold brand_dir. now rewrite Hdir.
    + apply (getIconsForBrand_missing B b); [assumption|assumption|].
      apply lookup_delete_eq.
  - unfold removeBrand, bind, lift, get.
    rewrite HB, (getBrandDirectory_sanitized _ _ HB Hb), (existsDir_lookup _ _ Hb).
    rewrite Hdir, bool_decide_eq_false_2 by (intros [? ?]; discriminate).
    reflexivity.
Qed.

(** *** All brands at once *)


Lemma list_brands_Err fs brands b e : forall acc,
  b ∈ brands -> getIconsForBrand (brand_name b) fs = Err e ->
  exists e', list_brands brands fs acc = Err e'.
Proof.
  induction brands as [|b0 brands IH]; intros acc Hin Hb;
    [now apply elem_of_nil in Hin|].
  cbn [list_brands].
  destruct (getIconsForBrand (brand_name b0) fs) as [icons|e0] eqn:H0;
    [|cbn; eauto].
  cbn [bind_result]. apply elem_of_cons in Hin as [->|Hin]; [congruence|].
  now apply IH.
Qed.

Lemma summarize_Err fs brands b e : forall acc,
  b ∈ brands -> getIconsForBrand (brand_name b) fs = Err e ->
  exists e', summarize brands fs acc = Err e'.
Proof.
  induction brands as [|b0 brands IH]; intros acc Hin Hb;
    [now apply elem_of_nil in Hin|].
  cbn [summarize].
  destruct (getIconsForBrand (brand_name b0) fs) as [icons|e0] eqn:H0;
    [|cbn; eauto].
  cbn [bind_result]. apply elem_of_cons in Hin as [->|Hin]; [congruence|].
  now apply IH.
Qed.

Lemma getAllBrands_elem fs d dir :
  fs !! d = Some dir ->
  {| brand_name := d; brand_path := d; iconCount := getIconCount d fs |}
  ∈ getAllBrands fs.
Proof.
  intros Hd. unfold getAllBrands. apply list_elem_of_fmap.
  exists (d, dir). split; [reflexivity | now apply elem_of_map_to_list].
Qed.

(** X6. A directory of the assets directory whose name is not the name of a
    brand directory once normalized -- an upper-case or spaced name, for
    instance -- is reported by [getAllBrands] as a brand with no icon, and
    makes [getAllBrandIcons] and [generateBrandSummary] throw. *)
Theorem stray_directory_breaks_summary fs d dir :
  fs !! d = Some dir -> fs !! normalize d = None ->
  (exists b, b ∈ getAllBrands fs /\ brand_name b = d /\ iconCount b = 0)
  /\ (exists e, getAllBrandIcons fs
                = Err (BrandManagerErrorFrom "GET_ALL_ICONS_ERROR" e))
  /\ (exists e, generateBrandSummary fs
                = Err (BrandManagerErrorFrom "GENERATE_SUMMARY_ERROR" e)).
Proof.
  intros Hd Hnorm.
  assert (Herr : exists e, getIconsForBrand d fs = Err e).
  { unfold getIconsForBrand, getBrandDirectory, sanitizeBrandName.
    destruct (String.eqb d EmptyString); [cbn; eauto|]. cbn [bind_result].
    destruct (String.eqb (normalize d) EmptyString); [cbn; eauto|].
    cbn [bind_result]. rewrite normalize_idempotent, Hnorm. eauto. }
  destruct Herr as [e He].
  pose proof (getAllBrands_elem fs d dir Hd) as Hin.
  repeat split.
  - eexists. split; [exact Hin|]. split; [reflexivity|].
    cbn [iconCount]. unfold getIconCount. now rewrite He.
  - unfold getAllBrandIcons.
    destruct (list_brands_Err fs _ _ e [] Hin He) as [e' ->]. eauto.
  - unfold generateBrandSummary. cbn zeta.
    destruct (summarize_Err fs _ _ e
                {| summary_totalBrands := length (getAllBrands fs);
                   summary_totalIcons := 0; summary_brands := [] |} Hin He)
      as [e' ->]. eauto.
Qed.

Lemma stray_directory_breaks_summary_witness :
  (exists b,
     b ∈ getAllBrands (<["Old Icons" := <["a.svg" := File "<svg/>"]> ∅]>
                         (<["global" := ∅]> ∅))
     /\ brand_name b = "Old Icons" /\ iconCount b = 0)
  /\ (exists e,
        getAllBrandIcons (<["Old Icons" := <["a.svg" := File "<svg/>"]> ∅]>
                            (<["global" := ∅]> ∅))
        = Err (BrandManagerErrorFrom "GET_ALL_ICONS_ERROR" e))
  /\ (exists e,
        generateBrandSummary (<["Old Icons" := <["a.svg" := File "<svg/>"]> ∅]>
                                (<["global" := ∅]> ∅))
        = Err (BrandManagerErrorFrom "GENERATE_SUMMARY_ERROR" e)).
Proof.
  apply (stray_directory_breaks_summary
           (<["Old Icons" := <["a.svg" := File "<svg/>"]> ∅]>
              (<["global" := ∅]> ∅))
           "Old Icons" (<["a.svg" := File "<svg/>"]> ∅)); reflexivity.
Defined.



End AssetStoreMore.

(** ** The token registry, continued *)
Section TokenStore.

Import TokenManager.

Lemma obj_delete_set_fresh {V} (o : jsobj V) k v :
  obj_get o k = None -> obj_delete (obj_set o k v) k = o.
Proof.
  intros Hk. unfold obj_set. rewrite Hk. destruct (array_index k) as [n|].
  - induction o as [|[k' v'] o IH]; simpl in *.
    + now rewrite String.eqb_refl.
    + destruct (String.eqb k' k) eqn:Hne; [discriminate|].
      destruct (array_index k') as [m|]; [destruct (m <? n)%N|]; simpl;
        rewrite ?String.eqb_refl, ?Hne; try reflexivity.
      now rewrite (IH Hk).
  - induction o as [|[k' v'] o IH]; simpl in *.
    + now rewrite String.eqb_refl.
    + destruct (String.eqb k' k) eqn:Hne; [discriminate|].
      now rewrite (IH Hk).
Qed.

Lemma loadTokens_Some icon : loadTokens (Some icon) = icon.
Proof. reflexivity. Qed.

Lemma createTokenKey_Ok b i k :
  createTokenKey b i = Ok k ->
  b <> EmptyString /\ i <> EmptyString /\ k = b +:+ "-" +:+ i.
Proof.
  unfold createTokenKey.
  destruct (String.eqb_spec b EmptyString); [discriminate|].
  destruct (String.eqb_spec i EmptyString); [discriminate|].
  intros [= <-]. auto.
Qed.

(** What a successful [addIconToken] has done. *)
Lemma addIconToken_round_trip_facts brandName iconName options file key t file' :
  addIconToken brandName iconName options file = (Ok (key, t), file') ->
  createTokenKey brandName iconName = Ok key
  /\ obj_get (loadTokens file) key = None
  /\ file' = Some (obj_set (loadTokens file) key t).
Proof.
  unfold addIconToken, bind, lift, get.
  destruct (createTokenKey brandName iconName) as [k|e] eqn:Hkey; [|discriminate].
  destruct (obj_get (loadTokens file) k) as [old|] eqn:Hold.
  { rewrite bool_decide_eq_true_2 by eauto. discriminate. }
  rewrite bool_decide_eq_false_2 by (intros [? ?]; discriminate).
  unfold saveTokens, ret. intros [= <- <- <-]. auto.
Qed.

(** X8. A successful [addIconToken] stores the token under the key of the
    brand and icon name: [getIconToken] returns it, tokens under other
    keys are untouched, a second [addIconToken] for the same brand and
    name is rejected with [TOKEN_EXISTS] and changes nothing, and
    [removeIconToken] returns the token and leaves the registry that was
    there before the addition.  The new token agrees with its key unless
    [metadata] overrides [brand] or [name]. *)
Theorem addIconToken_round_trip brandName iconName options file key t file' :
  addIconToken brandName iconName options file = (Ok (key, t), file') ->
  createTokenKey brandName iconName = Ok key
  /\ obj_get (loadTokens file) key = None
  /\ file' = Some (obj_set (loadTokens file) key t)
  /\ getIconToken brandName iconName file' = Ok (Some t)
  /\ (forall k', k' <> key ->
        obj_get (loadTokens file') k' = obj_get (loadTokens file) k')
  /\ (forall options',
        addIconToken brandName iconName options' file'
        = (Err (TokenManagerError "TOKEN_EXISTS"), file'))
  /\ removeIconToken brandName iconName file'
     = (Ok (key, t), Some (loadTokens file))
  /\ (patch_brand (opt_metadata options) = None ->
      patch_name (opt_metadata options) = None ->
      consistent (key, t)).
Proof.
  intros Hadd.
  destruct (addIconToken_round_trip_facts _ _ _ _ _ _ _ Hadd) as (Hkey & Hold & ->).
  split; [exact Hkey|]. split; [exact Hold|]. split; [reflexivity|].
  split; [|split; [|split; [|split]]].
  - unfold getIconToken. rewrite Hkey. cbn [bind_result].
    now rewrite loadTokens_Some, obj_get_set_eq.
  - intros k' Hk'. rewrite loadTokens_Some. apply obj_get_set_ne. congruence.
  - intros options'. unfold addIconToken, bind, lift, get.
    rewrite Hkey, loadTokens_Some, obj_get_set_eq.
    now rewrite bool_decide_eq_true_2 by eauto.
  - unfold removeIconToken, bind, lift, get.
    rewrite Hkey, loadTokens_Some, obj_get_set_eq.
    unfold saveTokens, ret. now rewrite (obj_delete_set_fresh _ _ _ Hold).
  - intros Hb Hn. destruct (createTokenKey_Ok _ _ _ Hkey) as (_ & _ & Hk).
    revert Hadd. unfold addIconToken, bind, lift, get. rewrite Hkey, Hold.
    rewrite bool_decide_eq_false_2 by (intros [? ?]; discriminate).
    unfold saveTokens, ret. intros [= <- _].
    unfold consistent, spread. cbn. now rewrite Hb, Hn.
Qed.

Lemma addIconToken_round_trip_witness :
  createTokenKey "global" "hamburger" = Ok "global-hamburger"
  /\ obj_get (loadTokens None) "global-hamburger" = None
  /\ Some [("global-hamburger",
            mkToken "global/hamburger.svg" "asset" "hamburger icon for global"
              "global" "hamburger" "hamburger")]
     = Some (obj_set (loadTokens None) "global-hamburger"
               (mkToken "global/hamburger.svg" "asset"
                  "hamburger icon for global" "global" "hamburger" "hamburger"))
  /\ getIconToken "global" "hamburger"
       (Some [("global-hamburger",
               mkToken "global/hamburger.svg" "asset"
                 "hamburger icon for global" "global" "hamburger" "hamburger")])
     = Ok (Some (mkToken "global/hamburger.svg" "asset"
                   "hamburger icon for global" "global" "hamburger" "hamburger"))
  /\ (forall k', k' <> "global-hamburger" ->
        obj_get (loadTokens
                   (Some [("global-hamburger",
                           mkToken "global/hamburger.svg" "asset"
                             "hamburger icon for global" "global" "hamburger"
                             "hamburger")])) k'
        = obj_get (loadTokens None) k')
  /\ (forall options',
        addIconToken "global" "hamburger" options'
          (Some [("global-hamburger",
                  mkToken "global/hamburger.svg" "asset"
                    "hamburger icon for global" "global" "hamburger"
                    "hamburger")])
        = (Err (TokenManagerError "TOKEN_EXISTS"),
           Some [("global-hamburger",
                  mkToken "global/hamburger.svg" "asset"
                    "hamburger icon for global" "global" "hamburger"
                    "hamburger")]))
  /\ removeIconToken "global" "hamburger"
       (Some [("global-hamburger",
               mkToken "global/hamburger.svg" "asset"
                 "hamburger icon for global" "global" "hamburger" "hamburger")])
     = (Ok ("global-hamburger",
            mkToken "global/hamburger.svg" "asset" "hamburger icon for global"
              "global" "hamburger" "hamburger"),
        Some (loadTokens None))
  /\ (patch_brand (opt_metadata no_options) = None ->
      patch_name (opt_metadata no_options) = None ->
      consistent ("global-hamburger",
                  mkToken "global/hamburger.svg" "asset"
                    "hamburger icon for global" "global" "hamburger"
                    "hamburger")).
Proof.
  apply (addIconToken_round_trip "global" "hamburger" no_options None).
  reflexivity.
Defined.

(** X9. [updateIconToken] never changes what a token is about: whatever
    [updates] holds, the stored token keeps the brand and name it is keyed
    by and the type [asset], the other properties are those of [updates]
    where it gives them and the current ones elsewhere, tokens under other
    keys are untouched, and a registry whose keys agree with their tokens
    stays so. *)
Theorem updateIconToken_keeps_identity brandName iconName updates file key t file' :
  updateIconToken brandName iconName updates file = (Ok (key, t), file') ->
  exists current,
    obj_get (loadTokens file) key = Some current
    /\ file' = Some (obj_set (loadTokens file) key t)
    /\ brand t = brandName /\ name t = iconName /\ type t = "asset"
    /\ value t = default (value current) (patch_value updates)
    /\ description t = default (description current) (patch_description updates)
    /\ originalName t
       = default (originalName current) (patch_originalName updates)
    /\ consistent (key, t)
    /\ (forall k', k' <> key ->
          obj_get (loadTokens file') k' = obj_get (loadTokens file) k')
    /\ (Forall consistent (loadTokens file) ->
        Forall consistent (loadTokens file')).
Proof.
  intros Hupd. revert Hupd. unfold updateIconToken at 1. unfold bind, lift, get.
  destruct (createTokenKey brandName iconName) as [k|e] eqn:Hkey; [|discriminate].
  destruct (obj_get (loadTokens file) k) as [current|] eqn:Hcur; [|discriminate].
  unfold saveTokens, ret. intros [= <- <- <-].
  destruct (createTokenKey_Ok _ _ _ Hkey) as (_ & _ & Hk).
  exists current. split; [exact Hcur|]. split; [reflexivity|].
  do 6 (split; [reflexivity|]).
  split; [|split].
  - unfold consistent. now rewrite Hk.
  - intros k' Hk'. rewrite loadTokens_Some. apply obj_get_set_ne. congruence.
  - intros Hall. rewrite loadTokens_Some. apply obj_set_Forall; [|exact Hall].
    unfold consistent. now rewrite Hk.
Qed.

Lemma updateIconToken_keeps_identity_witness :
  exists current,
    obj_get (loadTokens
               (Some [("global-hamburger",
                       mkToken "global/hamburger.svg" "asset" "old" "global"
                         "hamburger" "Hamburger")])) "global-hamburger"
    = Some current
    /\ Some [("global-hamburger",
              mkToken "global/hamburger.svg" "asset" "new" "global"
                "hamburger" "Hamburger")]
       = Some (obj_set
                 (loadTokens
                    (Some [("global-hamburger",
                            mkToken "global/hamburger.svg" "asset" "old"
                              "global" "hamburger" "Hamburger")]))
                 "global-hamburger"
                 (mkToken "global/hamburger.svg" "asset" "new" "global"
                    "hamburger" "Hamburger"))
    /\ brand (mkToken "global/hamburger.svg" "asset" "new" "global"
                "hamburger" "Hamburger") = "global"
    /\ name (mkToken "global/hamburger.svg" "asset" "new" "global"
               "hamburger" "Hamburger") = "hamburger"
    /\ type (mkToken "global/hamburger.svg" "asset" "new" "global"
               "hamburger" "Hamburger") = "asset"
    /\ value (mkToken "global/hamburger.svg" "asset" "new" "global"
                "hamburger" "Hamburger")
       = default (value current)
           (patch_value (mkPatch None (Some "font") (Some "new")
                           (Some "other") (Some "x") None))
    /\ description (mkToken "global/hamburger.svg" "asset" "new" "global"
                      "hamburger" "Hamburger")
       = default (description current)
           (patch_description (mkPatch None (Some "font") (Some "new")
                                 (Some "other") (Some "x") None))
    /\ originalName (mkToken "global/hamburger.svg" "asset" "new" "global"
                       "hamburger" "Hamburger")
       = default (originalName current)
           (patch_originalName (mkPatch None (Some "font") (Some "new")
                                  (Some "other") (Some "x") None))
    /\ consistent ("global-hamburger",
                   mkToken "global/hamburger.svg" "asset" "new" "global"
                     "hamburger" "Hamburger")
    /\ (forall k', k' <> "global-hamburger" ->
          obj_get (loadTokens
                     (Some [("global-hamburger",
                             mkToken "global/hamburger.svg" "asset" "new"
                               "global" "hamburger" "Hamburger")])) k'
          = obj_get (loadTokens
                       (Some [("global-hamburger",
                               mkToken "global/hamburger.svg" "asset" "old"
                                 "global" "hamburger" "Hamburger")])) k')
    /\ (Forall consistent
          (loadTokens
             (Some [("global-hamburger",
                     mkToken "global/hamburger.svg" "asset" "old" "global"
                       "hamburger" "Hamburger")])) ->
        Forall consistent
          (loadTokens
             (Some [("global-hamburger",
                     mkToken "global/hamburger.svg" "asset" "new" "global"
                       "hamburger" "Hamburger")]))).
Proof.
  apply (updateIconToken_keeps_identity "global" "hamburger"
           (mkPatch None (Some "font") (Some "new") (Some "other") (Some "x")
              None)
           (Some [("global-hamburger",
                   mkToken "global/hamburger.svg" "asset" "old" "global"
                     "hamburger" "Hamburger")])).
  reflexivity.
Defined.

Lemma append_assoc (a b c : string) : (a +:+ b) +:+ c = a +:+ (b +:+ c).
Proof.
  induction a as [|x a' IH]; [reflexivity|].
  change (String x ((a' +:+ b) +:+ c) = String x (a' +:+ (b +:+ c))).
  now rewrite IH.
Qed.

(** X10. Token keys do not determine the brand and the name: the icon [c] of
    the brand [a-b] and the icon [b-c] of the brand [a] have the same key.
    Once one of them has a token, [addIconToken] rejects the other with
    [TOKEN_EXISTS], and [getIconToken] for the other returns the token of
    the first. *)
Theorem token_keys_collide a b c options file key t file' :
  a <> EmptyString -> c <> EmptyString ->
  addIconToken (a +:+ "-" +:+ b) c options file = (Ok (key, t), file') ->
  createTokenKey a (b +:+ "-" +:+ c) = Ok key
  /\ (forall options',
        addIconToken a (b +:+ "-" +:+ c) options' file'
        = (Err (TokenManagerError "TOKEN_EXISTS"), file'))
  /\ getIconToken a (b +:+ "-" +:+ c) file' = Ok (Some t).
Proof.
  intros Ha Hc Hadd.
  assert (Hkey : createTokenKey a (b +:+ "-" +:+ c)
                 = createTokenKey (a +:+ "-" +:+ b) c).
  { unfold createTokenKey.
    rewrite (proj2 (String.eqb_neq _ _) Ha), (proj2 (String.eqb_neq _ _) Hc).
    rewrite (proj2 (String.eqb_neq (b +:+ "-" +:+ c) _))
      by (apply append_not_empty, append_not_empty; exact Hc).
    rewrite (proj2 (String.eqb_neq (a +:+ "-" +:+ b) _))
      by (destruct a; [contradiction | discriminate]).
    cbn [orb]. f_equal. rewrite !append_assoc. reflexivity. }
  destruct (addIconToken_round_trip_facts _ _ _ _ _ _ _ Hadd) as (Hk & Hget & Hfile).
  rewrite Hkey. split; [exact Hk|]. subst file'. split.
  - intros options'. unfold addIconToken, bind, lift, get.
    rewrite Hkey, Hk, loadTokens_Some, obj_get_set_eq.
    now rewrite bool_decide_eq_true_2 by eauto.
  - unfold getIconToken. rewrite Hkey, Hk. cbn [bind_result].
    now rewrite loadTokens_Some, obj_get_set_eq.
Qed.

Lemma token_keys_collide_witness :
  createTokenKey "acme" ("dark" +:+ "-" +:+ "logo") = Ok "acme-dark-logo"
  /\ (forall options',
        addIconToken "acme" ("dark" +:+ "-" +:+ "logo") options'
          (Some [("acme-dark-logo",
                  mkToken "acme-dark/logo.svg" "asset"
                    "logo icon for acme-dark" "acme-dark" "logo" "logo")])
        = (Err (TokenManagerError "TOKEN_EXISTS"),
           Some [("acme-dark-logo",
                  mkToken "acme-dark/logo.svg" "asset"
                    "logo icon for acme-dark" "acme-dark" "logo" "logo")]))
  /\ getIconToken "acme" ("dark" +:+ "-" +:+ "logo")
       (Some [("acme-dark-logo",
               mkToken "acme-dark/logo.svg" "asset" "logo icon for acme-dark"
                 "acme-dark" "logo" "logo")])
     = Ok (Some (mkToken "acme-dark/logo.svg" "asset"
                   "logo icon for acme-dark" "acme-dark" "logo" "logo")).
Proof.
  apply (token_keys_collide "acme" "dark" "logo" no_options None);
    first [discriminate | reflexivity].
Defined.

(** *** Rebuilding the registry from the file system *)






End TokenStore.

(** ** The remote adapter, continued *)
Section Adapter.

Import FigmaApiService FigmaAdapter.

Lemma retry_loop_calls {A} (requestFn : nat -> result A) delay attempts :
  forall fuel i slept,
    calls (retry_loop requestFn delay attempts fuel i slept) <= i + fuel.
Proof.
  induction fuel as [|fuel IH]; intros i slept; cbn [retry_loop].
  - cbn. lia.
  - destruct (requestFn i); [cbn; lia|].
    destruct (i =? attempts - 1)%nat; [cbn; lia|].
    destruct (is_auth_error thrown); [cbn; lia|].
    specialize (IH (S i) (slept ++ [backoff delay i])%list). lia.
Qed.

Lemma retry_loop_returned {A} (requestFn : nat -> result A) delay attempts v :
  forall fuel i slept,
    outcome (retry_loop requestFn delay attempts fuel i slept) = Ok (Some v) ->
    exists k, i <= k < i + fuel /\ requestFn k = Ok v.
Proof.
  induction fuel as [|fuel IH]; intros i slept; cbn [retry_loop].
  - discriminate.
  - destruct (requestFn i) as [v'|e] eqn:Hi.
    + intros [= ->]. exists i. split; [lia | exact Hi].
    + destruct (i =? attempts - 1)%nat; [discriminate|].
      destruct (is_auth_error e); [discriminate|].
      intros (k & Hk & Hv)%IH. exists k. split; [lia | exact Hv].
Qed.

Lemma is_key_char_spec c :
  is_key_char c = true
  <-> (48 <= nat_of_ascii c <= 57 \/ 65 <= nat_of_ascii c <= 90
       \/ 97 <= nat_of_ascii c <= 122).
Proof.
  unfold is_key_char, is_lower, is_upper, is_digit. cbn zeta.
  rewrite !orb_true_iff, !andb_true_iff, !Nat.leb_le. tauto.
Qed.

Lemma string_forallb_Forall p s :
  string_forallb p s = true
  <-> Forall (fun c => p c = true) (list_ascii_of_string s).
Proof.
  induction s as [|c s IH]; cbn [string_forallb list_ascii_of_string].
  - split; [constructor | reflexivity].
  - rewrite andb_true_iff, IH, Forall_cons. tauto.
Qed.

(** [/^[a-zA-Z0-9]{22}$/] holds of the strings of 22 characters that are
    all digits or letters. *)
Lemma key_format_spec fileKey :
  key_format fileKey = true
  <-> String.length fileKey = 22
      /\ Forall (fun c => 48 <= nat_of_ascii c <= 57
                          \/ 65 <= nat_of_ascii c <= 90
                          \/ 97 <= nat_of_ascii c <= 122)
           (list_ascii_of_string fileKey).
Proof.
  unfold key_format.
  rewrite andb_true_iff, Nat.eqb_eq, string_forallb_Forall.
  rewrite (Forall_iff _ _ _ is_key_char_spec). tauto.
Qed.

(** X12. What [exportNodes] does before any request.  A file key is well
    formed when it has 22 characters, all digits or letters.  An empty key
    is refused with [INVALID_FILE_KEY], another key that is not well formed
    with [INVALID_FILE_KEY_FORMAT], an empty list of node identifiers with
    [INVALID_NODE_IDS] and a format other than [svg], [png], [jpg] and
    [pdf] with [INVALID_FORMAT], in this order and each without a request
    or a sleep.  Otherwise the call is [retryRequest] on the request: it
    returns the first response when that request succeeds, and it never
    sends more requests than the configured number of attempts. *)
Theorem exportNodes_requests {A} cfg (request : nat -> result A)
    fileKey nodeIds format :
  let well_formed :=
    String.length fileKey = 22
    /\ Forall (fun c => 48 <= nat_of_ascii c <= 57
                        \/ 65 <= nat_of_ascii c <= 90
                        \/ 97 <= nat_of_ascii c <= 122)
         (list_ascii_of_string fileKey) in
  let run := exportNodes cfg request fileKey nodeIds format in
  (fileKey = EmptyString ->
   run = mkRun (Err (FigmaApiError "INVALID_FILE_KEY")) 0 [])
  /\ (fileKey <> EmptyString -> ~ well_formed ->
      run = mkRun (Err (FigmaApiError "INVALID_FILE_KEY_FORMAT")) 0 [])
  /\ (well_formed -> nodeIds = [] ->
      run = mkRun (Err (FigmaApiError "INVALID_NODE_IDS")) 0 [])
  /\ (well_formed -> nodeIds <> [] -> format ∉ ["svg"; "png"; "jpg"; "pdf"] ->
      run = mkRun (Err (FigmaApiError "INVALID_FORMAT")) 0 [])
  /\ (well_formed -> nodeIds <> [] -> format ∈ ["svg"; "png"; "jpg"; "pdf"] ->
      run = retryRequest request (retryDelay cfg) (retryAttempts cfg)
      /\ (forall v, 0 < retryAttempts cfg -> request 0 = Ok v ->
            run = mkRun (Ok (Some v)) 1 []))
  /\ calls run <= retryAttempts cfg
  /\ (0 < calls run ->
      well_formed /\ nodeIds <> []
      /\ format ∈ ["svg"; "png"; "jpg"; "pdf"]).
Proof.
  intros well_formed run.
  assert (Hkey : key_format fileKey = true <-> well_formed)
    by apply key_format_spec.
  assert (Hne : well_formed -> String.eqb fileKey EmptyString = false).
  { intros [Hlen _]. apply String.eqb_neq. intros ->. discriminate. }
  subst run. unfold exportNodes, validateFileKey, refused, validFormats.
  refine (conj _ (conj _ (conj _ (conj _ (conj _ (conj _ _)))))).
  - now intros ->.
  - intros Hk Hbad. rewrite (proj2 (String.eqb_neq _ _) Hk).
    destruct (key_format fileKey); [tauto | reflexivity].
  - intros Hwf ->. now rewrite (Hne Hwf), (proj2 Hkey Hwf).
  - intros Hwf Hn Hf. rewrite (Hne Hwf), (proj2 Hkey Hwf). cbn [negb].
    destruct nodeIds; [congruence|]. cbn [length Nat.eqb].
    now rewrite bool_decide_eq_false_2.
  - intros Hwf Hn Hf. rewrite (Hne Hwf), (proj2 Hkey Hwf). cbn [negb].
    destruct nodeIds; [congruence|]. cbn [length Nat.eqb].
    rewrite bool_decide_eq_true_2 by assumption. cbn [negb].
    split; [reflexivity|]. intros v Hpos Hv.
    unfold retryRequest. destruct (retryAttempts cfg); [lia|].
    cbn [retry_loop]. now rewrite Hv.
  - destruct (String.eqb fileKey EmptyString); [cbn; lia|].
    destruct (key_format fileKey); cbn [negb]; [|cbn; lia].
    destruct (length nodeIds =? 0)%nat; [cbn; lia|].
    destruct (bool_decide _); cbn [negb]; [|cbn; lia].
    apply (retry_loop_calls request _ _ (retryAttempts cfg) 0 []).
  - destruct (String.eqb fileKey EmptyString); [cbn; lia|].
    destruct (key_format fileKey); cbn [negb]; [|cbn; lia].
    destruct nodeIds as [|n nodeIds]; [cbn; lia|]. cbn [length Nat.eqb].
    destruct (bool_decide _) eqn:Hf; cbn [negb]; [|cbn; lia].
    intros _. apply bool_decide_eq_true_1 in Hf.
    split; [now apply Hkey|]. split; [discriminate | exact Hf].
Qed.

Lemma exportNodes_requests_witness :
  let cfg := mkSettings 3 1000 in
  let request (k : nat) : result string :=
    if (k <? 1)%nat then Err (FigmaApiError "HTTP_500") else Ok "images" in
  (* a key of 21 characters *)
  exportNodes cfg request "abcdefghijk0123456789" ["1:1"] "svg"
  = mkRun (Err (FigmaApiError "INVALID_FILE_KEY_FORMAT")) 0 []
  (* no node *)
  /\ exportNodes cfg request "abcdefghijkL0123456789" [] "svg"
     = mkRun (Err (FigmaApiError "INVALID_NODE_IDS")) 0 []
  (* a format that is not exported *)
  /\ exportNodes cfg request "abcdefghijkL0123456789" ["1:1"] "jpeg"
     = mkRun (Err (FigmaApiError "INVALID_FORMAT")) 0 []
  (* a request that fails once *)
  /\ exportNodes cfg request "abcdefghijkL0123456789" ["1:1"] "svg"
     = retryRequest request 1000 3
  /\ retryRequest request 1000 3 = mkRun (Ok (Some "images")) 2 [1000%Z].
Proof.
  intros cfg request.
  assert (Hwf : String.length "abcdefghijkL0123456789" = 22
                /\ Forall (fun c => 48 <= nat_of_ascii c <= 57
                                    \/ 65 <= nat_of_ascii c <= 90
                                    \/ 97 <= nat_of_ascii c <= 122)
                     (list_ascii_of_string "abcdefghijkL0123456789")).
  { apply key_format_spec. reflexivity. }
  refine (conj _ (conj _ (conj _ (conj _ _)))).
  - apply (proj1 (proj2 (exportNodes_requests cfg request
                           "abcdefghijk0123456789" ["1:1"] "svg")));
      [discriminate|]. intros [Hlen _]. discriminate.
  - apply (proj1 (proj2 (proj2 (exportNodes_requests cfg request
                                   "abcdefghijkL0123456789" [] "svg"))));
      [exact Hwf | reflexivity].
  - apply (proj1 (proj2 (proj2 (proj2 (exportNodes_requests cfg request
                                   "abcdefghijkL0123456789" ["1:1"] "jpeg")))));
      [exact Hwf | discriminate |].
    rewrite !elem_of_cons, elem_of_nil. intuition discriminate.
  - apply (proj1 (proj2 (proj2 (proj2 (proj2 (exportNodes_requests cfg request
                                   "abcdefghijkL0123456789" ["1:1"] "svg"))))));
      [exact Hwf | discriminate |].
    rewrite !elem_of_cons. tauto.
  - vm_compute. reflexivity.
Defined.

(** X13. [downloadSvg] never returns a body without [<svg]: what it returns is
    the body of one of its responses and contains the tag.  Bodies without
    the tag are refused inside the retried function, so a URL that keeps
    answering with such bodies is fetched once per attempt, with the
    backoff delays in between, before [INVALID_SVG_CONTENT] is thrown.
    Without a URL or a file name nothing is fetched. *)
Theorem downloadSvg_checks_content cfg fetch url filename :
  (forall data,
     outcome (downloadSvg cfg fetch url filename) = Ok (Some data) ->
     includes data "<svg" = true
     /\ exists k, k < retryAttempts cfg /\ fetch k = Ok data)
  /\ (0 < retryAttempts cfg ->
      url <> EmptyString -> filename <> EmptyString ->
      (forall k, k < retryAttempts cfg ->
         exists data, fetch k = Ok data /\ includes data "<svg" = false) ->
      downloadSvg cfg fetch url filename
      = mkRun (Err (FigmaApiError "INVALID_SVG_CONTENT")) (retryAttempts cfg)
          (backoffs (retryDelay cfg) (retryAttempts cfg - 1)))
  /\ (url = EmptyString \/ filename = EmptyString ->
      downloadSvg cfg fetch url filename
      = mkRun (Err (FigmaApiError "MISSING_DOWNLOAD_PARAMS")) 0 []).
Proof.
  split; [|split].
  - intros data. unfold downloadSvg.
    destruct (_ || _); [discriminate|]. unfold retryRequest.
    intros (k & Hk & Hv)%retry_loop_returned. unfold checked_download in Hv.
    destruct (fetch k) as [d|e] eqn:Hf; [|discriminate]. cbn [bind_result] in Hv.
    destruct (includes d "<svg") eqn:Hd; [|discriminate].
    injection Hv as ->. split; [exact Hd|]. exists k. split; [lia | exact Hf].
  - intros Hpos Hu Hn Hbad. unfold downloadSvg.
    rewrite (proj2 (String.eqb_neq _ _) Hu), (proj2 (String.eqb_neq _ _) Hn).
    cbn [orb]. unfold retryRequest.
    assert (Hfail : forall k, k < retryAttempts cfg ->
              checked_download fetch k = Err (FigmaApiError "INVALID_SVG_CONTENT")).
    { intros k Hk. destruct (Hbad k Hk) as (d & Hd & Hno).
      unfold checked_download. now rewrite Hd; cbn [bind_result]; rewrite Hno. }
    change (@nil Z) with (backoffs (retryDelay cfg) 0).
    rewrite (retry_loop_stops (checked_download fetch) (retryDelay cfg)
               (retryAttempts cfg) (retryAttempts cfg - 1) (retryAttempts cfg) 0);
      [|lia|lia|].
    + rewrite (Hfail (retryAttempts cfg - 1)) by lia.
      rewrite Nat.eqb_refl. cbn [orb].
      replace (S (retryAttempts cfg - 1)) with (retryAttempts cfg) by lia.
      reflexivity.
    + intros j Hj. exists (FigmaApiError "INVALID_SVG_CONTENT").
      rewrite (Hfail j) by lia. repeat split. lia.
  - intros H. unfold downloadSvg.
    destruct H as [-> | ->]; [reflexivity|].
    now rewrite orb_true_r.
Qed.

Lemma downloadSvg_checks_content_witness :
  downloadSvg (mkSettings 3 1000) (fun _ => Ok "<html>not found</html>")
    "https://cdn/icon" "hamburger"
  = mkRun (Err (FigmaApiError "INVALID_SVG_CONTENT")) 3 (backoffs 1000 (3 - 1))
  /\ downloadSvg (mkSettings 3 1000) (fun _ => Ok "<html>not found</html>")
       EmptyString "hamburger"
     = mkRun (Err (FigmaApiError "MISSING_DOWNLOAD_PARAMS")) 0 []
  /\ (includes "<svg/>" "<svg" = true
      /\ exists k, k < 3 /\ (fun _ : nat => Ok "<svg/>" : result string) k
                            = Ok "<svg/>").
Proof.
  split; [|split].
  - apply (proj1 (proj2 (downloadSvg_checks_content (mkSettings 3 1000)
                           (fun _ => Ok "<html>not found</html>")
                           "https://cdn/icon" "hamburger")));
      [cbn; lia | discriminate | discriminate |].
    intros k _. exists "<html>not found</html>". split; reflexivity.
  - apply (proj2 (proj2 (downloadSvg_checks_content (mkSettings 3 1000)
                           (fun _ => Ok "<html>not found</html>")
                           EmptyString "hamburger"))).
    now left.
  - apply (proj1 (downloadSvg_checks_content (mkSettings 3 1000)
                    (fun _ => Ok "<svg/>") "https://cdn/icon" "hamburger")).
    reflexivity.
Defined.

(** *** Pages and brands *)

Lemma filter_on_page pageName components :
  List.filter (fun c => isComponentOnPage c pageName) components = components.
Proof. induction components as [|c cs IH]; simpl; [reflexivity | now rewrite IH]. Qed.

Lemma brands_of_pages_acc components pageNames : forall acc,
  let all := map icon_of_component components in
  let brandIcons :=
    foldl (fun brandIcons pageName =>
             obj_set brandIcons (FigmaApiService.sanitizeBrandName pageName)
               (map icon_of_component
                  (List.filter (fun c => isComponentOnPage c pageName)
                     components)))
          acc pageNames in
  (forall b icons, obj_get brandIcons b = Some icons ->
     obj_get acc b = Some icons
     \/ (icons = all /\ exists p, p ∈ pageNames /\ b = normalize p))
  /\ (forall p, p ∈ pageNames -> obj_get brandIcons (normalize p) = Some all)
  /\ (forall b, obj_get acc b = Some all -> obj_get brandIcons b = Some all).
Proof.
  induction pageNames as [|p pageNames IH]; intros acc; cbn zeta.
  - cbn [foldl]. repeat split; [auto | | auto]. intros ? []%elem_of_nil.
  - cbn [foldl]. rewrite filter_on_page.
    destruct (IH (obj_set acc (FigmaApiService.sanitizeBrandName p)
                    (map icon_of_component components))) as (H1 & H2 & H3).
    cbn zeta in *. repeat split.
    + intros b icons Hb. destruct (H1 b icons Hb) as [Hacc|(-> & q & Hq & ->)].
      * destruct (String.eqb_spec (FigmaApiService.sanitizeBrandName p) b)
          as [<-|Hne].
        -- rewrite obj_get_set_eq in Hacc. injection Hacc as <-.
           right. split; [reflexivity|]. exists p. split; [left | reflexivity].
        -- rewrite obj_get_set_ne in Hacc by exact Hne. now left.
      * right. split; [reflexivity|]. exists q. split; [now right | reflexivity].
    + intros q [->|Hq]%elem_of_cons; [|now apply H2].
      apply H3. apply obj_get_set_eq.
    + intros b Hb. apply H3.
      destruct (String.eqb_spec (FigmaApiService.sanitizeBrandName p) b)
        as [<-|Hne].
      * apply obj_get_set_eq.
      * now rewrite obj_get_set_ne.
Qed.

(** X14. [getIconsByBrand] makes one brand of every page, named by the
    normalized page name, and gives every brand the same icons: all the
    components of the file, whatever page they are on, each under its
    normalized name.  Any failure of the two requests is thrown as
    [GET_ICONS_BY_BRAND_ERROR]. *)
Theorem getIconsByBrand_flat file components :
  match getIconsByBrand file components with
  | Ok brandIcons =>
      exists pageNames cs,
        file = Ok pageNames /\ components = Ok cs
        /\ (forall p, p ∈ pageNames ->
              obj_get brandIcons (normalize p)
              = Some (map icon_of_component cs))
        /\ (forall b icons, obj_get brandIcons b = Some icons ->
              icons = map icon_of_component cs
              /\ is_normal b = true
              /\ exists p, p ∈ pageNames /\ b = normalize p)
        /\ (forall b icons icon, obj_get brandIcons b = Some icons ->
              icon ∈ icons ->
              is_normal (FigmaIconSync.name icon) = true
              /\ FigmaIconSync.name icon
                 = normalize (FigmaIconSync.originalName icon))
  | Err e =>
      e = FigmaApiError "GET_ICONS_BY_BRAND_ERROR"
      /\ ((exists e', file = Err e') \/ (exists e', components = Err e'))
  end.
Proof.
  unfold getIconsByBrand.
  destruct file as [pageNames|e]; cbn [bind_result]; [|split; eauto].
  destruct components as [cs|e]; cbn [bind_result]; [|split; eauto].
  exists pageNames, cs. split; [reflexivity|]. split; [reflexivity|].
  destruct (brands_of_pages_acc cs pageNames []) as (H1 & H2 & _).
  cbn zeta in *. fold (brands_of_pages pageNames cs) in *.
  assert (Hicons : forall b icons,
            obj_get (brands_of_pages pageNames cs) b = Some icons ->
            icons = map icon_of_component cs
            /\ exists p, p ∈ pageNames /\ b = normalize p).
  { intros b icons Hb. destruct (H1 b icons Hb) as [Hnil|[-> Hp]];
      [discriminate | auto]. }
  split; [exact H2|]. split.
  - intros b icons Hb. destruct (Hicons b icons Hb) as (-> & p & Hp & ->).
    repeat split; [apply normalize_is_normal | eauto].
  - intros b icons icon Hb Hin. destruct (Hicons b icons Hb) as (-> & _).
    apply list_elem_of_fmap in Hin as (c & -> & _). cbn.
    split; [apply normalize_is_normal | reflexivity].
Qed.

End Adapter.

(** ** The synchronizer, continued *)
Section SyncMore.

Import FigmaIconSync.

(** *** Failures are contained *)

Lemma returns_ret {A} (a : A) : returns (ret a).
Proof. intros s. now exists a. Qed.

Lemma returns_update_results b f : returns (update_results b f).
Proof. intros s. now exists tt. Qed.

Lemma returns_update_stats f : returns (update_stats f).
Proof. intros s. now exists tt. Qed.

Lemma returns_bind {A B} (m : M state A) (k : A -> M state B) :
  returns m -> (forall a, returns (k a)) -> returns (bind m k).
Proof.
  intros Hm Hk s. unfold bind. destruct (Hm s) as [a Ha].
  destruct (m s) as [r s1]. cbn in Ha. subst r. apply Hk.
Qed.

(** A [try] whose [catch] block returns, returns. *)
Lemma returns_try_catch {A} (m : M state A) (h : error -> M state A) :
  (forall e, returns (h e)) -> returns (try_catch m h).
Proof.
  intros Hh s. unfold try_catch. destruct (m s) as [[a|e] s1]; [now exists a|].
  apply Hh.
Qed.

Lemma returns_for_each {X} (xs : list X) (body : X -> M state unit) :
  (forall x, returns (body x)) -> returns (for_each xs body).
Proof.
  intros Hbody. induction xs as [|x xs IH]; cbn [for_each].
  - apply returns_ret.
  - apply returns_bind; [apply Hbody | intros _; exact IH].
Qed.

Lemma syncBrand_returns opts figmaApi builtins currentState entry :
  returns (syncBrand opts figmaApi builtins currentState entry).
Proof.
  unfold syncBrand. cbn zeta.
  apply returns_bind; [apply returns_update_results | intros _].
  apply returns_try_catch. intros e.
  apply returns_bind; [apply returns_update_results | intros _].
  apply returns_update_stats.
Qed.

Lemma downloadAndSyncIcons_returns opts figmaApi builtins figmaIcons
    currentState :
  returns (downloadAndSyncIcons opts figmaApi builtins figmaIcons currentState).
Proof. apply returns_for_each. intros entry. apply syncBrand_returns. Qed.

Lemma ktt_bind {A B} (m : M state A) (k : A -> M state B) :
  keeps_tokens_and_totals m -> (forall a, keeps_tokens_and_totals (k a)) ->
  keeps_tokens_and_totals (bind m k).
Proof.
  intros Hm Hk s. unfold bind. specialize (Hm s).
  destruct (m s) as [[a|e] s1]; cbn [snd] in *; [|exact Hm].
  destruct (Hk a s1) as [H1 H2]. destruct Hm as [H3 H4]. split; congruence.
Qed.

Lemma ktt_try_catch {A} (m : M state A) (h : error -> M state A) :
  keeps_tokens_and_totals m -> (forall e, keeps_tokens_and_totals (h e)) ->
  keeps_tokens_and_totals (try_catch m h).
Proof.
  intros Hm Hh s. unfold try_catch. specialize (Hm s).
  destruct (m s) as [[a|e] s1]; cbn [snd] in *; [exact Hm|].
  destruct (Hh e s1) as [H1 H2]. destruct Hm as [H3 H4]. split; congruence.
Qed.

Lemma ktt_for_each {X} (xs : list X) (body : X -> M state unit) :
  (forall x, keeps_tokens_and_totals (body x)) ->
  keeps_tokens_and_totals (for_each xs body).
Proof.
  intros Hbody. induction xs as [|x xs IH]; cbn [for_each].
  - intros s. split; reflexivity.
  - apply ktt_bind; [apply Hbody | intros _; exact IH].
Qed.

Lemma ktt_liftFS {A} (m : M store A) : keeps_tokens_and_totals (liftFS m).
Proof. intros s. unfold liftFS. destruct (m (fs s)). split; reflexivity. Qed.

Ltac ktt_step :=
  first
    [ apply ktt_liftFS
    | apply ktt_for_each; intros ?
    | apply ktt_bind; [|intros ?]
    | apply ktt_try_catch; [|intros ?]
    | match goal with |- keeps_tokens_and_totals (if ?c then _ else _) =>
        destruct c end
    | match goal with |- keeps_tokens_and_totals (match ?c with _ => _ end) =>
        destruct c end
    | (intros ?; split; reflexivity) ].

Lemma sync_keeps_tokens_and_totals opts figmaApi builtins figmaIcons
    currentState s :
  tokensFile
    (downloadAndSyncIcons opts figmaApi builtins figmaIcons currentState s).2
  = tokensFile s
  /\ totalBrands
       (syncStats
          (downloadAndSyncIcons opts figmaApi builtins figmaIcons
             currentState s).2)
     = totalBrands (syncStats s).
Proof.
  revert s. change (keeps_tokens_and_totals
                      (downloadAndSyncIcons opts figmaApi builtins figmaIcons
                         currentState)).
  unfold downloadAndSyncIcons, syncBrand, handleRemovedIcons, processIcon.
  cbn zeta. repeat ktt_step.
Qed.

(** X15. With a file system whose reads and writes do not fail, a run of
    [syncIcons] throws only when the remote listing cannot be fetched, and
    then as [SYNC_FAILED] with the assets and the tokens file untouched.  Once the listing is there, no failure of a brand, an
    export, a download or a write of an icon makes the run throw; outside
    preview mode it ends by replacing the tokens file with the registry
    of the whole listing, whatever became of the icons. *)
Theorem syncIcons_contains_failures opts figmaApi builtins s :
  match getIconsByBrand figmaApi (figmaFileKey opts) with
  | Ok figmaIcons =>
      exists s',
        syncIcons opts figmaApi builtins s = (Ok tt, s')
        /\ totalBrands (syncStats s') = length figmaIcons
        /\ tokensFile s'
           = if dryRun opts then tokensFile s
             else Some (build_tokens figmaIcons)
  | Err e =>
      syncIcons opts figmaApi builtins s
      = (Err (FigmaSyncErrorFrom "SYNC_FAILED" e),
         {| fs := fs s; tokensFile := tokensFile s;
            syncStats :=
              push_stat_error
                {| stat_type := "SYNC_ERROR"; stat_brand := None;
                   stat_icon := None; stat_cause := e |} (syncStats s);
            results := results s |})
  end.
Proof.
  destruct (getIconsByBrand figmaApi (figmaFileKey opts)) as [figmaIcons|e] eqn:Hl.
  - unfold syncIcons, try_catch, bind, get, lift. rewrite Hl.
    cbn [update_stats modify].
    set (s1 := {| fs := fs s; tokensFile := tokensFile s;
                  syncStats := _; results := results s |}).
    set (cur := buildCurrentState _ _).
    destruct (downloadAndSyncIcons_returns opts figmaApi builtins figmaIcons
                cur s1) as [[] Hret].
    assert (Hkeep : tokensFile
                      (downloadAndSyncIcons opts figmaApi builtins figmaIcons
                         cur s1).2
                    = tokensFile s
                    /\ totalBrands
                         (syncStats
                            (downloadAndSyncIcons opts figmaApi builtins
                               figmaIcons cur s1).2)
                       = length figmaIcons).
    { apply (sync_keeps_tokens_and_totals opts figmaApi builtins figmaIcons
               cur s1). }
    destruct (downloadAndSyncIcons opts figmaApi builtins figmaIcons cur s1)
      as [r s2].
    cbn [fst snd] in *. subst r. destruct Hkeep as [Htok Htot].
    unfold updateTokensFile. destruct (dryRun opts).
    + eexists. split; [reflexivity|]. split; [exact Htot | exact Htok].
    + cbn. eexists. split; [reflexivity|]. split; [exact Htot | reflexivity].
  - unfold syncIcons, try_catch, bind, get, lift. now rewrite Hl.
Qed.

(** *** The classification of a preview *)

Lemma update_results_at b f s :
  update_results b f s
  = (Ok tt,
     set_results s b (f (default empty_results (obj_get (results s) b)))).
Proof. reflexivity. Qed.

Lemma update_results_set b f s r :
  update_results b f (set_results s b r) = (Ok tt, set_results s b (f r)).
Proof.
  rewrite update_results_at. unfold set_results. cbn [results fs tokensFile syncStats].
  now rewrite obj_get_set_eq, obj_set_set.
Qed.

Lemma foldl_classify_icon cur icons : forall r,
  foldl (classify_icon cur) r icons
  = {| added := added r ++ map would_add
                  (List.filter (fun i => negb (is_local cur i)) icons);
       updated := updated r ++ map would_update
                    (List.filter (is_local cur) icons);
       removed := removed r; errors := errors r; skipped := skipped r |}.
Proof.
  induction icons as [|icon icons IH]; intros r; cbn [foldl List.filter map].
  - destruct r. cbn. now rewrite !app_nil_r.
  - rewrite IH. unfold classify_icon.
    destruct (is_local cur icon); cbn; now rewrite <- ?app_assoc.
Qed.

Lemma foldl_classify_local icons names : forall r,
  foldl (classify_local icons) r names
  = {| added := added r; updated := updated r;
       removed := removed r ++ map would_remove
                    (List.filter (fun n => negb (is_remote icons n)) names);
       errors := errors r; skipped := skipped r |}.
Proof.
  induction names as [|n names IH]; intros r; cbn [foldl List.filter map].
  - destruct r. cbn. now rewrite !app_nil_r.
  - rewrite IH. unfold classify_local.
    destruct (is_remote icons n); cbn; now rewrite <- ?app_assoc.
Qed.

(** On a plain object the lookup finds the own properties and those of
    [Object.prototype]. *)
Lemma has_icon_plain builtins own icon :
  has_icon builtins (PlainIcons own) (name icon) = Ok (is_local own icon).
Proof.
  cbn [has_icon]. unfold js_get, is_local. f_equal.
  destruct (obj_get own (name icon)) as [v|] eqn:Hown.
  - symmetry. apply bool_decide_eq_true_2. left. eauto.
  - unfold object_prototype.
    destruct (bool_decide (name icon ∈ _)) eqn:Hin.
    + apply bool_decide_eq_true_1 in Hin. symmetry.
      apply bool_decide_eq_true_2. now right.
    + apply bool_decide_eq_false_1 in Hin. symmetry.
      apply bool_decide_eq_false_2. intros [[? ?]|?]; [discriminate | auto].
Qed.

(** The own [images[icon.id]], when it is not the empty string. *)
Lemma js_get_url images k url :
  obj_get images k = Some url -> url <> EmptyString ->
  js_get images k = Own url /\ no_url (Own url) = false.
Proof.
  intros H Hne. unfold js_get. rewrite H. split; [reflexivity|].
  cbn. now apply String.eqb_neq.
Qed.

Section OneBrand.

Variable opts : options.
Variable figmaApi : figma_api.
Variable builtins : string -> string -> option bool.
Variable brandName : string.
Variable icons : list remote_icon.
Variable own : jsobj current_icon.
Variable images : jsobj string.

Hypothesis preview : dryRun opts = true.

(** Every icon has an export URL and its download succeeds. *)
Hypothesis downloads : forall icon, icon ∈ icons ->
  exists url content,
    obj_get images (id icon) = Some url /\ url <> EmptyString
    /\ downloadSvg figmaApi (Own url) (name icon) = Ok content.

Lemma processIcon_classifies icon s r :
  icon ∈ icons ->
  processIcon opts figmaApi builtins brandName icon (js_get images (id icon))
    (PlainIcons own) (set_results s brandName r)
  = (Ok tt, set_results s brandName (classify_icon own r icon)).
Proof.
  intros Hin.
  destruct (downloads icon Hin) as (url & content & Hurl & Hne & Hdl).
  destruct (js_get_url _ _ _ Hurl Hne) as [-> Hno].
  unfold processIcon. rewrite Hno. unfold try_catch, bind, lift.
  rewrite Hdl, has_icon_plain, preview. unfold classify_icon.
  destruct (is_local own icon); now rewrite update_results_set.
Qed.

Lemma icons_loop_classifies (handler : remote_icon -> error -> M state unit) :
  forall todo s r,
    (forall icon, icon ∈ todo -> icon ∈ icons) ->
    for_each todo (fun icon =>
      try_catch
        (processIcon opts figmaApi builtins brandName icon
           (js_get images (id icon)) (PlainIcons own))
        (handler icon))
      (set_results s brandName r)
    = (Ok tt, set_results s brandName (foldl (classify_icon own) r todo)).
Proof.
  induction todo as [|icon todo IH]; intros s r Hsub; [reflexivity|].
  cbn [for_each foldl]. unfold bind at 1. unfold try_catch at 1.
  rewrite processIcon_classifies by (apply Hsub; left).
  apply IH. intros i Hi. apply Hsub. now right.
Qed.

Lemma handleRemovedIcons_classifies s r :
  handleRemovedIcons opts brandName icons (PlainIcons own)
    (set_results s brandName r)
  = (Ok tt,
     set_results s brandName (foldl (classify_local icons) r (obj_keys own))).
Proof.
  unfold handleRemovedIcons. cbn zeta. rewrite preview. cbn [icon_names].
  generalize (obj_keys own) as names. intros names. revert r.
  induction names as [|n names IH]; intros r; [reflexivity|].
  cbn [for_each foldl]. unfold bind at 1. unfold classify_local at 2.
  unfold is_remote. destruct (bool_decide (n ∈ map name icons)); cbn [negb].
  - cbn [ret]. apply IH.
  - rewrite update_results_set. apply IH.
Qed.

End OneBrand.

(** X16. In preview mode, when [currentState[brand] || {}] is a plain
    object -- the icons of the local brand, or the empty object for a
    brand that is not local and does not have the name of a property of
    [Object.prototype] -- and the export of the brand and the download of
    each of its icons succeed, [results[brand]] ends as the classification
    of the remote icons: [added] holds the remote icons whose name is no
    property of the object, [updated] those whose name is one, be it the
    name of a local icon or a name such as [constructor], which every
    object has; [removed] holds the local names no remote icon has, in the
    order in which the object enumerates them, and [errors] is empty;
    nothing else of the state changes.  (For the brand name [__proto__]
    the assignment to [results[brand]] would not create a property.) *)
Theorem preview_classifies opts figmaApi builtins
    (currentState : jsobj (jsobj current_icon)) brandName
    (own : jsobj current_icon) icons images s :
  dryRun opts = true ->
  brandName <> "__proto__" ->
  (obj_get currentState brandName = Some own
   \/ (obj_get currentState brandName = None /\ own = []
       /\ brandName
          ∉ [ "constructor"; "hasOwnProperty"; "isPrototypeOf";
              "propertyIsEnumerable"; "toLocaleString"; "toString";
              "valueOf"; "__defineGetter__"; "__defineSetter__";
              "__lookupGetter__"; "__lookupSetter__"; "__proto__" ])) ->
  (icons <> [] ->
   exportNodes figmaApi (figmaFileKey opts) (map id icons) "svg" = Ok images) ->
  (forall icon, icon ∈ icons ->
     exists url content,
       obj_get images (id icon) = Some url /\ url <> EmptyString
       /\ downloadSvg figmaApi (Own url) (name icon) = Ok content) ->
  syncBrand opts figmaApi builtins currentState (brandName, icons) s
  = (Ok tt,
     set_results s brandName
       {| added :=
            map would_add
              (List.filter (fun icon => negb (is_local own icon)) icons);
          updated := map would_update (List.filter (is_local own) icons);
          removed :=
            map would_remove
              (List.filter (fun n => negb (bool_decide (n ∈ map name icons)))
                 (obj_keys own));
          errors := []; skipped := [] |}).
Proof.
  intros Hdry _ Hcur Hexport Hdl. unfold syncBrand. cbn zeta. cbn [fst snd].
  assert (Hplain : current_icons currentState brandName = PlainIcons own).
  { unfold current_icons, js_get.
    destruct Hcur as [->|(-> & -> & Hno)]; [reflexivity|].
    unfold object_prototype. now rewrite bool_decide_eq_false_2. }
  rewrite Hplain.
  unfold bind at 1. rewrite update_results_at.
  unfold try_catch at 1. rewrite Hdry. cbn [negb].
  unfold bind at 1. cbn [ret].
  assert (Hloop :
    (if (0 <? length icons)%nat
     then
       try_catch
         (do images0 <- lift (exportNodes figmaApi (figmaFileKey opts)
                                (map id icons) "svg");
          for_each icons (fun icon =>
            try_catch
              (processIcon opts figmaApi builtins brandName icon
                 (js_get images0 (id icon)) (PlainIcons own))
              (fun error =>
                 update_results brandName
                   (push_failure (IconFailed (name icon) error)) ;;
                 update_stats
                   (push_stat_error
                      {| stat_type := "ICON_PROCESS_ERROR";
                         stat_brand := Some brandName;
                         stat_icon := Some (name icon);
                         stat_cause := error |}))))
         (fun error =>
            update_results brandName
              (push_failure (ExportFailed brandName error)) ;;
            update_stats
              (push_stat_error
                 {| stat_type := "EXPORT_ERROR";
                    stat_brand := Some brandName; stat_icon := None;
                    stat_cause := error |}))
     else ret tt)
      (set_results s brandName empty_results)
    = (Ok tt,
       set_results s brandName (foldl (classify_icon own) empty_results icons))).
  { destruct icons as [|i0 rest] eqn:Hicons; [reflexivity|].
    cbn [length Nat.ltb Nat.leb]. unfold try_catch at 1. unfold bind at 1.
    unfold lift. rewrite Hexport by discriminate.
    rewrite <- Hicons in *.
    now rewrite (icons_loop_classifies opts figmaApi builtins brandName icons
                   own images Hdry Hdl). }
  unfold bind at 1. rewrite Hloop.
  rewrite (handleRemovedIcons_classifies opts brandName icons own Hdry).
  rewrite foldl_classify_local, foldl_classify_icon. reflexivity.
Qed.

Lemma preview_classifies_witness :
  syncBrand (mkOptions "key" true) Scenario.figmaApi Scenario.builtins
    [("global", [("hamburger", mkCurrent "hamburger.svg" "global/hamburger.svg" 14);
                 ("menu", mkCurrent "menu.svg" "global/menu.svg" 6)])]
    ("global",
     [mkRemote "1:1" "hamburger" EmptyString "Hamburger";
      mkRemote "1:2" "ice-cream" EmptyString "Ice Cream";
      mkRemote "1:3" "constructor" EmptyString "Constructor"])
    (initial_state Scenario.local_store None)
  = (Ok tt,
     set_results (initial_state Scenario.local_store None) "global"
       {| added :=
            map would_add
              (List.filter
                 (fun icon =>
                    negb (is_local
                            [("hamburger",
                              mkCurrent "hamburger.svg" "global/hamburger.svg"
                                14);
                             ("menu", mkCurrent "menu.svg" "global/menu.svg" 6)]
                            icon))
                 [mkRemote "1:1" "hamburger" EmptyString "Hamburger";
                  mkRemote "1:2" "ice-cream" EmptyString "Ice Cream";
                  mkRemote "1:3" "constructor" EmptyString "Constructor"]);
          updated :=
            map would_update
              (List.filter
                 (is_local
                    [("hamburger",
                      mkCurrent "hamburger.svg" "global/hamburger.svg" 14);
                     ("menu", mkCurrent "menu.svg" "global/menu.svg" 6)])
                 [mkRemote "1:1" "hamburger" EmptyString "Hamburger";
                  mkRemote "1:2" "ice-cream" EmptyString "Ice Cream";
                  mkRemote "1:3" "constructor" EmptyString "Constructor"]);
          removed :=
            map would_remove
              (List.filter
                 (fun n =>
                    negb (bool_decide
                            (n ∈ map name
                                   [mkRemote "1:1" "hamburger" EmptyString
                                      "Hamburger";
                                    mkRemote "1:2" "ice-cream" EmptyString
                                      "Ice Cream";
                                    mkRemote "1:3" "constructor" EmptyString
                                      "Constructor"])))
                 (obj_keys
                    [("hamburger",
                      mkCurrent "hamburger.svg" "global/hamburger.svg" 14);
                     ("menu", mkCurrent "menu.svg" "global/menu.svg" 6)]));
          errors := []; skipped := [] |}).
Proof.
  apply (preview_classifies (mkOptions "key" true) Scenario.figmaApi
           Scenario.builtins _ "global"
           [("hamburger", mkCurrent "hamburger.svg" "global/hamburger.svg" 14);
            ("menu", mkCurrent "menu.svg" "global/menu.svg" 6)]
           _ [("1:1", "https://cdn/1:1"); ("1:2", "https://cdn/1:2");
              ("1:3", "https://cdn/1:3")]).
  - reflexivity.
  - discriminate.
  - left. reflexivity.
  - intros _. reflexivity.
  - intros icon Hin.
    repeat (apply elem_of_cons in Hin as [->|Hin]);
      [| | |now apply elem_of_nil in Hin];
      eexists _, _; (split; [reflexivity|]); (split; [discriminate|]);
      reflexivity.
Defined.

(** *** Applying a change to one icon *)

Section Apply.

Variable opts : options.
Variable figmaApi : figma_api.
Variable builtins : string -> string -> option bool.

Hypothesis apply_mode : dryRun opts = false.

Variables (brandName b : string) (icon : remote_icon) (n : string).
Variables (url content : string).
Variable own : jsobj current_icon.

Hypothesis brand_ok : BrandManager.sanitizeBrandName brandName = Ok b.
Hypothesis brand_not_empty : b <> EmptyString.
Hypothesis name_ok : BrandManager.sanitizeIconName (name icon) = Ok n.
Hypothesis has_url : url <> EmptyString.
Hypothesis downloaded : downloadSvg figmaApi (Own url) (name icon) = Ok content.

Lemma processIcon_existing s dir old :
  fs s !! b = Some dir ->
  dir !! (n +:+ ".svg") = Some (File old) ->
  processIcon opts figmaApi builtins brandName icon (Own url) (PlainIcons own) s
  = (Err (ReferenceError "svgContent"),
     set_fs s (<[b := delete (n +:+ ".svg") dir]> (fs s))).
Proof.
  intros Hdir Hfile. unfold processIcon.
  cbn [no_url]. rewrite (proj2 (String.eqb_neq _ _) has_url).
  unfold try_catch at 1. unfold bind at 1. unfold lift at 1.
  rewrite downloaded. unfold bind at 1. unfold lift at 1.
  rewrite has_icon_plain, apply_mode. unfold bind at 1. unfold liftFS at 1.
  rewrite (addIconToBrand_sanitized _ _ _ _ _ _ _ brand_ok name_ok brand_not_empty).
  cbn zeta. rewrite (brand_dir_lookup _ _ _ Hdir).
  change (n +:+ "." +:+ "svg") with (n +:+ ".svg").
  rewrite Hfile, bool_decide_eq_true_2 by eauto.
  rewrite (with_brand_present _ _ _ Hdir).
  cbn [has_code err_code]. rewrite String.eqb_refl.
  unfold try_catch, bind, liftFS. cbn [fs].
  rewrite (removeIconFromBrand_svg _ _ _ _ _ _ _ brand_ok name_ok
             brand_not_empty Hdir Hfile).
  reflexivity.
Qed.

Lemma processIcon_fresh s :
  BrandManager.brand_dir b (fs s) !! (n +:+ ".svg") = None ->
  includes content "<svg" = true ->
  processIcon opts figmaApi builtins brandName icon (Own url) (PlainIcons own) s
  = (Ok tt,
     let written :=
       set_fs s (<[b := <[n +:+ ".svg" := File content]>
                          (BrandManager.brand_dir b (fs s))]> (fs s)) in
     let entry action :=
       {| change_name := name icon;
          change_originalName := Some (originalName icon);
          change_path := Some (BrandManager.join b (n +:+ ".svg"));
          action := action |} in
     if is_local own icon
     then (update_stats count_updated
             (update_results brandName (push_updated (entry "updated"))
                written).2).2
     else (update_stats count_added
             (update_results brandName (push_added (entry "added"))
                written).2).2).
Proof.
  intros Hfree Hsvg. unfold processIcon.
  cbn [no_url]. rewrite (proj2 (String.eqb_neq _ _) has_url).
  unfold try_catch at 1. unfold bind at 1. unfold lift at 1.
  rewrite downloaded. unfold bind at 1. unfold lift at 1.
  rewrite has_icon_plain, apply_mode. unfold bind at 1. unfold liftFS at 1.
  rewrite (addIconToBrand_sanitized _ _ _ _ _ _ _ brand_ok name_ok brand_not_empty).
  cbn zeta. change (n +:+ "." +:+ "svg") with (n +:+ ".svg").
  rewrite Hfree, bool_decide_eq_false_2 by (intros [? ?]; discriminate).
  rewrite Hsvg, andb_false_r. cbn [BrandManager.added_path].
  destruct (is_local own icon); reflexivity.
Qed.

End Apply.

(** X17. Outside preview mode, for an icon with an export URL whose
    download has succeeded and a plain object [currentIcons]: when the
    [svg] file of the icon is already in the brand directory, the icon is
    not updated: [processIcon] deletes the file and throws a
    [ReferenceError].  When there is no such file and the download
    contains [<svg], the file is written with the downloaded content and
    the icon is recorded and counted, as [updated] when its name is a
    property of [currentIcons] (the name of a local icon, or one every
    object has, such as [constructor]) and as [added] otherwise. *)
Theorem processIcon_applies opts figmaApi builtins brandName b icon n url
    content own s :
  dryRun opts = false ->
  brandName <> "__proto__" ->
  BrandManager.sanitizeBrandName brandName = Ok b -> b <> EmptyString ->
  BrandManager.sanitizeIconName (name icon) = Ok n ->
  url <> EmptyString ->
  downloadSvg figmaApi (Own url) (name icon) = Ok content ->
  (forall dir old,
     fs s !! b = Some dir -> dir !! (n +:+ ".svg") = Some (File old) ->
     processIcon opts figmaApi builtins brandName icon (Own url)
       (PlainIcons own) s
     = (Err (ReferenceError "svgContent"),
        set_fs s (<[b := delete (n +:+ ".svg") dir]> (fs s))))
  /\ (BrandManager.brand_dir b (fs s) !! (n +:+ ".svg") = None ->
      includes content "<svg" = true ->
      exists s',
        processIcon opts figmaApi builtins brandName icon (Own url)
          (PlainIcons own) s
        = (Ok tt, s')
        /\ fs s' = <[b := <[n +:+ ".svg" := File content]>
                            (BrandManager.brand_dir b (fs s))]> (fs s)
        /\ tokensFile s' = tokensFile s
        /\ syncStats s'
           = (if is_local own icon then count_updated else count_added)
               (syncStats s)
        /\ results s'
           = obj_set (results s) brandName
               ((if is_local own icon then push_updated else push_added)
                  {| change_name := name icon;
                     change_originalName := Some (originalName icon);
                     change_path := Some (BrandManager.join b (n +:+ ".svg"));
                     action := if is_local own icon
                               then "updated" else "added" |}
                  (default empty_results (obj_get (results s) brandName)))).
Proof.
  intros Hdry _ HB Hb HI Hurl Hdl. split.
  - intros dir old Hd Hf. eapply processIcon_existing; eassumption.
  - intros Hfree Hsvg.
    erewrite processIcon_fresh; try eassumption.
    cbn zeta. eexists. split; [reflexivity|].
    destruct (is_local own icon); cbn; repeat split; reflexivity.
Qed.

Lemma processIcon_applies_witness :
  processIcon (mkOptions "key" false) Scenario.figmaApi Scenario.builtins
    "global" (mkRemote "1:1" "hamburger" EmptyString "Hamburger")
    (Own "https://cdn/1:1")
    (PlainIcons
       [("hamburger", mkCurrent "hamburger.svg" "global/hamburger.svg" 14)])
    (initial_state Scenario.local_store None)
  = (Err (ReferenceError "svgContent"),
     set_fs (initial_state Scenario.local_store None)
       (<["global" := delete ("hamburger" +:+ ".svg")
                        (<["hamburger.svg" := File "<svg>old</svg>"]> ∅)]>
          (fs (initial_state Scenario.local_store None))))
  /\ exists s',
       processIcon (mkOptions "key" false) Scenario.figmaApi Scenario.builtins
         "global" (mkRemote "1:2" "ice-cream" EmptyString "Ice Cream")
         (Own "https://cdn/1:2")
         (PlainIcons
            [("hamburger",
              mkCurrent "hamburger.svg" "global/hamburger.svg" 14)])
         (initial_state Scenario.local_store None)
       = (Ok tt, s')
       /\ fs s'
          = <["global" := <["ice-cream" +:+ ".svg"
                            := File "<svg>https://cdn/1:2</svg>"]>
                            (BrandManager.brand_dir "global"
                               (fs (initial_state Scenario.local_store None)))]>
              (fs (initial_state Scenario.local_store None))
       /\ tokensFile s' = tokensFile (initial_state Scenario.local_store None)
       /\ syncStats s'
          = (if is_local
                  [("hamburger",
                    mkCurrent "hamburger.svg" "global/hamburger.svg" 14)]
                  (mkRemote "1:2" "ice-cream" EmptyString "Ice Cream")
             then count_updated else count_added)
              (syncStats (initial_state Scenario.local_store None))
       /\ results s'
          = obj_set (results (initial_state Scenario.local_store None)) "global"
              ((if is_local
                     [("hamburger",
                       mkCurrent "hamburger.svg" "global/hamburger.svg" 14)]
                     (mkRemote "1:2" "ice-cream" EmptyString "Ice Cream")
                then push_updated else push_added)
                 {| change_name :=
                      name (mkRemote "1:2" "ice-cream" EmptyString "Ice Cream");
                    change_originalName :=
                      Some (originalName
                              (mkRemote "1:2" "ice-cream" EmptyString
                                 "Ice Cream"));
                    change_path :=
                      Some (BrandManager.join "global" ("ice-cream" +:+ ".svg"));
                    action :=
                      if is_local
                           [("hamburger",
                             mkCurrent "hamburger.svg" "global/hamburger.svg"
                               14)]
                           (mkRemote "1:2" "ice-cream" EmptyString "Ice Cream")
                      then "updated" else "added" |}
                 (default empty_results
                    (obj_get
                       (results (initial_state Scenario.local_store None))
                       "global"))).
Proof.
  split.
  - apply (proj1 (processIcon_applies (mkOptions "key" false) Scenario.figmaApi
                    Scenario.builtins "global" "global"
                    (mkRemote "1:1" "hamburger" EmptyString "Hamburger")
                    "hamburger" "https://cdn/1:1" "<svg>https://cdn/1:1</svg>"
                    [("hamburger",
                      mkCurrent "hamburger.svg" "global/hamburger.svg" 14)]
                    (initial_state Scenario.local_store None)
                    eq_refl ltac:(discriminate) eq_refl ltac:(discriminate)
                    eq_refl ltac:(discriminate) eq_refl)
             _ "<svg>old</svg>");
      reflexivity.
  - apply (proj2 (processIcon_applies (mkOptions "key" false) Scenario.figmaApi
                    Scenario.builtins "global" "global"
                    (mkRemote "1:2" "ice-cream" EmptyString "Ice Cream")
                    "ice-cream" "https://cdn/1:2" "<svg>https://cdn/1:2</svg>"
                    [("hamburger",
                      mkCurrent "hamburger.svg" "global/hamburger.svg" 14)]
                    (initial_state Scenario.local_store None)
                    eq_refl ltac:(discriminate) eq_refl ltac:(discriminate)
                    eq_refl ltac:(discriminate) eq_refl));
      reflexivity.
Defined.

(** *** The rebuilt registry *)

Lemma build_tokens_acc figmaIcons : forall acc,
  let reg :=
    foldl (fun tokens (entry : string * list remote_icon) =>
             foldl (fun tokens icon =>
                      obj_set tokens (entry.1 +:+ "-" +:+ name icon)
                        (token_of entry.1 icon))
                   tokens entry.2)
          acc figmaIcons in
  NoDup (obj_keys acc) ->
  NoDup (obj_keys reg)
  /\ (forall k, is_Some (obj_get acc k) -> is_Some (obj_get reg k))
  /\ (forall brandName icons icon,
        (brandName, icons) ∈ figmaIcons -> icon ∈ icons ->
        is_Some (obj_get reg (brandName +:+ "-" +:+ name icon))).
Proof.
  induction figmaIcons as [|[brandName icons] rest IH]; intros acc; cbn zeta.
  - cbn [foldl]. intros Hnd. repeat split; [exact Hnd | auto |].
    intros ? ? ? []%elem_of_nil.
  - cbn [foldl fst snd]. intros Hnd.
    assert (Hinner : forall acc0, NoDup (obj_keys acc0) ->
      let acc1 :=
        foldl (fun tokens icon =>
                 obj_set tokens (brandName +:+ "-" +:+ name icon)
                   (token_of brandName icon)) acc0 icons in
      NoDup (obj_keys acc1)
      /\ (forall k, is_Some (obj_get acc0 k) -> is_Some (obj_get acc1 k))
      /\ (forall icon, icon ∈ icons ->
            is_Some (obj_get acc1 (brandName +:+ "-" +:+ name icon)))).
    { clear. induction icons as [|icon icons IHi]; intros acc0 Hnd0; cbn zeta.
      - cbn [foldl]. repeat split; [exact Hnd0 | auto |].
        intros ? []%elem_of_nil.
      - cbn [foldl].
        destruct (IHi _ (obj_keys_set_NoDup acc0
                           (brandName +:+ "-" +:+ name icon)
                           (token_of brandName icon) Hnd0)) as (I1 & I2 & I3).
        cbn zeta in *. repeat split; [exact I1 | |].
        + intros k Hk. now apply I2, obj_set_keeps.
        + intros i [->|Hi]%elem_of_cons; [|now apply I3].
          apply I2. rewrite obj_get_set_eq. eauto. }
    destruct (Hinner acc Hnd) as (I1 & I2 & I3). cbn zeta in *.
    destruct (IH _ I1) as (H1 & H2 & H3). cbn zeta in *.
    repeat split; [exact H1 | auto |].
    intros b' icons' icon [[= -> ->]|Hin]%elem_of_cons Hicon.
    + apply H2, I3, Hicon.
    + now apply (H3 b' icons').
Qed.

(** X18. The registry [updateTokensFile] builds holds a token for every icon of
    the remote listing, under the key of its brand and name; it holds each
    key once, and every entry is the token of a remote icon. *)
Theorem build_tokens_covers figmaIcons :
  NoDup (obj_keys (build_tokens figmaIcons))
  /\ (forall brandName icons icon,
        (brandName, icons) ∈ figmaIcons -> icon ∈ icons ->
        is_Some (obj_get (build_tokens figmaIcons)
                   (brandName +:+ "-" +:+ name icon)))
  /\ (forall key t,
        obj_get (build_tokens figmaIcons) key = Some t ->
        exists brandName icons icon,
          (brandName, icons) ∈ figmaIcons /\ icon ∈ icons
          /\ key = brandName +:+ "-" +:+ name icon
          /\ t = token_of brandName icon).
Proof.
  destruct (build_tokens_acc figmaIcons []) as (H1 & _ & H3);
    [constructor|].
  cbn zeta in *. fold (build_tokens figmaIcons) in *.
  split; [exact H1|]. split; [exact H3|].
  intros key t Hget. apply obj_get_elem_of in Hget.
  pose proof (build_tokens_Forall
                (fun e => exists brandName icons icon,
                   (brandName, icons) ∈ figmaIcons /\ icon ∈ icons
                   /\ e.1 = brandName +:+ "-" +:+ name icon
                   /\ e.2 = token_of brandName icon) figmaIcons) as HF.
  rewrite Forall_forall in HF. apply (HF ltac:(intros; eauto 10) _ Hget).
Qed.

End SyncMore.

(** ** The build pipeline, continued *)
Section BuildMore.

Import MultiBrandBuilder.

Variable opts : options.
Variable ext : tools.
Variable assets : store.

Lemma set_cwd_same s : set_cwd (cwd s) s = s.
Proof. now destruct s. Qed.

(** *** Tasks that only move the working directory *)

Lemma settles_with_impl {A} (P Q : result A -> Prop) t :
  (forall r, P r -> Q r) -> settles_with P t -> settles_with Q t.
Proof.
  intros HPQ. induction t as [r|resume IH effect]; cbn [settles_with]; [auto|].
  intros H s. destruct (H s) as [Hd Hr]. split; [exact Hd | now apply IH].
Qed.

Lemma settling_impl {A} (P Q : result A -> Prop) m :
  (forall r, P r -> Q r) -> settling P m -> settling Q m.
Proof.
  intros HPQ H s. destruct (H s) as [Hd Hr].
  split; [exact Hd | now apply (settles_with_impl P)].
Qed.

Lemma settling_sync_lift {A} (r : result A) : settling (eq r) (sync (lift r)).
Proof.
  intros s. cbn. split; [|reflexivity]. exists (cwd s). now rewrite set_cwd_same.
Qed.

Lemma settling_sync_ret {A} (a : A) : settling (eq (Ok a)) (sync (ret a)).
Proof. apply (settling_sync_lift (Ok a)). Qed.

Lemma settling_sync_chdir dir (dir_exists : bool) :
  settling
    (eq (if dir_exists then Ok tt else Err (SystemError "ENOENT") : result unit))
    (sync (chdir dir dir_exists)).
Proof.
  intros s. unfold sync, chdir. destruct dir_exists; cbn.
  - split; [now exists dir | reflexivity].
  - split; [|reflexivity]. exists (cwd s). now rewrite set_cwd_same.
Qed.

Lemma then_task_settling {A B} (P : result A -> Prop) (Q : result B -> Prop)
    (t : task state A) (k : A -> async state B) :
  settles_with P t ->
  (forall a, P (Ok a) -> settling Q (k a)) ->
  (forall e, P (Err e) -> Q (Err e)) ->
  settling Q (then_task t k).
Proof.
  intros Ht Hk He. induction t as [[a|e]|resume IH effect];
    cbn [settles_with then_task] in *.
  - now apply Hk.
  - intros s. cbn. split; [|now apply He].
    exists (cwd s). now rewrite set_cwd_same.
  - intros s. cbn [fst snd]. split.
    { exists (cwd s). now rewrite set_cwd_same. }
    cbn [pending settles_with]. intros s1. destruct (Ht s1) as [[d1 Hd1] Hr1].
    destruct (IH s1 Hr1 (effect s1)) as [[d Hd] Hs].
    split; [|exact Hs]. exists d. now rewrite Hd, Hd1.
Qed.

Lemma settling_abind {A B} (P : result A -> Prop) (Q : result B -> Prop)
    (m : async state A) (k : A -> async state B) :
  settling P m ->
  (forall a, P (Ok a) -> settling Q (k a)) ->
  (forall e, P (Err e) -> Q (Err e)) ->
  settling Q (abind m k).
Proof.
  intros Hm Hk He s. unfold abind. destruct (Hm s) as [[d1 Hd1] Ht].
  destruct (m s) as [t s1]. cbn [fst snd] in *. subst s1.
  destruct (then_task_settling P Q t k Ht Hk He (set_cwd d1 s)) as [[d Hd] Hs].
  split; [|exact Hs]. exists d. now rewrite Hd.
Qed.

(** A [catch] block that throws the error again. *)
Lemma settling_rethrow {A} (P : result A -> Prop) (m : async state A) :
  settling P m -> settling P (atry m (fun error => sync (throw error))).
Proof.
  intros Hm.
  assert (Hcatch : forall t, settles_with P t ->
            settling P (catch_task t (fun error => sync (throw error)))).
  { induction t as [[a|e]|resume IH effect]; cbn [settles_with catch_task];
      intros Ht s.
    - cbn. split; [|exact Ht]. exists (cwd s). now rewrite set_cwd_same.
    - cbn. split; [|exact Ht]. exists (cwd s). now rewrite set_cwd_same.
    - cbn [fst snd]. split; [exists (cwd s); now rewrite set_cwd_same|].
      cbn [pending settles_with]. intros s1.
      destruct (Ht s1) as [[d1 Hd1] Hr1].
      destruct (IH s1 Hr1 (effect s1)) as [[d Hd] Hs].
      split; [|exact Hs]. exists d. now rewrite Hd, Hd1. }
  intros s. unfold atry. destruct (Hm s) as [[d1 Hd1] Ht].
  destruct (m s) as [t s1]. cbn [fst snd] in *. subst s1.
  destruct (Hcatch t Ht (set_cwd d1 s)) as [[d Hd] Hs].
  split; [|exact Hs]. exists d. now rewrite Hd.
Qed.

Lemma settling_await {A} (P : result A -> Prop) (m : async state A) :
  settling P m -> settling P (await m).
Proof.
  intros Hm s. unfold await. destruct (Hm s) as [Hd Ht].
  destruct (m s) as [t s1]. cbn [fst snd] in *. split; [exact Hd|].
  cbn [pending settles_with fst snd]. intros s2. split; [|exact Ht].
  exists (cwd s2). now rewrite set_cwd_same.
Qed.

Lemma settling_external {A} (P : result A -> Prop) (observe : state -> result A) :
  (forall s, P (observe s)) -> settling P (external observe).
Proof.
  intros HP s. unfold external. cbn [fst snd].
  split; [exists (cwd s); now rewrite set_cwd_same|].
  cbn [pending settles_with fst snd]. intros s1.
  split; [exists (cwd s1); now rewrite set_cwd_same|].
  intros s2. split; [exists (cwd s2); now rewrite set_cwd_same | apply HP].
Qed.

Lemma settle_settles {A} (P : result A -> Prop) (t : task state A) :
  settles_with P t ->
  forall s, exists d, (settle t s).2 = set_cwd d s /\ P (settle t s).1.
Proof.
  induction t as [r|resume IH effect]; cbn [settles_with settle]; intros Ht s.
  - exists (cwd s). now rewrite set_cwd_same.
  - destruct (Ht s) as [[d1 Hd1] Hr].
    destruct (IH s Hr (effect s)) as (d & Hd & HP).
    exists d. split; [now rewrite Hd, Hd1 | exact HP].
Qed.

(** *** One brand *)

(** What the font stage throws or returns is what the font compiler makes
    of the working directory it finds, which need not be the directory of
    the brand. *)
Lemma generateFontFilesAsync_settling brandName icons :
  settling
    (fun r => exists dir,
       r = let? brandDir := BrandManager.getBrandDirectory brandName in
           if BrandManager.existsDir brandDir assets
           then webfont ext dir (capitalize brandName +:+ "IconFont")
           else Err (SystemError "ENOENT"))
    (generateFontFilesAsync opts ext assets brandName icons).
Proof.
  unfold generateFontFilesAsync. apply settling_rethrow.
  eapply settling_abind; [apply settling_sync_lift | |].
  2:{ intros e He. exists EmptyString. now rewrite He. }
  intros brandDir ->. cbn [bind_result].
  eapply (settling_abind (fun r => exists s, r = Ok s)).
  { intros s. cbn. split; [|now exists s].
    exists (cwd s). now rewrite set_cwd_same. }
  2:{ intros e [s Hs]. discriminate. }
  intros s0 _. cbn zeta.
  eapply settling_abind; [apply settling_sync_chdir | |].
  2:{ intros e He. exists EmptyString.
      destruct (BrandManager.existsDir brandDir assets); [discriminate|].
      now injection He as <-. }
  intros [] Hex.
  destruct (BrandManager.existsDir brandDir assets); [|discriminate].
  eapply (settling_abind
            (fun r => exists dir,
               r = webfont ext dir (capitalize brandName +:+ "IconFont"))).
  { apply settling_await, settling_external. intros s. now exists (cwd s). }
  2:{ intros e He. exact He. }
  intros [] [dir Hdir].
  eapply settling_impl; [|apply (settling_sync_chdir _ true)].
  intros r <-. now exists dir.
Qed.

Lemma settling_stage (c : bool) (r : result unit) (m : async state unit) :
  settling (eq r) m ->
  settling (eq (if c then r else Ok tt)) (if c then m else sync (ret tt)).
Proof. destruct c; [auto | intros _; apply settling_sync_ret]. Qed.

(** The build of a brand adds the number of its icons to [totalIcons]
    when it is called; from then on it changes nothing but the working
    directory and settles with [brand_result], for the directory its font
    compiler finds. *)
Lemma buildBrandAsync_settling brandName s :
  exists t,
    buildBrandAsync opts ext assets brandName s
    = (t, add_icons (BrandManager.getIconCount brandName assets) s)
    /\ settles_with
         (fun r => exists dir, r = brand_result opts ext assets brandName dir)
         t.
Proof.
  assert (Hzero : add_icons 0 s = s).
  { destruct s as [c [tb ti er]]. unfold add_icons. cbn. now rewrite Nat.add_0_r. }
  unfold buildBrandAsync, brand_result, BrandManager.getIconCount.
  unfold atry at 1. unfold abind at 1. unfold sync at 1. unfold lift at 1.
  destruct (BrandManager.getIconsForBrand brandName assets) as [icons|e];
    cbn [then_task catch_task bind_result fst snd].
  2:{ eexists. rewrite Hzero. cbn. split; [reflexivity | now exists EmptyString]. }
  destruct (length icons =? 0)%nat eqn:Hlen.
  { apply Nat.eqb_eq in Hlen. rewrite Hlen, Hzero. eexists. cbn.
    split; [reflexivity | now exists EmptyString]. }
  set (Q := fun r : result unit => exists dir : string, r = _).
  assert (Hrest : settling Q
    (atry
       (await (external (fun _ => buildStyleDictionary ext brandName icons)) ;;!
        (if selected opts "svg"
         then await (sync (lift (generateSVGFiles ext brandName icons)))
         else sync (ret tt)) ;;!
        (if selected opts "png"
         then await (external (fun _ => generatePNGFiles ext brandName icons))
         else sync (ret tt)) ;;!
        (if selected opts "font"
         then await (generateFontFilesAsync opts ext assets brandName icons)
         else sync (ret tt)) ;;!
        (if selected opts "webcomponent"
         then await (sync (lift (generateWebComponents ext brandName icons)))
         else sync (ret tt)) ;;!
        await (sync (lift (generatePackageJson ext brandName icons))))
       (fun error => sync (throw error)))).
  { apply settling_rethrow. subst Q.
    eapply (settling_abind (eq (buildStyleDictionary ext brandName icons))).
    { apply settling_await, settling_external. reflexivity. }
    2:{ intros e ->. now exists EmptyString. }
    intros [] ->. cbn [bind_result].
    eapply settling_abind;
      [apply (settling_stage _ (generateSVGFiles ext brandName icons)),
         settling_await, settling_sync_lift | |].
    2:{ intros e ->. now exists EmptyString. }
    intros [] ->. cbn [bind_result].
    eapply settling_abind;
      [apply (settling_stage _ (generatePNGFiles ext brandName icons)),
         settling_await, settling_external; reflexivity | |].
    2:{ intros e ->. now exists EmptyString. }
    intros [] ->. cbn [bind_result].
    eapply (settling_abind
              (fun r => exists dir,
                 r = if selected opts "font"
                     then
                       let? brandDir :=
                         BrandManager.getBrandDirectory brandName in
                       if BrandManager.existsDir brandDir assets
                       then webfont ext dir
                              (capitalize brandName +:+ "IconFont")
                       else Err (SystemError "ENOENT")
                     else Ok tt)).
    { destruct (selected opts "font").
      - apply settling_await, generateFontFilesAsync_settling.
      - eapply settling_impl; [|apply settling_sync_ret].
        intros r <-. now exists EmptyString. }
    2:{ intros e [dir Hdir]. exists dir. rewrite <- Hdir. reflexivity. }
    intros [] [dir Hdir].
    eapply settling_abind;
      [apply (settling_stage _ (generateWebComponents ext brandName icons)),
         settling_await, settling_sync_lift | |].
    2:{ intros e He. exists dir. rewrite <- Hdir, He. reflexivity. }
    intros [] He.
    eapply settling_impl; [|apply settling_await, settling_sync_lift].
    intros r <-. exists dir. rewrite <- Hdir, He. reflexivity. }
  unfold atry in Hrest. unfold abind at 1. unfold sync at 1. unfold modify at 1.
  cbn [then_task fst snd].
  (* the first stage is awaited: the call does not change the state *)
  specialize (Hrest (add_icons (length icons) s)).
  unfold abind at 1 in Hrest. unfold await at 1 in Hrest.
  unfold external at 1 in Hrest. cbn [fst snd then_task catch_task] in Hrest.
  unfold abind at 1. unfold await at 1. unfold external at 1.
  cbn [fst snd then_task catch_task]. destruct Hrest as [_ Hrest].
  eexists. split; [reflexivity | exact Hrest].
Qed.

(** *** All brands together *)

Local Abbreviation outcome_of b :=
  (fun r : result unit =>
     exists dir, r = brand_result opts ext assets b dir).

Local Abbreviation under_way :=
  (Forall2 (fun (b : string) (x : string * task state unit) =>
              x.1 = b /\ settles_with (outcome_of b) x.2)).

Local Abbreviation failed :=
  (omap (fun o : string * result unit =>
           match o.2 with Err e => Some (o.1, e) | Ok _ => None end)).

Lemma add_icons_add n m s : add_icons m (add_icons n s) = add_icons (n + m) s.
Proof.
  destruct s as [c [tb ti er]]. unfold add_icons. cbn. now rewrite Nat.add_assoc.
Qed.

(** Every build is started, and adds the number of its icons at once. *)
Lemma start_all_under_way brandsToProcess : forall s,
  exists builds,
    start_all opts ext assets brandsToProcess s
    = (builds,
       add_icons
         (sum_list (map (fun b => BrandManager.getIconCount b assets)
                      brandsToProcess)) s)
    /\ under_way brandsToProcess builds.
Proof.
  induction brandsToProcess as [|b rest IH]; intros s.
  - exists []. cbn. split; [|constructor].
    destruct s as [c [tb ti er]]. unfold add_icons. cbn. now rewrite Nat.add_0_r.
  - cbn [start_all map sum_list sum_list_with].
    destruct (buildBrandAsync_settling b s) as (t & -> & Ht).
    destruct (IH (add_icons (BrandManager.getIconCount b assets) s))
      as (builds & -> & Hrest).
    exists ((b, t) :: builds). rewrite add_icons_add.
    split; [reflexivity|]. constructor; [split; [reflexivity | exact Ht]|].
    exact Hrest.
Qed.

(** A turn moves the working directory at most. *)
Lemma resume_nth_under_way brandsToProcess builds :
  under_way brandsToProcess builds ->
  forall i s, exists builds' d,
    resume_nth i builds s = (builds', set_cwd d s)
    /\ under_way brandsToProcess builds'.
Proof.
  induction 1 as [|b [b' t] brands builds [Hb Ht] Hrest IH]; intros i s.
  - exists [], (cwd s). rewrite set_cwd_same. destruct i; split; constructor.
  - cbn [fst snd] in *. subst b'. destruct i as [|i]; cbn [resume_nth].
    + destruct t as [r|resume effect].
      * exists ((b, Settled r) :: builds), (cwd s). rewrite set_cwd_same.
        split; [reflexivity|]. constructor; [now split | exact Hrest].
      * cbn [settles_with] in Ht. destruct (Ht s) as [[d Hd] Hr].
        exists ((b, resume s) :: builds), d. rewrite Hd.
        split; [reflexivity|]. constructor; [now split | exact Hrest].
    + destruct (IH i s) as (builds' & d & -> & Hrest').
      exists ((b, t) :: builds'), d. split; [reflexivity|].
      constructor; [now split | exact Hrest'].
Qed.

Lemma event_loop_under_way order : forall brandsToProcess builds s,
  under_way brandsToProcess builds ->
  exists builds' d,
    event_loop order builds s = (builds', set_cwd d s)
    /\ under_way brandsToProcess builds'.
Proof.
  induction order as [|i order IH]; intros brands builds s Hb; cbn [event_loop].
  - exists builds, (cwd s). now rewrite set_cwd_same.
  - destruct (resume_nth_under_way brands builds Hb i s) as (b1 & d1 & -> & Hb1).
    destruct (IH brands b1 (set_cwd d1 s) Hb1) as (b2 & d2 & -> & Hb2).
    exists b2, d2. split; [reflexivity | exact Hb2].
Qed.

(** Every build settles, with [brand_result] for some directory. *)
Lemma settle_all_under_way brandsToProcess builds :
  under_way brandsToProcess builds ->
  forall s, exists dirs d,
    settle_all builds s
    = (zip_with (fun b dir => (b, brand_result opts ext assets b dir))
         brandsToProcess dirs,
       set_cwd d s)
    /\ length dirs = length brandsToProcess.
Proof.
  induction 1 as [|b [b' t] brands builds [Hb Ht] Hrest IH]; intros s.
  - exists [], (cwd s). rewrite set_cwd_same. split; reflexivity.
  - cbn [fst snd] in *. subst b'. cbn [settle_all].
    destruct (settle_settles _ t Ht s) as (d1 & Hd1 & dir & Hdir).
    destruct (settle t s) as [r s1]. cbn [fst snd] in *. subst r s1.
    destruct (IH (set_cwd d1 s)) as (dirs & d & -> & Hlen).
    exists (dir :: dirs), d. split; [reflexivity|]. cbn [length]. now rewrite Hlen.
Qed.

Lemma allSettled_outcome order brandsToProcess s :
  exists dirs d,
    allSettled opts ext assets order brandsToProcess s
    = (Ok (zip_with (fun b dir => (b, brand_result opts ext assets b dir))
             brandsToProcess dirs),
       set_cwd d
         (add_icons
            (sum_list (map (fun b => BrandManager.getIconCount b assets)
                         brandsToProcess)) s))
    /\ length dirs = length brandsToProcess.
Proof.
  unfold allSettled.
  destruct (start_all_under_way brandsToProcess s) as (b0 & -> & H0).
  match goal with
  | |- context [event_loop order b0 ?st] =>
      destruct (event_loop_under_way order _ b0 st H0) as (b1 & d1 & -> & H1);
      destruct (settle_all_under_way _ b1 H1 (set_cwd d1 st))
        as (dirs & d & -> & Hlen)
  end.
  exists dirs, d. split; [reflexivity | exact Hlen].
Qed.

Lemma check_results_outcome results : forall s,
  exists n,
    check_results results s
    = (Ok n,
       {| cwd := cwd s;
          buildStats :=
            {| totalBrands := totalBrands (buildStats s);
               totalIcons := totalIcons (buildStats s);
               errors := (errors (buildStats s) ++ failed results)%list |} |})
    /\ n + length (failed results) = length results.
Proof.
  induction results as [|[b r] rest IH]; intros s.
  - exists 0. cbn. split; [|reflexivity].
    destruct s as [c [tb ti er]]. unfold ret. cbn. now rewrite app_nil_r.
  - cbn [check_results]. rewrite omap_cons. cbn [fst snd].
    destruct r as [[]|e].
    + destruct (IH s) as [n [Hn Hlen]].
      exists (S n). unfold bind. rewrite Hn. split; [reflexivity|].
      cbn [length]. lia.
    + destruct (IH (push_error b e s)) as [n [Hn Hlen]].
      exists n. unfold bind, modify. rewrite Hn. split.
      * unfold push_error. cbn. now rewrite <- app_assoc.
      * cbn [length]. lia.
Qed.

Lemma no_failure_all_built results :
  failed results = [] <-> Forall (fun o => o.2 = Ok tt) results.
Proof.
  induction results as [|[b r] rest IH].
  - split; [constructor | reflexivity].
  - rewrite omap_cons, Forall_cons. cbn [fst snd]. destruct r as [[]|e].
    + rewrite IH. tauto.
    + split; [discriminate | intros [? _]; discriminate].
Qed.

(** X19. [build] never throws, in whatever order the event loop resumes
    the brand builds.  After a successful setup every brand to process has
    an outcome, which is what its own stages make of it ([brand_result]),
    the other builds having a say only in the working directory its font
    compiler finds; [build] returns [true] exactly when there is a brand to
    process and every outcome is a success; [buildStats.errors] has gained
    one entry for each failure, in the order of the brands, and
    [buildStats.totalIcons] has grown by the number of icons listed for
    the brands, failed builds included.  A failed setup leaves the state as
    it was. *)
Theorem build_outcome s :
  let brandsToProcess := getBrandsToProcess opts assets in
  exists ok s',
    build opts ext assets s = (Ok ok, s')
    /\ (setup ext <> Ok tt -> ok = false /\ s' = s)
    /\ (setup ext = Ok tt ->
        exists dirs,
          let outcomes :=
            zip_with (fun b dir => (b, brand_result opts ext assets b dir))
              brandsToProcess dirs in
          length dirs = length brandsToProcess
          /\ (ok = true
              <-> brandsToProcess <> []
                  /\ Forall (fun o => o.2 = Ok tt) outcomes)
          /\ errors (buildStats s')
             = (errors (buildStats s)
                ++ omap (fun o : string * result unit =>
                           match o.2 with
                           | Err e => Some (o.1, e)
                           | Ok _ => None
                           end) outcomes)%list
          /\ totalIcons (buildStats s')
             = totalIcons (buildStats s)
               + sum_list (map (fun b => BrandManager.getIconCount b assets)
                             brandsToProcess)).
Proof.
  cbn zeta. unfold build, try_catch, bind, lift.
  destruct (setup ext) as [[]|e].
  2:{ exists false, s. unfold ret. split; [reflexivity|].
      split; [now split | discriminate]. }
  destruct (getBrandsToProcess opts assets) as [|b0 rest] eqn:Hbrands.
  { exists false, s. cbn. split; [reflexivity|]. split; [congruence|].
    intros _. exists []. cbn. rewrite app_nil_r.
    split; [reflexivity|]. split; [|split; [reflexivity | lia]].
    split; [discriminate | now intros [? _]]. }
  rewrite <- Hbrands. set (brandsToProcess := getBrandsToProcess opts assets).
  assert (Hne : brandsToProcess <> []) by (unfold brandsToProcess; congruence).
  destruct (length brandsToProcess =? 0)%nat eqn:Hlen.
  { apply Nat.eqb_eq in Hlen. now destruct brandsToProcess. }
  unfold modify.
  destruct (allSettled_outcome (turns ext) brandsToProcess
              (set_brands (length brandsToProcess) s))
    as (dirs & d & -> & Hdirs).
  set (outcomes := zip_with _ brandsToProcess dirs).
  match goal with
  | |- context [check_results outcomes ?st] =>
      destruct (check_results_outcome outcomes st) as [n [-> Hcount]]
  end.
  assert (Hout : length outcomes = length brandsToProcess).
  { unfold outcomes. rewrite length_zip_with. lia. }
  unfold ret. eexists _, _. split; [reflexivity|]. split; [congruence|].
  intros _. exists dirs. fold outcomes. split; [exact Hdirs|]. split.
  - rewrite Nat.eqb_eq, <- no_failure_all_built. split.
    + intros Hn. split; [exact Hne|]. apply length_zero_iff_nil. lia.
    + intros (_ & H). rewrite H in Hcount. cbn [length] in Hcount. lia.
  - cbn. split; reflexivity.
Qed.

(** The builds of two brands resumed in turn: the font stage of the
    second starts while the first waits for its font compiler, and takes
    the directory of the first brand for the one to go back to; the build
    ends there. *)
Lemma builds_in_turn_move_cwd :
  build (Scenario.build_options ["global"; "other"]) Scenario.tools_in_turn
    Scenario.two_brands (initial_state "/repo")
  = (Ok true,
     {| cwd := "/repo/assets/global";
        buildStats :=
          {| totalBrands := 2; totalIcons := 2; errors := [] |} |}).
Proof. vm_compute. reflexivity. Qed.

(** X20. Brands found by auto-discovery (no brand was requested) are the
    directories of the assets directory for which [getIconsForBrand] returns
    at least one icon: their builds never take the exit for an empty or
    missing brand. *)
Theorem discovered_brands_have_icons brandName :
  brands opts = [] ->
  brandName ∈ getBrandsToProcess opts assets ->
  is_Some (assets !! brandName)
  /\ exists icons,
       BrandManager.getIconsForBrand brandName assets = Ok icons
       /\ 0 < length icons.
Proof.
  intros Hb. unfold getBrandsToProcess. rewrite Hb. cbn [length Nat.ltb Nat.leb].
  intros (b & -> & Hin)%list_elem_of_fmap.
  apply list_elem_of_filter in Hin as [Hcount Hin].
  unfold BrandManager.getAllBrands in Hin.
  apply list_elem_of_fmap in Hin as ([d dir] & -> & Hin).
  apply elem_of_map_to_list in Hin. cbn in *.
  split; [eauto|].
  unfold BrandManager.getIconCount in Hcount.
  destruct (BrandManager.getIconsForBrand d assets) as [icons|e]; [|lia].
  eauto.
Qed.

End BuildMore.

Lemma discovered_brands_have_icons_witness :
  is_Some (Scenario.build_store !! "global")
  /\ exists icons,
       BrandManager.getIconsForBrand "global" Scenario.build_store = Ok icons
       /\ 0 < length icons.
Proof.
  apply (discovered_brands_have_icons (Scenario.build_options [])
           Scenario.build_store "global"); [reflexivity|].
  vm_compute. left.
Defined.
